(** * SwissMeteo-For-Energy: the loading pipeline and its configuration

    A shallow embedding of [modules/config.py] and [modules/loading.py].

    Conventions of the embedding.
    - A Python call either returns a value or raises: [result].
    - Python floats are idealised as rationals ([Q]); a [NaN] cell of a
      pandas frame is [None].
    - Python dictionaries keep insertion order, and the code depends on it
      (first station of a canton, order of the files): they are association
      lists, updated with [dict_set].
    - Timestamps are whole seconds since 1970-01-01T00:00:00 ([Z]).
    - HTTP requests go through a [World] and are recorded in a log, so that
      "before any network call" can be stated.
    - The operations of pandas are modelled as far as the pipeline uses
      them on tables indexed by time; what lies outside (label slicing,
      alignment of tables with integer labels) is a parameter, [Pandas],
      and every statement holds whatever it does. *)

From Stdlib Require Import List ZArith QArith Qabs String Ascii Bool Lia.
From Stdlib Require Import Permutation Sorted.
Import ListNotations.

Local Open Scope string_scope.
Local Open Scope list_scope.
Local Open Scope Z_scope.

(* ================================================================== *)
(** ** Exceptions and results *)
(* ================================================================== *)

(** The exceptions met in the code, and [ConfigurationError], which only
    the specification names. *)
Inductive exn : Type :=
| ValueError
| KeyError
| TypeError
| ZeroDivisionError
| InvalidIndexError
| HTTPError
| OSError
| ConfigurationError.

Inductive result (A : Type) : Type :=
| Ok (a : A)
| Raise (e : exn).

Arguments Ok {A} a.
Arguments Raise {A} e.

Definition rbind {A B : Type} (r : result A) (k : A -> result B) : result B :=
  match r with
  | Ok a => k a
  | Raise e => Raise e
  end.

Declare Scope result_scope.
Delimit Scope result_scope with result.
Notation "x <-- r ;; k" := (rbind r (fun x => k))
  (at level 61, r at next level, right associativity) : result_scope.
Notation "' p <-- r ;; k" := (rbind r (fun p => k))
  (at level 61, p pattern, r at next level, right associativity) : result_scope.
Local Open Scope result_scope.

Definition is_ok {A : Type} (r : result A) : bool :=
  match r with Ok _ => true | Raise _ => false end.

(** [for x in xs: acc = body(acc, x)], where the body may raise. *)
Fixpoint rfold {A S : Type} (body : S -> A -> result S) (xs : list A) (acc : S)
  : result S :=
  match xs with
  | [] => Ok acc
  | x :: xs' => acc' <-- body acc x ;; rfold body xs' acc'
  end.

(** [[x for x in xs if p(x)]], where the test may raise. *)
Fixpoint rfilter {A : Type} (p : A -> result bool) (xs : list A)
  : result (list A) :=
  match xs with
  | [] => Ok []
  | x :: xs' =>
      b <-- p x ;;
      rest <-- rfilter p xs' ;;
      Ok (if b then x :: rest else rest)
  end.

(* ================================================================== *)
(** ** Python values held by the configuration *)
(* ================================================================== *)

(** A Python float: not-a-number, an infinity, or a finite value. *)
Inductive pyfloat : Type :=
| FNan
| FInf (negative : bool)
| FFin (q : Q).

Inductive pyval : Type :=
| PyNone
| PyBool (b : bool)
| PyInt (z : Z)
| PyFloat (f : pyfloat)
| PyStr (s : string).




(** Truth value of a Python object, as used by [if]. *)
Definition truthy (v : pyval) : bool :=
  match v with
  | PyNone => false
  | PyBool b => b
  | PyInt z => negb (z =? 0)
  | PyFloat (FFin q) => negb (Qeq_bool q 0%Q)
  | PyFloat _ => true
  | PyStr s => negb (String.eqb s "")
  end.

(** A date argument: [config] stores [pandas.Timestamp]s, the docstring of
    [load_meteo_file] asks for ['YYYY-MM-DD'] strings. *)
Inductive pydate : Type :=
| DateStr (s : string)
| DateStamp (t : Z).

(* ================================================================== *)
(** ** modules/config.py *)
(* ================================================================== *)

Record config : Type := mkConfig {
  freq : option string;
  global_meteo : pyval;
  custom_dates : bool;
  start_date : pydate;
  end_date : pydate;
  save_dir : list (string * string)
}.



(* ================================================================== *)
(** ** modules/loading.py: the station registry and its weights *)
(* ================================================================== *)

(** One entry of [station_to_canton].  The keys ['population'],
    ['district'] and ['canton_pop'] may be absent; ['weight'] is added by
    [compute_station_weights]. *)
Record StationInfo : Type := mkStation {
  station_id : string;
  canton : string;
  population : option Z;
  district : option Z;
  canton_pop : option Z;
  weight : option Q
}.

Definition Registry : Type := list (string * StationInfo).

Definition with_weight (info : StationInfo) (w : Q) : StationInfo :=
  {| station_id := station_id info; canton := canton info;
     population := population info; district := district info;
     canton_pop := canton_pop info; weight := Some w |}.

(** Dictionary access by key. *)
Fixpoint dict_get {V : Type} (k : string) (d : list (string * V)) : option V :=
  match d with
  | [] => None
  | (k', v) :: d' => if String.eqb k' k then Some v else dict_get k d'
  end.

Definition dict_has {V : Type} (k : string) (d : list (string * V)) : bool :=
  match dict_get k d with Some _ => true | None => false end.

(** [d[k] = v]: an existing key keeps its position, a new key goes last. *)
Fixpoint dict_set {V : Type} (k : string) (v : V) (d : list (string * V))
  : list (string * V) :=
  match d with
  | [] => [(k, v)]
  | (k', v') :: d' =>
      if String.eqb k' k then (k, v) :: d' else (k', v') :: dict_set k v d'
  end.

(** [d[k]], raising [KeyError] on a missing key. *)
Definition dict_item {V : Type} (k : string) (d : list (string * V)) : result V :=
  match dict_get k d with
  | Some v => Ok v
  | None => Raise KeyError
  end.

(** [info[key]] for a key that may be absent. *)
Definition field (x : option Z) : result Z :=
  match x with
  | Some v => Ok v
  | None => Raise KeyError
  end.

(** True division [a / b] of Python numbers, as the exact quotient: the
    rounding to a binary64 float is left out. *)
Definition py_div (a b : Q) : result Q :=
  if Qeq_bool b 0%Q then Raise ZeroDivisionError else Ok (a / b)%Q.

(** First loop of [compute_station_weights]: the first station met of each
    canton enters the canton's ['canton_pop'] into [cantons] and adds it to
    [tt_ch_pop]. *)
Definition canton_totals_step (acc : list (string * Z) * Z)
    (item : string * StationInfo) : result (list (string * Z) * Z) :=
  let '(cantons, tt_ch_pop) := acc in
  let info := snd item in
  if negb (dict_has (canton info) cantons) then
    pop <-- field (canton_pop info) ;;
    Ok (dict_set (canton info) pop cantons, tt_ch_pop + pop)
  else Ok acc.

Definition canton_totals (reg : Registry) : result (list (string * Z) * Z) :=
  rfold canton_totals_step reg ([], 0).

(** Second loop: each canton's total is divided by the national total. *)
Fixpoint normalize_cantons (cantons : list (string * Z)) (tt_ch_pop : Z)
  : result (list (string * Q)) :=
  match cantons with
  | [] => Ok []
  | (c, pop) :: rest =>
      w <-- py_div (inject_Z pop) (inject_Z tt_ch_pop) ;;
      rest' <-- normalize_cantons rest tt_ch_pop ;;
      Ok ((c, w) :: rest')
  end.

(** Inner loop of the third loop: the populations of the stations of
    canton [c] that carry the key ['population']. *)
Fixpoint canton_tt_pop (c : string) (reg : Registry) : Z :=
  match reg with
  | [] => 0
  | (_, info2) :: rest =>
      match population info2 with
      | Some p => if String.eqb c (canton info2)
                  then p + canton_tt_pop c rest
                  else canton_tt_pop c rest
      | None => canton_tt_pop c rest
      end
  end.

(** Local weight of a station inside its canton. *)
Definition local_weight (reg : Registry) (info : StationInfo) : result Q :=
  let tt := canton_tt_pop (canton info) reg in
  if Z.eqb tt 0 then Ok 1%Q
  else p <-- field (population info) ;;
       py_div (inject_Z p) (inject_Z tt).

(** Third loop: every station receives its weight. *)
Fixpoint assign_weights (all : Registry) (cantons : list (string * Q))
    (todo : Registry) : result Registry :=
  match todo with
  | [] => Ok []
  | (name, info) :: rest =>
      w <-- local_weight all info ;;
      cw <-- dict_item (canton info) cantons ;;
      rest' <-- assign_weights all cantons rest ;;
      Ok ((name, with_weight info (w * cw)%Q) :: rest')
  end.

(** [compute_station_weights], with the module-level dictionary
    [station_to_canton] it works on made a parameter. *)
Definition compute_station_weights (reg : Registry) : result Registry :=
  ' (cantons, tt_ch_pop) <-- canton_totals reg ;;
  cantons' <-- normalize_cantons cantons tt_ch_pop ;;
  assign_weights reg cantons' reg.

(** Sum of the weights of a registry (a missing weight counts for 0). *)
Definition station_weight (info : StationInfo) : Q :=
  match weight info with Some w => w | None => 0%Q end.

Fixpoint total_weight (reg : Registry) : Q :=
  match reg with
  | [] => 0%Q
  | (_, info) :: rest => (station_weight info + total_weight rest)%Q
  end.

(** The stations of one canton. *)
Definition in_canton (c : string) (item : string * StationInfo) : bool :=
  String.eqb c (canton (snd item)).

Definition stations_of (c : string) (reg : Registry) : Registry :=
  filter (in_canton c) reg.

(** The registry of the module. *)
Definition st (id c : string) (pop dist : option Z) (cpop : Z) : StationInfo :=
  mkStation id c pop dist (Some cpop) None.

Definition station_to_canton : Registry :=
  [ ("Adelboden",       st "ABO" "BE" (Some 3340)  (Some 40674)  1047473);
    ("Bern_Zollikofen", st "BER" "BE" (Some 10825) (Some 418858) 1047473);
    ("Interlaken",      st "INT" "BE" (Some 5821)  (Some 47811)  1047473);
    ("Basel_Binningen", st "BAS" "BL" (Some 15616) (Some 157641) 292817);
    ("Geneve_Cointrin", st "GVE" "GE" None         None          509448);
    ("Chur_Ems",        st "CHU" "GR" (Some 37875) (Some 43233)  201376);
    ("Disentis",        st "DIS" "GR" (Some 2033)  (Some 21438)  201376);
    ("Davos",           st "DAV" "GR" (Some 10648) (Some 26060)  201376);
    ("Samedan",         st "SAM" "GR" (Some 3035)  (Some 18236)  201376);
    ("Luzern",          st "LUZ" "LU" None         None          420326);
    ("Neuchatel",       st "NEU" "NE" (Some 44485) (Some 176166) 176166);
    ("Buchs_Suhr",      st "BUS" "AG" (Some 8270)  (Some 81275)  703086);
    ("Engelberg",       st "ENG" "OW" None         None          38435);
    ("St_Gallen",       st "STG" "SG" (Some 76328) (Some 123274) 519245);
    ("Schaffhausen",    st "SHA" "SH" (Some 37248) (Some 55740)  83995);
    ("Lugano",          st "LUG" "TI" (Some 62123) (Some 151242) 352181);
    ("Piotta",          st "PIO" "TI" (Some 974)   (Some 8718)   352181);
    ("Altdorf",         st "ALT" "UR" None         None          37047);
    ("Pully",           st "PUY" "VD" (Some 18128) (Some 64270)  822968);
    ("Sion",            st "SIO" "VS" (Some 35259) (Some 49023)  353209);
    ("Zermatt",         st "ZER" "VS" (Some 5769)  (Some 28706)  353209);
    ("Zuerich_Kloten",  st "KLO" "ZH" None         None          1564662) ].

(** The mapping [variables] of the module: MeteoSwiss code to name. *)
Definition variables : list (string * string) :=
  [ ("prestah0", "atmospheric_pressure");
    ("tre200h0", "air_temperature");
    ("rre150h0", "rainfall");
    ("ure200h0", "humidity");
    ("dkl010h0", "wind_direction");
    ("gre000h0", "global_radiation");
    ("oli000h0", "irradiation");
    ("fkl010h0", "wind_speed") ].

(* ================================================================== *)
(** ** Python strings *)
(* ================================================================== *)

Definition code (c : ascii) : Z := Z.of_nat (nat_of_ascii c).

Definition is_digit (c : ascii) : bool := (48 <=? code c) && (code c <=? 57).

(** White space as [str.isspace] sees it on ASCII. *)
Definition is_space (c : ascii) : bool :=
  ((9 <=? code c) && (code c <=? 13)) ||
  ((28 <=? code c) && (code c <=? 32)).

Definition digit_value (c : ascii) : Z := code c - 48.

(** [sub in s]. *)
Fixpoint py_contains (sub s : string) : bool :=
  prefix sub s ||
  match s with
  | EmptyString => false
  | String _ s' => py_contains sub s'
  end.

Fixpoint string_rev_onto (s acc : string) : string :=
  match s with
  | EmptyString => acc
  | String c s' => string_rev_onto s' (String c acc)
  end.

Definition string_rev (s : string) : string := string_rev_onto s "".

(** [s.endswith(suffix)]. *)
Definition py_endswith (s suffix : string) : bool :=
  prefix (string_rev suffix) (string_rev s).

(** [s.split(sep)] for a separator of one character. *)
Fixpoint py_split (sep : ascii) (s : string) : list string :=
  match s with
  | EmptyString => [""]
  | String c s' =>
      if Ascii.eqb c sep then "" :: py_split sep s'
      else match py_split sep s' with
           | h :: t => String c h :: t
           | [] => [String c ""]
           end
  end.

(** [s.replace(old, new)] for a non-empty [old]: occurrences are replaced
    from the left, without overlap.  [skip] counts the characters of the
    occurrence being replaced that are still to be dropped. *)
Fixpoint replace_from (old new : string) (skip : nat) (s : string) : string :=
  match s with
  | EmptyString => ""
  | String c s' =>
      match skip with
      | S n => replace_from old new n s'
      | O => if prefix old s
             then (new ++ replace_from old new (String.length old - 1) s')%string
             else String c (replace_from old new 0 s')
      end
  end.

Definition py_replace (old new s : string) : string := replace_from old new 0 s.

Fixpoint lstrip (s : string) : string :=
  match s with
  | EmptyString => ""
  | String c s' => if is_space c then lstrip s' else s
  end.

Definition py_strip (s : string) : string :=
  string_rev (lstrip (string_rev (lstrip s))).

(** Digits of a decimal literal, with single underscores allowed between
    digits. *)
Fixpoint int_digits (s : string) (acc : Z) (after_digit : bool) : option Z :=
  match s with
  | EmptyString => if after_digit then Some acc else None
  | String c s' =>
      if is_digit c then int_digits s' (10 * acc + digit_value c) true
      else if Ascii.eqb c "_" && after_digit then int_digits s' acc false
      else None
  end.

(** [int(s)] on an ASCII string: surrounding white space, an optional sign,
    decimal digits. *)
Definition py_int (s : string) : result Z :=
  let body := py_strip s in
  let parsed :=
    match body with
    | String "+" r => int_digits r 0 false
    | String "-" r => option_map Z.opp (int_digits r 0 false)
    | _ => int_digits body 0 false
    end in
  match parsed with
  | Some z => Ok z
  | None => Raise ValueError
  end.

(** [s.lower()] on ASCII. *)
Definition lower_char (c : ascii) : ascii :=
  if (65 <=? code c) && (code c <=? 90)
  then ascii_of_nat (nat_of_ascii c + 32) else c.

Fixpoint py_lower (s : string) : string :=
  match s with
  | EmptyString => ""
  | String c s' => String (lower_char c) (py_lower s')
  end.

(** [str(freq)] inside an f-string. *)
Definition py_str (x : option string) : string :=
  match x with Some s => s | None => "None" end.

(* ================================================================== *)
(** ** download_meteo_file: selection of the files *)
(* ================================================================== *)

(** [int(date[:4])]; a [Timestamp] cannot be sliced. *)
Definition year_prefix (d : pydate) : result Z :=
  match d with
  | DateStr s => py_int (substring 0 4 s)
  | DateStamp _ => Raise TypeError
  end.

(** The nested function [file_in_range] of [download_meteo_file]. *)
Definition file_in_range (start_date end_date : pydate) (k : string)
  : result bool :=
  if py_contains "historical_" k then
    let period := py_replace ".csv" "" (last (py_split "_" k) "") in
    match py_split "-" period with
    | [start; end_] =>
        s <-- py_int start ;;
        e4 <-- year_prefix end_date ;;
        if s <=? e4 then
          e <-- py_int end_ ;;
          s4 <-- year_prefix start_date ;;
          Ok (e >=? s4)
        else Ok false
    | _ => Raise ValueError
    end
  else Ok false.

(** The comprehension [relevant_files]. *)
Definition relevant (fr : option string) (k : string) : bool :=
  py_contains ("_" ++ py_str fr ++ "_")%string k && py_endswith k ".csv".

Definition relevant_files (fr : option string) (assets : list (string * string))
  : list (string * string) :=
  filter (fun kv => relevant fr (fst kv)) assets.

(** The comprehension [selected_files]: lines 369 to 388. *)
Definition select_files (assets : list (string * string)) (fr : option string)
    (start_date end_date : pydate) : result (list (string * string)) :=
  rfilter (fun kv => file_in_range start_date end_date (fst kv))
          (relevant_files fr assets).

(* ================================================================== *)
(** ** Timestamps: pandas.to_datetime with a format *)
(* ================================================================== *)

(** The directives of the two formats of [concat_meteo_items]. *)
Inductive directive : Type :=
| DYear | DMonth | DDay | DHour | DMinute | DSecond
| Lit (c : ascii)
| Blank.

(** ["%Y-%m-%dT%H:%M:%S"] *)
Definition iso_format : list directive :=
  [DYear; Lit "-"; DMonth; Lit "-"; DDay; Lit "T";
   DHour; Lit ":"; DMinute; Lit ":"; DSecond].

(** ["%d.%m.%Y %H:%M"] *)
Definition dayfirst_format : list directive :=
  [DDay; Lit "."; DMonth; Lit "."; DYear; Blank; DHour; Lit ":"; DMinute].

Record fields : Type := mkFields {
  f_year : Z; f_month : Z; f_day : Z; f_hour : Z; f_minute : Z; f_second : Z
}.

Definition no_fields : fields := mkFields 1900 1 1 0 0 0.

Definition set_field (d : directive) (v : Z) (f : fields) : fields :=
  match d with
  | DYear => mkFields v (f_month f) (f_day f) (f_hour f) (f_minute f) (f_second f)
  | DMonth => mkFields (f_year f) v (f_day f) (f_hour f) (f_minute f) (f_second f)
  | DDay => mkFields (f_year f) (f_month f) v (f_hour f) (f_minute f) (f_second f)
  | DHour => mkFields (f_year f) (f_month f) (f_day f) v (f_minute f) (f_second f)
  | DMinute => mkFields (f_year f) (f_month f) (f_day f) (f_hour f) v (f_second f)
  | DSecond => mkFields (f_year f) (f_month f) (f_day f) (f_hour f) (f_minute f) v
  | _ => f
  end.

(** Two leading digits read as a number within [lo, hi]. *)
Definition two_digits (lo hi : Z) (s : string) : list (Z * string) :=
  match s with
  | String a (String b r) =>
      if is_digit a && is_digit b then
        let v := 10 * digit_value a + digit_value b in
        if (lo <=? v) && (v <=? hi) then [(v, r)] else []
      else []
  | _ => []
  end.

(** One leading digit within [lo, 9]. *)
Definition one_digit (lo : Z) (s : string) : list (Z * string) :=
  match s with
  | String a r =>
      if is_digit a && (lo <=? digit_value a) then [(digit_value a, r)] else []
  | _ => []
  end.

Definition four_digits (s : string) : list (Z * string) :=
  match s with
  | String a (String b (String c (String d r))) =>
      if is_digit a && is_digit b && is_digit c && is_digit d
      then [(1000 * digit_value a + 100 * digit_value b
             + 10 * digit_value c + digit_value d, r)]
      else []
  | _ => []
  end.

(** The ways of skipping one or more blanks, longest first. *)
Fixpoint skip_blanks (s : string) : list (Z * string) :=
  match s with
  | String c r => if is_space c then (skip_blanks r ++ [(0, r)])%list else []
  | EmptyString => []
  end.

(** The ways a directive can match at the head of [s], in the order the
    alternatives of the regular expression of [strptime] are tried:
    [%d] is [3[0-1]|[1-2]\d|0[1-9]|[1-9]| [1-9]], [%m] is
    [1[0-2]|0[1-9]|[1-9]], [%H] is [2[0-3]|[0-1]\d|\d], [%M] is
    [[0-5]\d|\d], [%S] is [6[0-1]|[0-5]\d|\d], [%Y] is four digits. *)
Definition candidates (d : directive) (s : string) : list (Z * string) :=
  match d with
  | DYear => four_digits s
  | DMonth => two_digits 1 12 s ++ one_digit 1 s
  | DDay =>
      two_digits 1 31 s ++ one_digit 1 s ++
      match s with
      | String " " r => one_digit 1 r
      | _ => []
      end
  | DHour => two_digits 0 23 s ++ one_digit 0 s
  | DMinute => two_digits 0 59 s ++ one_digit 0 s
  | DSecond => two_digits 0 61 s ++ one_digit 0 s
  | Lit c =>
      match s with
      | String c' r => if Ascii.eqb c c' then [(0, r)] else []
      | EmptyString => []
      end
  | Blank => skip_blanks s
  end.

(** Matching of a whole string against a format, with backtracking. *)
Fixpoint strp (fmt : list directive) (s : string) (acc : fields) : option fields :=
  match fmt with
  | [] => if String.eqb s "" then Some acc else None
  | d :: fmt' =>
      (fix try (cands : list (Z * string)) : option fields :=
         match cands with
         | [] => None
         | (v, rest) :: more =>
             match strp fmt' rest (set_field d v acc) with
             | Some f => Some f
             | None => try more
             end
         end) (candidates d s)
  end.

Definition is_leap (y : Z) : bool :=
  ((y mod 4 =? 0) && negb (y mod 100 =? 0)) || (y mod 400 =? 0).

Definition days_in_month (y m : Z) : Z :=
  if m =? 2 then (if is_leap y then 29 else 28)
  else if (m =? 4) || (m =? 6) || (m =? 9) || (m =? 11) then 30
  else 31.

(** Days from 1970-01-01 to the given civil date. *)
Definition days_from_civil (y m d : Z) : Z :=
  let y' := if m <=? 2 then y - 1 else y in
  let era := y' / 400 in
  let yoe := y' - era * 400 in
  let mp := (m + 9) mod 12 in
  let doy := (153 * mp + 2) / 5 + d - 1 in
  let doe := yoe * 365 + yoe / 4 - yoe / 100 + doy in
  era * 146097 + doe - 719468.

(** Seconds since the epoch of the fields; [None] for a day that the
    month does not have or a time outside the range of a nanosecond
    timestamp.  The seconds are added as they are: a second of 60 or 61,
    which [%S] admits, runs over into the next minute. *)
Definition to_seconds (f : fields) : option Z :=
  if f_day f <=? days_in_month (f_year f) (f_month f)
  then
    let t := ((days_from_civil (f_year f) (f_month f) (f_day f) * 24
               + f_hour f) * 60 + f_minute f) * 60 + f_second f in
    if (-9223372036 <=? t) && (t <=? 9223372036) then Some t else None
  else None.

Definition parse_timestamp (fmt : list directive) (s : string) : option Z :=
  match strp fmt s no_fields with
  | Some f => to_seconds f
  | None => None
  end.

(** Strings that [to_datetime] reads as "not a time". *)
Definition is_nat_string (s : string) : bool :=
  existsb (String.eqb s) [""; "NaT"; "nat"; "NAT"; "nan"; "NaN"; "NAN"].

(** [pd.to_datetime(column, format=fmt)] with the default [errors="raise"]:
    a missing cell becomes [NaT] ([None]); one cell that does not match
    the format makes the whole call raise. *)
Fixpoint to_datetime (fmt : list directive) (col : list (option string))
  : result (list (option Z)) :=
  match col with
  | [] => Ok []
  | cell :: rest =>
      t <-- match cell with
            | None => Ok None
            | Some s =>
                if is_nat_string s then Ok None
                else match parse_timestamp fmt s with
                     | Some t => Ok (Some t)
                     | None => Raise ValueError
                     end
            end ;;
      rest' <-- to_datetime fmt rest ;;
      Ok (t :: rest')
  end.

(* ================================================================== *)
(** ** Tables *)
(* ================================================================== *)

(** A measurement: a number, or [None] for [NaN]. *)
Definition cell : Type := option Q.

(** A CSV file as [pd.read_csv] returns it: whether it has a column
    ['reference_timestamp'], the names of the other columns (distinct,
    [read_csv] renames repeated headers), and the rows, each with its raw
    timestamp (text, or [None] for an empty field) and its measurements. *)
Record RawFrame : Type := mkRaw {
  has_timestamp : bool;
  raw_columns : list string;
  raw_rows : list (option string * list cell)
}.

(** Row labels of a table: the default integer labels [0 .. n-1], or
    timestamps. *)
Inductive Index : Type :=
| RangeIndex (n : nat)
| DatetimeIndex (ts : list Z).

(** A table: row labels, column names, and the rows. *)
Record DataFrame : Type := mkFrame {
  index : Index;
  columns : list string;
  data : list (list cell)
}.

(** [pd.DataFrame()] *)
Definition empty_frame : DataFrame := mkFrame (RangeIndex 0) [] [].

Definition nrows (df : DataFrame) : nat :=
  match index df with
  | RangeIndex n => n
  | DatetimeIndex ts => List.length ts
  end.

Definition ncols (df : DataFrame) : nat := List.length (columns df).

(** [df.empty]: no row or no column. *)
Definition df_empty (df : DataFrame) : bool :=
  Nat.eqb (nrows df) 0 || Nat.eqb (ncols df) 0.

Definition mem_string (x : string) (l : list string) : bool :=
  existsb (String.eqb x) l.

(** The cell of a row under the first column named [v]; [NaN] when there
    is none. *)
Fixpoint lookup_cell (cols : list string) (row : list cell) (v : string) : cell :=
  match cols, row with
  | c :: cs, x :: xs => if String.eqb c v then x else lookup_cell cs xs v
  | _, _ => None
  end.

(** Names in order of first appearance. *)
Definition first_seen (names : list string) : list string :=
  fold_left (fun acc c => if mem_string c acc then acc else (acc ++ [c])%list)
            names [].

(** [pd.concat(frames, ignore_index=True)] on frames that each have
    distinct column names: the rows of the frames one after the other,
    over the union of the columns; a frame that lacks a column has [NaN]
    there.  Frames with a repeated column name are outside the model;
    they arise only from a mapping of variables that gives one name to
    two columns, which [plain_mapping] excludes. *)
Definition concat_rows (frames : list RawFrame) : RawFrame :=
  let cols := first_seen (flat_map raw_columns frames) in
  mkRaw (existsb has_timestamp frames) cols
    (flat_map (fun f =>
       map (fun r => (if has_timestamp f then fst r else None,
                      map (lookup_cell (raw_columns f) (snd r)) cols))
           (raw_rows f)) frames).

(** The branch [if variables:] of [concat_meteo_items]: [df[keep_cols]]
    followed by [df.rename(columns=variables)], where [keep_cols] is
    ['reference_timestamp'] and the keys of [variables] that the file has,
    in the order of [variables]; a file without ['reference_timestamp']
    raises [KeyError].  The empty mapping, which also stands for [None], is
    falsy and leaves the table as it is.  The timestamp column is kept
    apart from the measurements, so the model is for mappings that do not
    name ['reference_timestamp'], neither as a key nor as a new name, and
    that give distinct new names: [plain_mapping], which holds of the
    mapping of the module.  The statements on arbitrary mappings assume
    it. *)
Definition project_columns (vars : list (string * string)) (df : RawFrame)
  : result RawFrame :=
  match vars with
  | [] => Ok df
  | _ =>
      if has_timestamp df then
        let keep := filter (fun kv => mem_string (fst kv) (raw_columns df)) vars in
        Ok (mkRaw true (map snd keep)
              (map (fun r => (fst r,
                              map (fun kv => lookup_cell (raw_columns df) (snd r) (fst kv))
                                  keep))
                   (raw_rows df)))
      else Raise KeyError
  end.

(** The rows whose timestamp is a time, with that time. *)
Fixpoint dropna_rows (stamps : list (option Z)) (rows : list (option string * list cell))
  : list (Z * list cell) :=
  match stamps, rows with
  | Some t :: stamps', r :: rows' => (t, snd r) :: dropna_rows stamps' rows'
  | None :: stamps', _ :: rows' => dropna_rows stamps' rows'
  | _, _ => []
  end.

(** Lines 455 to 467 of [concat_meteo_items]: the timestamps are parsed
    with the ISO format and, when that raises, with the day-first format;
    rows without a time are dropped; the timestamp becomes the index.
    Nothing is sorted and no duplicate is removed. *)
Definition index_by_timestamp (full : RawFrame) : result DataFrame :=
  if has_timestamp full then
    let col := map fst (raw_rows full) in
    stamps <-- match to_datetime iso_format col with
               | Ok stamps => Ok stamps
               | Raise _ => to_datetime dayfirst_format col
               end ;;
    let kept := dropna_rows stamps (raw_rows full) in
    Ok (mkFrame (DatetimeIndex (map fst kept)) (raw_columns full) (map snd kept))
  else
    Ok (mkFrame (RangeIndex (List.length (raw_rows full))) (raw_columns full)
                (map snd (raw_rows full))).

(* ================================================================== *)
(** ** The network *)
(* ================================================================== *)

Inductive Request : Type :=
| Search (query : string)
| Fetch (url : string).

(** What the outside world answers.  [search q] stands for the catalogue
    query with [raise_for_status] and the ['features'] of the JSON reply,
    each feature reduced to its ['assets'] (key to href); [fetch url] for
    the download with [raise_for_status] and [pd.read_csv];
    [write_station_csv] for the file written by [to_csv]. *)
Record World : Type := mkWorld {
  search : string -> result (list (list (string * string)));
  fetch : string -> result RawFrame;
  write_station_csv : Registry -> result unit
}.

(** A computation that may raise and that logs its requests. *)
Definition Net (A : Type) : Type := list Request -> result A * list Request.

Definition nret {A : Type} (a : A) : Net A := fun log => (Ok a, log).

Definition nbind {A B : Type} (m : Net A) (k : A -> Net B) : Net B :=
  fun log =>
    match m log with
    | (Ok a, log') => k a log'
    | (Raise e, log') => (Raise e, log')
    end.

Definition nlift {A : Type} (r : result A) : Net A := fun log => (r, log).

(** [try: m  except Exception: ...]: the outcome of [m] as a value. *)
Definition ntry {A : Type} (m : Net A) : Net (result A) :=
  fun log => let '(r, log') := m log in (Ok r, log').

Definition request {A : Type} (rq : Request) (answer : result A) : Net A :=
  fun log => (answer, (log ++ [rq])%list).

Declare Scope net_scope.
Delimit Scope net_scope with net.
Notation "x <- m ;; k" := (nbind m (fun x => k))
  (at level 61, m at next level, right associativity) : net_scope.
Notation "' p <- m ;; k" := (nbind m (fun p => k))
  (at level 61, p pattern, m at next level, right associativity) : net_scope.
Local Open Scope net_scope.

Fixpoint nfold {A S : Type} (body : S -> A -> Net S) (xs : list A) (acc : S)
  : Net S :=
  match xs with
  | [] => nret acc
  | x :: xs' => acc' <- body acc x ;; nfold body xs' acc'
  end.

(** What pandas does outside the fragment modelled here is left open:
    label slicing [df.loc[start:end]], and the alignment of tables that
    carry integer labels. *)
Record Pandas : Type := mkPandas {
  loc_slice : pydate -> pydate -> DataFrame -> result DataFrame;
  concat_other : list DataFrame -> result DataFrame
}.

(* ================================================================== *)
(** ** concat_meteo_items and download_meteo_file *)
(* ================================================================== *)

(** The body of the [try] of [concat_meteo_items] for one file. *)
Definition fetch_file (w : World) (vars : list (string * string)) (url : string)
  : Net RawFrame :=
  df <- request (Fetch url) (fetch w url) ;;
  nlift (project_columns vars df).

(** The loop of [concat_meteo_items]: [all_data] after the files. *)
Fixpoint collect_files (w : World) (vars : list (string * string))
    (files : list (string * string)) : Net (list RawFrame) :=
  match files with
  | [] => nret []
  | (name, url) :: rest =>
      r <- ntry (fetch_file w vars url) ;;
      more <- collect_files w vars rest ;;
      nret match r with
           | Ok df => df :: more
           | Raise _ => more
           end
  end.

(** [concat_meteo_items]: the empty table when no file succeeded, else the
    concatenation of the collected tables, indexed by time. *)
Definition concat_meteo_items (w : World) (files_dict : list (string * string))
    (vars : list (string * string)) : Net DataFrame :=
  all_data <- collect_files w vars files_dict ;;
  match all_data with
  | [] => nret empty_frame
  | _ => nlift (index_by_timestamp (concat_rows all_data))
  end.

(** Truth value of a date: only the empty text is falsy. *)
Definition date_truthy (d : pydate) : bool :=
  match d with
  | DateStr s => negb (String.eqb s "")
  | DateStamp _ => true
  end.

(** [download_meteo_file]: the catalogue is asked for the station (this
    request is not guarded), the files of the first item are selected and
    concatenated, and a non-empty result is cut to the dates. *)
Definition download_meteo_file (P : Pandas) (w : World) (sid : string)
    (start_date end_date : pydate) (fr : option string) : Net DataFrame :=
  items <- request (Search (py_lower sid)) (search w (py_lower sid)) ;;
  match items with
  | [] => nret empty_frame
  | assets :: _ =>
      selected <- nlift (select_files assets fr start_date end_date) ;;
      full_df <- concat_meteo_items w selected variables ;;
      if negb (df_empty full_df) && date_truthy start_date && date_truthy end_date
      then nlift (loc_slice P start_date end_date full_df)
      else nret full_df
  end.

(* ================================================================== *)
(** ** Column-wise concatenation (pd.concat with axis=1) *)
(* ================================================================== *)

Fixpoint insert_sorted (x : Z) (l : list Z) : list Z :=
  match l with
  | [] => [x]
  | y :: l' => if x <=? y then x :: l else y :: insert_sorted x l'
  end.

Fixpoint sort_stamps (l : list Z) : list Z :=
  match l with
  | [] => []
  | x :: l' => insert_sorted x (sort_stamps l')
  end.

Fixpoint remove_one (x : Z) (l : list Z) : list Z :=
  match l with
  | [] => []
  | y :: l' => if x =? y then l' else y :: remove_one x l'
  end.

Definition list_eqb (a b : list Z) : bool :=
  if list_eq_dec Z.eq_dec a b then true else false.

(** [a.union(b)] of two [DatetimeIndex]: [a] itself when [b] is empty or
    equal to [a], [b] when [a] is empty, and otherwise the sorted labels of
    both, each as often as in the index where it occurs most. *)
Definition union2 (a b : list Z) : list Z :=
  match b with
  | [] => a
  | _ =>
      if list_eqb a b then a
      else match a with
           | [] => b
           | _ => sort_stamps (a ++ fold_left (fun acc x => remove_one x acc) a b)%list
           end
  end.

(** The row labels of the result, folded from the first index on. *)
Definition union_indexes (idxs : list (list Z)) : list Z :=
  match idxs with
  | [] => []
  | i0 :: rest => fold_left union2 rest i0
  end.

Fixpoint has_dup (l : list Z) : bool :=
  match l with
  | [] => false
  | x :: l' => existsb (Z.eqb x) l' || has_dup l'
  end.

(** The row labelled [t], or a row of [NaN]. *)
Fixpoint row_at (ts : list Z) (rows : list (list cell)) (width : nat) (t : Z)
  : list cell :=
  match ts, rows with
  | t' :: ts', r :: rows' => if t' =? t then r else row_at ts' rows' width t
  | _, _ => repeat None width
  end.

(** A table brought to the row labels [combined].  A table that has these
    very labels is left as it is; another one is looked up label by label,
    which pandas refuses when the table has a label twice. *)
Definition reindex (combined : list Z) (ts : list Z) (df : DataFrame)
  : result (list (list cell)) :=
  if list_eqb ts combined then Ok (data df)
  else if has_dup ts then Raise InvalidIndexError
  else Ok (map (row_at ts (data df) (ncols df)) combined).

(** Rows put side by side. *)
Fixpoint hcat (a b : list (list cell)) : list (list cell) :=
  match a, b with
  | x :: a', y :: b' => (x ++ y)%list :: hcat a' b'
  | _, _ => []
  end.

Fixpoint reindex_all (combined : list Z) (frames : list (list Z * DataFrame))
  : result (list (list cell)) :=
  match frames with
  | [] => Ok (repeat [] (List.length combined))
  | (ts, df) :: rest =>
      rows <-- reindex combined ts df ;;
      more <-- reindex_all combined rest ;;
      Ok (hcat rows more)
  end.

(** The tables with their timestamps, when all of them have timestamps. *)
Fixpoint all_datetime (frames : list DataFrame) : option (list (list Z * DataFrame)) :=
  match frames with
  | [] => Some []
  | df :: rest =>
      match index df, all_datetime rest with
      | DatetimeIndex ts, Some more => Some ((ts, df) :: more)
      | _, _ => None
      end
  end.

Definition is_0x0 (df : DataFrame) : bool :=
  Nat.eqb (nrows df) 0 && Nat.eqb (ncols df) 0.

(** [pd.concat(objs, axis=1)].  Without objects it raises.  Tables without
    rows and columns are left out when another table is there.  Tables
    indexed by time are aligned on the union of their labels, see
    [union_indexes]. *)
Definition concat_columns (P : Pandas) (objs : list DataFrame) : result DataFrame :=
  match objs with
  | [] => Raise ValueError
  | first :: _ =>
      match filter (fun df => negb (is_0x0 df)) objs with
      | [] => Ok (mkFrame (index first) [] [])
      | kept =>
          match all_datetime kept with
          | Some frames =>
              let combined := union_indexes (map fst frames) in
              rows <-- reindex_all combined frames ;;
              Ok (mkFrame (DatetimeIndex combined) (flat_map columns kept) rows)
          | None => concat_other P kept
          end
      end
  end.

(* ================================================================== *)
(** ** The global series and the merged table *)
(* ================================================================== *)

(** [df * w] *)
Definition scale_frame (df : DataFrame) (w : Q) : DataFrame :=
  mkFrame (index df) (columns df)
          (map (map (option_map (fun q => (q * w)%Q))) (data df)).

Fixpoint insert_name (x : string) (l : list string) : list string :=
  match l with
  | [] => [x]
  | y :: l' =>
      if String.eqb x y then l
      else if String.leb x y then x :: l else y :: insert_name x l'
  end.

(** The distinct names, in increasing order: the group keys. *)
Fixpoint sorted_names (l : list string) : list string :=
  match l with
  | [] => []
  | x :: l' => insert_name x (sorted_names l')
  end.

(** The sum of the cells of a row under the columns named [v], a [NaN]
    being skipped. *)
Fixpoint group_sum (cols : list string) (row : list cell) (v : string) : Q :=
  match cols, row with
  | c :: cs, x :: xs =>
      if String.eqb c v
      then (match x with Some q => q | None => 0 end + group_sum cs xs v)%Q
      else group_sum cs xs v
  | _, _ => 0%Q
  end.

(** [df.groupby(level=0, axis=1).sum()]: one column per distinct name. *)
Definition groupby_sum (df : DataFrame) : DataFrame :=
  let names := sorted_names (columns df) in
  mkFrame (index df) names
          (map (fun row => map (fun v => Some (group_sum (columns df) row v)) names)
               (data df)).

(** Line 247 of [load_meteo_file]. *)
Definition global_series (P : Pandas) (weighted : list DataFrame) : result DataFrame :=
  g <-- concat_columns P weighted ;;
  Ok (groupby_sum g).

Definition add_suffix (sid : string) (df : DataFrame) : DataFrame :=
  mkFrame (index df) (map (fun c => (c ++ "_" ++ sid)%string) (columns df)) (data df).

Definition concat_stations_horizontal (P : Pandas)
    (meteo_dict : list (string * DataFrame)) (exclude_keys : list string)
  : result DataFrame :=
  let dfs_to_concat :=
    flat_map (fun kv =>
      if mem_string (fst kv) exclude_keys || df_empty (snd kv) then []
      else [add_suffix (fst kv) (snd kv)]) meteo_dict in
  match dfs_to_concat with
  | [] => Ok empty_frame
  | _ => concat_columns P dfs_to_concat
  end.

(** [df.dropna(axis=1, how='all')]: a column stays when some row has a
    value in it. *)
Fixpoint column_mask (width : nat) (rows : list (list cell)) : list bool :=
  match rows with
  | [] => repeat false width
  | r :: rows' =>
      map (fun p => match fst p with Some _ => true | None => snd p end)
          (combine r (column_mask width rows'))
  end.

Fixpoint select {A : Type} (mask : list bool) (l : list A) : list A :=
  match mask, l with
  | b :: mask', x :: l' => if b then x :: select mask' l' else select mask' l'
  | _, _ => []
  end.

Definition dropna_columns (df : DataFrame) : DataFrame :=
  let mask := column_mask (ncols df) (data df) in
  mkFrame (index df) (select mask (columns df)) (map (select mask) (data df)).

(* ================================================================== *)
(** ** load_meteo_file *)
(* ================================================================== *)

Definition values {V : Type} (d : list (string * V)) : list V := map snd d.

(** The body of the loop over the stations. *)
Definition load_station (P : Pandas) (w : World) (cfg : config)
    (acc : list (string * DataFrame) * list (string * DataFrame))
    (item : string * StationInfo)
  : Net (list (string * DataFrame) * list (string * DataFrame)) :=
  let '(meteo, meteo_global) := acc in
  let station := snd item in
  let sid := station_id station in
  df <- download_meteo_file P w sid (start_date cfg) (end_date cfg) (freq cfg) ;;
  let meteo' := dict_set sid df meteo in
  if truthy (global_meteo cfg) then
    match weight station with
    | Some wt => nret (meteo', dict_set sid (scale_frame df wt) meteo_global)
    | None => nlift (Raise KeyError)
    end
  else nret (meteo', meteo_global).

(** [load_meteo_file], with the registry it reads made a parameter. *)
Definition load_meteo_file (P : Pandas) (w : World) (reg : Registry)
    (cfg : config) : Net DataFrame :=
  stations <- nlift (compute_station_weights reg) ;;
  ' (meteo, meteo_global) <- nfold (load_station P w cfg) stations ([], []) ;;
  g <- nlift (global_series P (values meteo_global)) ;;
  let meteo' := dict_set "global" g meteo in
  data <- nlift (concat_stations_horizontal P meteo' []) ;;
  _ <- nlift (write_station_csv w stations) ;;
  nret (dropna_columns data).

(* ================================================================== *)
(** ** modules/config.py: set_path, get_path and set_freq *)
(* ================================================================== *)





(* ================================================================== *)
(** ** Notions used in the statements *)
(* ================================================================== *)

(** Sum of the values of [f] over a list. *)
Fixpoint qsum {A : Type} (f : A -> Q) (l : list A) : Q :=
  match l with
  | [] => 0%Q
  | x :: l' => (f x + qsum f l')%Q
  end.

(** Sum of the values of [f] over a list, in the integers. *)
Fixpoint zsum {A : Type} (f : A -> Z) (l : list A) : Z :=
  match l with
  | [] => 0
  | x :: l' => f x + zsum f l'
  end.

(** The population a station reports, 0 when it reports none. *)
Definition reported (item : string * StationInfo) : Z :=
  match population (snd item) with Some p => p | None => 0 end.

(** Every station of canton [c] reports a population, and these
    populations do not sum to zero. *)
Definition reports_everywhere (reg : Registry) (c : string) : Prop :=
  canton_tt_pop c reg <> 0 /\
  forall item, In item reg -> canton (snd item) = c -> population (snd item) <> None.

(** Canton [c] has one station, and no population is reported for it. *)
Definition single_without_population (reg : Registry) (c : string) : Prop :=
  canton_tt_pop c reg = 0 /\ List.length (stations_of c reg) = 1%nat.

(** The share of a station inside its canton, as the third loop computes
    it when it does not fail. *)
Definition local_share (reg : Registry) (item : string * StationInfo) : Q :=
  let tt := canton_tt_pop (canton (snd item)) reg in
  if tt =? 0 then 1%Q else (inject_Z (reported item) / inject_Z tt)%Q.

(** The weight of a canton in the normalised dictionary. *)
Definition canton_share (cantons : list (string * Q)) (c : string) : Q :=
  match dict_get c cantons with Some q => q | None => 0%Q end.

(** A registry as the specification wants it: not empty, every station
    with a parent-region total that is present and not zero. *)
Definition valid_registry (reg : Registry) : bool :=
  negb (Nat.eqb (List.length reg) 0) &&
  forallb (fun item => match canton_pop (snd item) with
                       | Some p => negb (p =? 0)
                       | None => false
                       end) reg.

(** The year range that the name of a file declares: its last component
    after ["_"], without [".csv"], read as [START-END]. *)
Definition declares_year_range (k : string) : option (Z * Z) :=
  match py_split "-" (py_replace ".csv" "" (last (py_split "_" k) "")) with
  | [a; b] =>
      match py_int a, py_int b with
      | Ok s, Ok e => Some (s, e)
      | _, _ => None
      end
  | _ => None
  end.

(** The declared range meets the years [ys .. ye] of the query. *)
Definition overlaps (ys ye : Z) (k : string) : bool :=
  match declares_year_range k with
  | Some (s, e) => (s <=? ye) && (e >=? ys)
  | None => false
  end.

(** The entries that the code keeps. *)
Definition kept (fr : option string) (ys ye : Z) (kv : string * string) : bool :=
  relevant fr (fst kv) && py_contains "historical_" (fst kv) && overlaps ys ye (fst kv).

(** The outcome of the [try] body for one file, and the tables of the
    files for which it succeeds. *)
Definition file_result (w : World) (vars : list (string * string)) (url : string)
  : result RawFrame :=
  rbind (fetch w url) (project_columns vars).

Definition succeeded (w : World) (vars : list (string * string))
    (files : list (string * string)) : list RawFrame :=
  flat_map (fun kv => match file_result w vars (snd kv) with
                      | Ok df => [df]
                      | Raise _ => []
                      end) files.

(** The timestamps that label the rows of a table. *)
Definition timestamps (df : DataFrame) : list Z :=
  match index df with
  | DatetimeIndex ts => ts
  | RangeIndex _ => []
  end.

(** Strictly increasing, hence without duplicates. *)
Definition increasing (l : list Z) : Prop := StronglySorted Z.lt l.


(** What a table holds at time [t] under the column [v]: the cell of the
    first row labelled [t] and the first column named [v]; [None] when the
    table has no such row or column, or a [NaN] there. *)
Definition station_value (df : DataFrame) (t : Z) (v : string) : cell :=
  lookup_cell (columns df) (row_at (timestamps df) (data df) (ncols df) t) v.

(** What one station adds to the global series at [t] for [v]. *)
Definition contribution (s : Q * DataFrame) (t : Z) (v : string) : Q :=
  match station_value (snd s) t v with
  | Some q => (q * fst s)%Q
  | None => 0%Q
  end.

(** The partial weighted sum: over the stations that report a value at [t]
    for [v], the value times the weight of the station. *)
Fixpoint weighted_sum (stations : list (Q * DataFrame)) (t : Z) (v : string) : Q :=
  match stations with
  | [] => 0%Q
  | s :: rest => (contribution s t v + weighted_sum rest t v)%Q
  end.

(** The shape of a table: as many rows as labels, as many cells in a row
    as columns. *)
Definition well_formed (df : DataFrame) : Prop :=
  List.length (data df) = nrows df /\
  Forall (fun row => List.length row = ncols df) (data df).

(** A station series as the aggregation expects it: either it has no row
    and no column, or it is a well-formed table indexed by timestamps,
    without a repeated timestamp or column name. *)
Definition series (df : DataFrame) : Prop :=
  is_0x0 df = true \/
  ((exists ts, index df = DatetimeIndex ts /\ NoDup ts) /\
   NoDup (columns df) /\ well_formed df).

(** The row of the aligned tables at label [t]: the rows of the tables at
    [t], side by side. *)
Definition aligned_row (frames : list DataFrame) (t : Z) : list cell :=
  flat_map (fun df => row_at (timestamps df) (data df) (ncols df) t) frames.

(** Some character of the text satisfies [p]. *)
Fixpoint string_exists (p : ascii -> bool) (s : string) : bool :=
  match s with
  | EmptyString => false
  | String c s' => p c || string_exists p s'
  end.

Definition is_upper (c : ascii) : bool := (65 <=? code c) && (code c <=? 90).

(** The text has an upper-case ASCII letter. *)
Definition has_upper (s : string) : bool := string_exists is_upper s.

(** [b] is the entry [a] of a registry with a weight written into it: the
    same name and, the weight apart, the same fields. *)
Definition weighted_from (a b : string * StationInfo) : Prop :=
  fst b = fst a /\ exists q, snd b = with_weight (snd a) q.

(** A raw table as [concat_meteo_items] handles it after the choice of
    columns: with timestamps, and with as many cells in a row as columns. *)
Definition projected (df : RawFrame) : Prop :=
  has_timestamp df = true /\
  Forall (fun r => List.length (snd r) = List.length (raw_columns df)) (raw_rows df).

(** The name that [concat_stations_horizontal] gives to the column [c] of
    the station [sid]. *)
Definition merged_name (sid c : string) : string := (c ++ "_" ++ sid)%string.

(** The stations that [concat_stations_horizontal] does not skip. *)
Definition taking_part (exclude_keys : list string) (kv : string * DataFrame) : bool :=
  negb (mem_string (fst kv) exclude_keys || df_empty (snd kv)).

(** Some row of the table has a value under the column [v]. *)
Definition has_value (df : DataFrame) (v : string) : bool :=
  existsb (fun row => match lookup_cell (columns df) row v with
                      | Some _ => true
                      | None => false
                      end) (data df).

(** A mapping of variables that leaves the timestamp column alone and
    gives distinct new names to distinct columns. *)
Definition plain_mapping (vars : list (string * string)) : Prop :=
  NoDup (map fst vars) /\ NoDup (map snd vars) /\
  ~ In "reference_timestamp" (map fst vars) /\
  ~ In "reference_timestamp" (map snd vars).







(* ================================================================== *)
(** ** Inputs used in the examples *)
(* ================================================================== *)

(** Two stations of one canton, neither with a population of its own. *)
Definition two_without_population : Registry :=
  [ ("North", mkStation "NOR" "XX" None None (Some 5) None);
    ("South", mkStation "SOU" "XX" None None (Some 5) None) ].

(** A catalogue that knows no station, and a disk that accepts the file. *)
Definition silent_world : World :=
  mkWorld (fun _ => Ok []) (fun _ => Raise HTTPError) (fun _ => Ok tt).

(** The configuration built by [config()] without arguments: no frequency,
    the flag off, the timestamps of 2016-01-01 and 2024-12-31. *)
Definition config_init : config :=
  mkConfig None (PyBool false) false (DateStamp 1451606400) (DateStamp 1735603200)
           [("save directory", "./data/swissmeteo.parquet.gz")].

(** Registries that the specification calls invalid. *)
Definition zero_region_total : Registry :=
  [ ("North", mkStation "NOR" "XX" None None (Some 0) None);
    ("South", mkStation "SOU" "YY" None None (Some 5) None) ].



(** A stand-in for the part of pandas that is left open, for inputs that
    do not reach it. *)
Definition no_pandas : Pandas :=
  mkPandas (fun _ _ _ => Raise TypeError) (fun _ => Raise TypeError).

(** A file name with a year range and without ["historical_"]. *)
Definition recent_with_years : string := "ogd-smn_abo_h_recent_2020-2025.csv".

(** A file whose two rows carry the two timestamp formats, a file with a
    row that is no timestamp, and a world that serves them. *)
Definition mixed_formats : RawFrame :=
  mkRaw true ["tre200h0"]
    [ (Some "01.03.2020 14:00", [Some 1%Q]);
      (Some "2020-03-01T15:00:00", [Some 2%Q]) ].

Definition one_bad_row : RawFrame :=
  mkRaw true ["tre200h0"]
    [ (Some "2020-03-01T14:00:00", [Some 1%Q]);
      (Some "yesterday", [Some 2%Q]) ].

Definition files_world : World :=
  mkWorld (fun _ => Ok [])
          (fun url => if String.eqb url "mixed" then Ok mixed_formats
                      else if String.eqb url "bad" then Ok one_bad_row
                      else Raise HTTPError)
          (fun _ => Ok tt).

(** Two files of one station, served in the order of the catalogue: the
    later period first. *)
Definition late_file : RawFrame :=
  mkRaw true ["tre200h0"] [ (Some "2020-03-01T15:00:00", [Some 2%Q]) ].

Definition early_file : RawFrame :=
  mkRaw true ["tre200h0"] [ (Some "2020-03-01T14:00:00", [Some 1%Q]) ].

Definition two_files_world : World :=
  mkWorld (fun _ => Ok [])
          (fun url => if String.eqb url "late" then Ok late_file
                      else if String.eqb url "early" then Ok early_file
                      else Raise HTTPError)
          (fun _ => Ok tt).


(** Station A has a value at 14:00 only and station B at 15:00 only, and
    A's value of humidity at 14:00 is missing. *)
Definition station_a : DataFrame :=
  mkFrame (DatetimeIndex [1583071200]) ["air_temperature"; "humidity"]
          [[Some 10%Q; None]].

Definition station_b : DataFrame :=
  mkFrame (DatetimeIndex [1583074800]) ["air_temperature"] [[Some 20%Q]].

(** The example of the specification: station A with weight 0.6 and values
    at 14:00 and 15:00, station B with weight 0.4 and values at 15:00 and
    16:00. *)
Definition example_stations : list (Q * DataFrame) :=
  [ (6 # 10, mkFrame (DatetimeIndex [1583071200; 1583074800]) ["temp"]
                     [[Some 10%Q]; [Some 20%Q]]);
    (4 # 10, mkFrame (DatetimeIndex [1583074800; 1583078400]) ["temp"]
                     [[Some 30%Q]; [Some 40%Q]]) ].

(** A catalogue with the files of one station, in the order it lists
    them, and a world that serves it for every query. *)
Definition station_catalogue : list (string * string) :=
  [ ("ogd-smn_abo_h_historical_2020-2029.csv", "late");
    ("ogd-smn_abo_h_historical_2010-2019.csv", "early");
    ("ogd-smn_abo_h_recent.csv", "recent");
    ("ogd-smn_abo_d_historical_2020-2029.csv", "daily") ].

Definition catalogue_world : World :=
  mkWorld (fun _ => Ok [station_catalogue]) (fetch two_files_world) (fun _ => Ok tt).

(** A configuration as [config(freq="h", global_meteo=True)] builds it. *)
Definition hourly_config : config :=
  mkConfig (Some "h") (PyBool true) false (DateStamp 1451606400)
           (DateStamp 1735603200)
           [("save directory", "./data/swissmeteo.parquet.gz")].

(** A catalogue that fails for the station SOU and knows no other one. *)
Definition flaky_world : World :=
  mkWorld (fun q => if String.eqb q "sou" then Raise HTTPError else Ok [])
          (fun _ => Raise HTTPError) (fun _ => Ok tt).

(** Three stations in two cantons; no commune population is given. *)
Definition three_stations : Registry :=
  two_without_population
  ++ [("East", mkStation "EAS" "ZZ" None None (Some 5) None)].


(** The registry of the module once [compute_station_weights] has run. *)
Definition weighted_stations : Registry :=
  match compute_station_weights station_to_canton with
  | Ok stations => stations
  | Raise _ => []
  end.

Definition no_station : string * StationInfo :=
  ("", mkStation "" "" None None None None).

(** A file with a column that the mapping of variables does not know, and
    a world that serves it under every address. *)
Definition wide_file : RawFrame :=
  mkRaw true ["tre200h0"; "xyz"; "prestah0"]
    [ (Some "2020-03-01T14:00:00", [Some 1%Q; Some 7%Q; Some 950%Q]);
      (Some "2020-03-01T15:00:00", [Some 2%Q; Some 8%Q; None]) ].

Definition wide_world : World :=
  mkWorld (fun _ => Ok []) (fun _ => Ok wide_file) (fun _ => Ok tt).

(** The series of three stations: two with values, that overlap at
    15:00, and one without any row. *)
Definition station_tables : list (string * DataFrame) :=
  [ ("ABO", mkFrame (DatetimeIndex [1583071200; 1583074800]) ["air_temperature"]
                    [[Some 1%Q]; [Some 2%Q]]);
    ("EMP", empty_frame);
    ("BER", mkFrame (DatetimeIndex [1583074800; 1583078400]) ["air_temperature"]
                    [[Some 3%Q]; [Some 4%Q]]) ].

(** A table with a column that holds no value at all. *)
Definition with_silent_column : DataFrame :=
  mkFrame (DatetimeIndex [1583071200; 1583074800])
          ["air_temperature_ABO"; "humidity_ABO"; "air_temperature_BER"]
          [[Some 1%Q; None; None]; [None; None; Some 3%Q]].

(** A file stamped in the day-first format, and a world that serves a
    file stamped in the ISO format under [iso], this one under [dayfirst],
    and nothing else. *)
Definition dayfirst_file : RawFrame :=
  mkRaw true ["tre200h0"] [ (Some "01.03.2020 14:00", [Some 1%Q]) ].

Definition two_formats_world : World :=
  mkWorld (fun _ => Ok [])
          (fun url => if String.eqb url "iso" then Ok late_file
                      else if String.eqb url "dayfirst" then Ok dayfirst_file
                      else Raise HTTPError)
          (fun _ => Ok tt).

(* ================================================================== *)
(** * Properties *)
(* ================================================================== *)

(* ------------------------------------------------------------------ *)
(** ** config.set_global_meteo *)
(* ------------------------------------------------------------------ *)




(* ------------------------------------------------------------------ *)
(** ** compute_station_weights *)
(* ------------------------------------------------------------------ *)

Lemma rbind_raise_inv {A B : Type} (r : result A) (k : A -> result B) (e : exn) :
  rbind r k = Raise e ->
  r = Raise e \/ exists a, r = Ok a /\ k a = Raise e.
Proof. destruct r as [a | e']; simpl; intros H; [right; eauto | left; congruence]. Qed.








(** A station that opens a new canton without ['canton_pop'] stops the
    first loop with [KeyError]. *)
Lemma canton_totals_missing (pre post : Registry) (name : string)
    (info : StationInfo) (acc : list (string * Z) * Z) :
  canton_pop info = None ->
  (forall item, In item pre ->
     canton (snd item) <> canton info /\ canton_pop (snd item) <> None) ->
  dict_has (canton info) (fst acc) = false ->
  rfold canton_totals_step (pre ++ (name, info) :: post) acc = Raise KeyError.
Proof.
  intros Hnone. revert acc.
  induction pre as [ | item pre IH]; intros acc Hpre Hacc; simpl.
  - destruct acc as [cantons tt]; simpl in *. rewrite Hacc, Hnone. reflexivity.
  - destruct acc as [cantons tt]; simpl in *.
    destruct (Hpre item (or_introl eq_refl)) as [Hc Hp].
    destruct (negb (dict_has (canton (snd item)) cantons)).
    + destruct (canton_pop (snd item)) as [pop | ]; [ | congruence]. simpl.
      apply IH; [intros; apply Hpre; now right | ]. simpl.
      unfold dict_has in *.
      assert (G : forall d : list (string * Z),
                 dict_get (canton info) (dict_set (canton (snd item)) pop d)
                 = dict_get (canton info) d).
      { induction d as [ | [k v] d IHd]; simpl.
        - destruct (String.eqb_spec (canton (snd item)) (canton info)); congruence.
        - destruct (String.eqb_spec k (canton (snd item))) as [-> | Hk]; simpl.
          + destruct (String.eqb_spec (canton (snd item)) (canton info)); congruence.
          + now rewrite IHd. }
      now rewrite G.
    + simpl. apply IH; [intros; apply Hpre; now right | exact Hacc].
Qed.

Lemma compute_station_weights_missing (pre post : Registry) (name : string)
    (info : StationInfo) :
  canton_pop info = None ->
  (forall item, In item pre ->
     canton (snd item) <> canton info /\ canton_pop (snd item) <> None) ->
  compute_station_weights (pre ++ (name, info) :: post) = Raise KeyError.
Proof.
  intros Hnone Hpre. unfold compute_station_weights, canton_totals.
  now rewrite (canton_totals_missing pre post name info ([], 0) Hnone Hpre eq_refl).
Qed.

Lemma canton_totals_nonempty (reg : Registry) (acc acc' : list (string * Z) * Z) :
  rfold canton_totals_step reg acc = Ok acc' ->
  (fst acc <> [] \/ reg <> []) -> fst acc' <> [].
Proof.
  revert acc. induction reg as [ | item reg IH]; intros acc; simpl.
  - intros [= <-] [H | H]; [exact H | congruence].
  - destruct acc as [cantons tt]. unfold canton_totals_step at 1.
    destruct (negb (dict_has (canton (snd item)) cantons)) eqn:Hhas.
    + destruct (canton_pop (snd item)) as [pop | ]; simpl; [ | discriminate].
      intros H _. apply (IH _ H). left. simpl.
      destruct cantons as [ | [k v] d]; simpl; [discriminate | ].
      destruct (String.eqb k (canton (snd item))); discriminate.
    + simpl. intros H _. apply (IH _ H). left. simpl.
      unfold dict_has in Hhas. destruct cantons; [discriminate | discriminate].
Qed.

(** A national total of zero stops the second loop with
    [ZeroDivisionError] as soon as there is a station. *)
Lemma compute_station_weights_zero_total (reg : Registry) (cantons : list (string * Z)) :
  reg <> [] -> canton_totals reg = Ok (cantons, 0) ->
  compute_station_weights reg = Raise ZeroDivisionError.
Proof.
  intros Hreg Htot. unfold compute_station_weights. rewrite Htot. simpl.
  assert (Hc : cantons <> []).
  { apply (canton_totals_nonempty reg ([], 0) _ Htot). now right. }
  destruct cantons as [ | [c pop] rest]; [congruence | ]. reflexivity.
Qed.

Lemma qsum_ext {A : Type} (f g : A -> Q) (l : list A) :
  (forall x, In x l -> (f x == g x)%Q) -> (qsum f l == qsum g l)%Q.
Proof.
  induction l as [ | x l IH]; intros H; simpl; [reflexivity | ].
  rewrite (H x (or_introl eq_refl)), IH; [reflexivity | ].
  intros y Hy. apply H. now right.
Qed.

Lemma qsum_plus {A : Type} (f g : A -> Q) (l : list A) :
  (qsum (fun x => f x + g x) l == qsum f l + qsum g l)%Q.
Proof. induction l as [ | x l IH]; simpl; [ring | rewrite IH; ring]. Qed.

Lemma qsum_scale {A : Type} (f : A -> Q) (k : Q) (l : list A) :
  (qsum (fun x => f x * k) l == qsum f l * k)%Q.
Proof. induction l as [ | x l IH]; simpl; [ring | rewrite IH; ring]. Qed.

Lemma qsum_inject {A : Type} (f : A -> Z) (l : list A) :
  (qsum (fun x => inject_Z (f x)) l == inject_Z (zsum f l))%Q.
Proof.
  induction l as [ | x l IH]; simpl; [reflexivity | ].
  rewrite IH, inject_Z_plus. reflexivity.
Qed.

Lemma qsum_indicator (keys : list string) (k : string) (x : Q) :
  NoDup keys -> In k keys ->
  (qsum (fun c => if String.eqb c k then x else 0) keys == x)%Q.
Proof.
  induction keys as [ | c keys IH]; intros Hn Hin; [destruct Hin | ].
  inversion Hn as [ | ? ? Hnotin Hn']; subst. simpl.
  destruct (String.eqb_spec c k) as [-> | Hne].
  - rewrite (qsum_ext (fun c => if String.eqb c k then x else 0%Q) (fun _ => 0%Q)).
    + assert (H0 : forall l : list string, (qsum (fun _ => 0%Q) l == 0)%Q).
      { induction l; simpl; [reflexivity | ]. rewrite IHl. ring. }
      rewrite H0. ring.
    + intros y Hy. destruct (String.eqb_spec y k) as [-> | _]; [contradiction | reflexivity].
  - destruct Hin as [-> | Hin]; [congruence | ]. rewrite (IH Hn' Hin). ring.
Qed.

(** A sum over the stations, canton by canton. *)
Lemma qsum_by_canton (f : string * StationInfo -> Q) (keys : list string)
    (reg : Registry) :
  NoDup keys ->
  (forall item, In item reg -> In (canton (snd item)) keys) ->
  (qsum f reg == qsum (fun c => qsum f (stations_of c reg)) keys)%Q.
Proof.
  intros Hn. induction reg as [ | item rest IH]; intros Hcov.
  - clear Hn Hcov. induction keys as [ | c keys IHk]; [reflexivity | ].
    cbn [qsum] in *. unfold stations_of at 1. cbn [filter qsum].
    rewrite <- IHk. ring.
  - simpl qsum at 1.
    rewrite (qsum_ext (fun c => qsum f (stations_of c (item :: rest)))
               (fun c => (if String.eqb c (canton (snd item)) then f item else 0%Q)
                         + qsum f (stations_of c rest))%Q).
    + rewrite qsum_plus, qsum_indicator; [ | exact Hn | apply Hcov; now left].
      rewrite <- IH; [reflexivity | ]. intros y Hy. apply Hcov. now right.
    + intros c _. unfold stations_of, in_canton. simpl.
      destruct (String.eqb c (canton (snd item))); simpl; ring.
Qed.


Lemma dict_set_absent {V : Type} (k : string) (v : V) (d : list (string * V)) :
  dict_get k d = None -> dict_set k v d = d ++ [(k, v)].
Proof.
  induction d as [ | [k0 v0] d IH]; simpl; [reflexivity | ].
  destruct (String.eqb k0 k); [discriminate | ]. intros H. now rewrite (IH H).
Qed.

Lemma dict_get_in {V : Type} (k : string) (d : list (string * V)) :
  dict_get k d <> None <-> In k (map fst d).
Proof.
  induction d as [ | [k0 v0] d IH]; simpl; [tauto | ].
  destruct (String.eqb_spec k0 k) as [-> | Hne].
  - split; [now left | discriminate].
  - rewrite IH. split; [now right | intros [H | H]; [congruence | exact H]].
Qed.

(** The first loop, on a registry where every station has a positive
    parent-region total: the cantons are entered once each, in the order of
    their first station, and [tt_ch_pop] is the sum of their totals. *)
Lemma canton_totals_spec (reg : Registry) :
  (forall item, In item reg -> exists p, canton_pop (snd item) = Some p /\ 0 < p) ->
  forall cantons tt,
  exists cantons' tt',
    rfold canton_totals_step reg (cantons, tt) = Ok (cantons', tt') /\
    tt' - zsum snd cantons' = tt - zsum snd cantons /\
    (forall c, In c (map fst cantons') <->
               In c (map fst cantons) \/ exists item, In item reg /\ canton (snd item) = c) /\
    (NoDup (map fst cantons) -> NoDup (map fst cantons')) /\
    (Forall (fun kv => 0 < snd kv) cantons -> Forall (fun kv => 0 < snd kv) cantons').
Proof.
  induction reg as [ | item rest IH]; intros Hpos cantons tt.
  - exists cantons, tt. simpl. repeat split; try tauto.
    intros [H | [item [[] _]]]. exact H.
  - destruct (Hpos item (or_introl eq_refl)) as [p [Hp Hp0]].
    assert (Hrest : forall it, In it rest ->
                      exists q, canton_pop (snd it) = Some q /\ 0 < q)
      by (intros; apply Hpos; now right).
    cbn [rfold]. unfold canton_totals_step at 1. unfold dict_has.
    destruct (dict_get (canton (snd item)) cantons) as [old | ] eqn:Hget; cbn [negb].
    + cbn [rbind]. destruct (IH Hrest cantons tt) as [c' [t' [Hrun [Hsum [Hkeys [Hnd Hps]]]]]].
      exists c', t'. repeat split; try assumption.
      * intros H. apply Hkeys in H. destruct H as [H | [it [Hit Hc]]];
          [now left | right; exists it; split; [now right | exact Hc]].
      * intros [H | [it [[<- | Hit] Hc]]]; apply Hkeys.
        -- now left.
        -- left. subst c. apply dict_get_in. congruence.
        -- right. now exists it.
    + rewrite Hp. cbn [field rbind]. rewrite (dict_set_absent _ _ _ Hget).
      destruct (IH Hrest (cantons ++ [(canton (snd item), p)]) (tt + p))
        as [c' [t' [Hrun [Hsum [Hkeys [Hnd Hps]]]]]].
      exists c', t'. split; [exact Hrun | ].
      assert (Hz : zsum snd (cantons ++ [(canton (snd item), p)]) = zsum snd cantons + p).
      { clear. induction cantons as [ | kv l IHl]; simpl; [lia | rewrite IHl; lia]. }
      split; [lia | ].
      split; [ | split].
      * intros c. rewrite Hkeys, map_app, in_app_iff. simpl. split.
        -- intros [[H | [<- | []]] | [it [Hit Hc]]].
           ++ now left.
           ++ right. exists item. split; [now left | reflexivity].
           ++ right. exists it. split; [now right | exact Hc].
        -- intros [H | [it [[<- | Hit] Hc]]].
           ++ left. now left.
           ++ left. right. left. exact Hc.
           ++ right. now exists it.
      * intros Hn. apply Hnd. rewrite map_app. simpl.
        apply NoDup_app; [exact Hn | repeat constructor; intros [] | ].
        intros k Hk [<- | []]. apply dict_get_in in Hk. congruence.
      * intros Hf. apply Hps. apply Forall_app. split; [exact Hf | ].
        constructor; [exact Hp0 | constructor].
Qed.

Lemma inject_Z_nonzero (z : Z) : z <> 0 -> Qeq_bool (inject_Z z) 0 = false.
Proof.
  intros Hz. destruct (Qeq_bool (inject_Z z) 0) eqn:E; [ | reflexivity].
  apply Qeq_bool_iff in E. unfold Qeq in E. simpl in E. lia.
Qed.

(** The second loop, when the national total is not zero. *)
Lemma normalize_cantons_ok (cantons : list (string * Z)) (tt : Z) :
  tt <> 0 ->
  normalize_cantons cantons tt
  = Ok (map (fun kv => (fst kv, (inject_Z (snd kv) / inject_Z tt)%Q)) cantons).
Proof.
  intros Htt. induction cantons as [ | [c pop] rest IH]; simpl; [reflexivity | ].
  unfold py_div. rewrite (inject_Z_nonzero tt Htt). simpl. now rewrite IH.
Qed.

(** The populations reported in a canton, summed by the inner loop. *)
Lemma canton_tt_pop_sum (c : string) (reg : Registry) :
  canton_tt_pop c reg = zsum reported (stations_of c reg).
Proof.
  induction reg as [ | [name info] rest IH]; [reflexivity | ].
  cbn [canton_tt_pop]. unfold stations_of. cbn [filter].
  unfold in_canton at 1. cbn [snd]. fold (stations_of c rest).
  destruct (String.eqb c (canton info)).
  - cbn [zsum]. unfold reported at 1. cbn [snd].
    destruct (population info); rewrite IH; reflexivity.
  - destruct (population info); exact IH.
Qed.

Lemma local_weight_ok (reg : Registry) (item : string * StationInfo) :
  In item reg ->
  reports_everywhere reg (canton (snd item)) \/
  single_without_population reg (canton (snd item)) ->
  local_weight reg (snd item) = Ok (local_share reg item).
Proof.
  unfold local_weight, local_share, reported.
  intros Hin [[Htt Hall] | [Htt _]].
  - destruct (Z.eqb_spec (canton_tt_pop (canton (snd item)) reg) 0) as [E | _];
      [contradiction | ].
    specialize (Hall item Hin eq_refl).
    destruct (population (snd item)) as [p | ]; [ | congruence].
    cbn [field rbind]. unfold py_div. now rewrite (inject_Z_nonzero _ Htt).
  - rewrite Htt. reflexivity.
Qed.

Lemma stations_of_canton (c : string) (reg : Registry) (item : string * StationInfo) :
  In item (stations_of c reg) <-> In item reg /\ canton (snd item) = c.
Proof.
  unfold stations_of, in_canton. rewrite filter_In.
  destruct (String.eqb_spec c (canton (snd item))); intuition congruence.
Qed.

(** Inside a canton the shares sum to 1, when every station of the canton
    reports a population or the canton has a single station. *)
Lemma local_share_sum (reg : Registry) (c : string) :
  reports_everywhere reg c \/ single_without_population reg c ->
  (qsum (local_share reg) (stations_of c reg) == 1)%Q.
Proof.
  intros Hok.
  assert (Hshare : forall item, In item (stations_of c reg) ->
             local_share reg item
             = if canton_tt_pop c reg =? 0 then 1%Q
               else (inject_Z (reported item) / inject_Z (canton_tt_pop c reg))%Q).
  { intros item Hitem. apply stations_of_canton in Hitem. destruct Hitem as [_ <-].
    reflexivity. }
  destruct Hok as [[Htt _] | [Htt Hone]].
  - rewrite (qsum_ext (local_share reg)
               (fun item => inject_Z (reported item) * / inject_Z (canton_tt_pop c reg))%Q).
    + rewrite qsum_scale, qsum_inject, <- canton_tt_pop_sum.
      apply Qmult_inv_r. intros E. unfold Qeq in E. simpl in E. lia.
    + intros item Hitem. rewrite (Hshare item Hitem).
      destruct (Z.eqb_spec (canton_tt_pop c reg) 0); [contradiction | reflexivity].
  - destruct (stations_of c reg) as [ | item [ | ? ?]] eqn:E; try discriminate.
    simpl. rewrite (Hshare item (or_introl eq_refl)), Htt. simpl. ring.
Qed.

Lemma total_weight_assigned (all : Registry) (cantons : list (string * Q))
    (todo : Registry) :
  (forall item, In item todo ->
     local_weight all (snd item) = Ok (local_share all item) /\
     dict_get (canton (snd item)) cantons <> None) ->
  exists reg',
    assign_weights all cantons todo = Ok reg' /\
    (total_weight reg'
     == qsum (fun item => local_share all item
                          * canton_share cantons (canton (snd item))) todo)%Q.
Proof.
  induction todo as [ | [name info] rest IH]; intros H.
  - exists []. split; reflexivity.
  - destruct (H (name, info) (or_introl eq_refl)) as [Hlw Hcw]. cbn [snd] in *.
    destruct IH as [rest' [Hrest Hsum]]; [intros; apply H; now right | ].
    cbn [assign_weights]. rewrite Hlw. cbn [rbind].
    unfold dict_item, canton_share in *.
    destruct (dict_get (canton info) cantons) as [cw | ] eqn:Hget; [ | congruence].
    cbn [rbind]. rewrite Hrest. cbn [rbind].
    eexists. split; [reflexivity | ].
    cbn [total_weight qsum snd station_weight with_weight weight].
    rewrite Hsum, Hget. reflexivity.
Qed.

Lemma qsum_map {A B : Type} (f : B -> Q) (g : A -> B) (l : list A) :
  qsum f (map g l) = qsum (fun x => f (g x)) l.
Proof. induction l as [ | x l IH]; simpl; [reflexivity | now rewrite IH]. Qed.

Lemma dict_get_map_nodup (g : Z -> Q) (d : list (string * Z)) (k : string) (v : Z) :
  NoDup (map fst d) -> In (k, v) d ->
  dict_get k (map (fun kv => (fst kv, g (snd kv))) d) = Some (g v).
Proof.
  induction d as [ | [k0 v0] d IH]; simpl; intros Hn Hin; [destruct Hin | ].
  inversion Hn as [ | ? ? Hnotin Hn']; subst.
  destruct Hin as [[= -> ->] | Hin].
  - now rewrite String.eqb_refl.
  - destruct (String.eqb_spec k0 k) as [-> | _]; [ | now apply IH].
    exfalso. apply Hnotin. apply in_map_iff. now exists (k, v).
Qed.

(** The weights of the cantons sum to 1. *)
Lemma canton_share_sum (cantons : list (string * Z)) (tt : Z) :
  NoDup (map fst cantons) -> tt = zsum snd cantons -> tt <> 0 ->
  (qsum (canton_share (map (fun kv => (fst kv, (inject_Z (snd kv) / inject_Z tt)%Q))
                           cantons))
        (map fst cantons) == 1)%Q.
Proof.
  intros Hn Htt H0. rewrite qsum_map.
  rewrite (qsum_ext _ (fun kv => inject_Z (snd kv) * / inject_Z tt)%Q).
  - rewrite qsum_scale, qsum_inject, <- Htt.
    apply Qmult_inv_r. intros E. unfold Qeq in E. simpl in E. lia.
  - intros [k v] Hkv. unfold canton_share. cbn [fst snd].
    rewrite (dict_get_map_nodup (fun z => (inject_Z z / inject_Z tt)%Q) cantons k v Hn Hkv).
    reflexivity.
Qed.

(** The weights sum to 1 on every registry in which each station has a
    positive parent-region total and each canton either has a population
    for every one of its stations or has a single station and no
    population. *)
Lemma weights_sum_to_one (reg : Registry) :
  reg <> [] ->
  (forall item, In item reg -> exists p, canton_pop (snd item) = Some p /\ 0 < p) ->
  (forall item, In item reg ->
     reports_everywhere reg (canton (snd item)) \/
     single_without_population reg (canton (snd item))) ->
  exists reg', compute_station_weights reg = Ok reg' /\ (total_weight reg' == 1)%Q.
Proof.
  intros Hne Hpos Hok. unfold compute_station_weights, canton_totals.
  destruct (canton_totals_spec reg Hpos [] 0)
    as [cantons [tt [Hrun [Hsum [Hkeys [Hnd Hps]]]]]].
  rewrite Hrun. cbn [rbind]. simpl in Hsum.
  specialize (Hnd (NoDup_nil _)). specialize (Hps (Forall_nil _)).
  assert (Htt : tt = zsum snd cantons) by lia.
  assert (Hcov : forall item, In item reg -> In (canton (snd item)) (map fst cantons)).
  { intros item Hitem. apply Hkeys. right. now exists item. }
  assert (Htt0 : 0 < tt).
  { destruct reg as [ | item rest]; [congruence | ].
    specialize (Hcov item (or_introl eq_refl)).
    rewrite Htt. clear - Hps Hcov.
    assert (G : forall l : list (string * Z),
               Forall (fun kv => 0 < snd kv) l -> l <> [] -> 0 < zsum snd l).
    { induction l as [ | kv l IHl]; intros Hf Hl; [congruence | ].
      inversion Hf; subst. simpl. destruct l as [ | kv' l'].
      - simpl. lia.
      - assert (0 < zsum snd (kv' :: l')) by (apply IHl; [assumption | discriminate]).
        lia. }
    apply G; [exact Hps | ]. intros ->. destruct Hcov. }
  rewrite (normalize_cantons_ok cantons tt) by lia. cbn [rbind].
  set (shares := map (fun kv => (fst kv, (inject_Z (snd kv) / inject_Z tt)%Q)) cantons).
  destruct (total_weight_assigned reg shares reg) as [reg' [Hreg' Htotal]].
  { intros item Hitem. split; [apply local_weight_ok; auto | ].
    apply dict_get_in. unfold shares. rewrite map_map. cbn [fst].
    exact (Hcov item Hitem). }
  exists reg'. split; [exact Hreg' | ].
  rewrite Htotal.
  rewrite (qsum_by_canton _ (map fst cantons) reg Hnd Hcov).
  rewrite (qsum_ext _ (canton_share shares)).
  - unfold shares. apply canton_share_sum; [exact Hnd | exact Htt | lia].
  - intros c Hc.
    rewrite (qsum_ext _ (fun item => local_share reg item * canton_share shares c)%Q).
    + rewrite qsum_scale, local_share_sum; [ring | ].
      apply Hkeys in Hc. destruct Hc as [[] | [item [Hitem <-]]]. now apply Hok.
    + intros item Hitem. apply stations_of_canton in Hitem.
      destruct Hitem as [_ ->]. reflexivity.
Qed.

(** Case analysis on a station of a registry given by extension. *)
Ltac each_station H tac :=
  simpl in H;
  repeat (destruct H as [<- | H]; [tac | ]);
  try (destruct H).

(** On the registry of the module every canton without population data
    has a single station and every other canton has a population for each
    of its stations: the weights sum to 1. *)
Lemma station_to_canton_weights_sum :
  exists reg, compute_station_weights station_to_canton = Ok reg /\
              (total_weight reg == 1)%Q.
Proof.
  apply weights_sum_to_one.
  - discriminate.
  - intros item Hin.
    each_station Hin ltac:(eexists; split; [reflexivity | reflexivity]).
  - intros item Hin.
    each_station Hin ltac:(
      first [ right; split; reflexivity
            | left; split; [vm_compute; discriminate | ];
              let other := fresh "other" in
              let Ho := fresh "Ho" in
              let Hc := fresh "Hc" in
              intros other Ho Hc;
              each_station Ho ltac:(first [discriminate Hc | discriminate]) ]).
Qed.

(** Without population data in the canton the local weight is 1, however
    many stations the canton has. *)
Lemma local_weight_without_population (reg : Registry) (info : StationInfo) :
  canton_tt_pop (canton info) reg = 0 -> local_weight reg info = Ok 1%Q.
Proof. intros H. unfold local_weight. now rewrite H. Qed.

(** C2. The registry [two_without_population] is valid in the sense of the
    claim; the weights computed for it sum to 2, further than 1e-9 from 1. *)
Theorem weights_sum_two_without_population :
  valid_registry two_without_population = true /\
  exists reg, compute_station_weights two_without_population = Ok reg /\
              (total_weight reg == 2)%Q /\
              ~ (Qabs (total_weight reg - 1) <= 1 # 1000000000)%Q.
Proof.
  split; [reflexivity | ].
  eexists. split; [vm_compute; reflexivity | ].
  split; [vm_compute; reflexivity | ].
  vm_compute. intros H. apply H. reflexivity.
Qed.

(** C3. In [two_without_population] no station of canton XX reports a
    population and the canton has two stations; each of them receives the
    local weight 1, not 1/2, so each final weight is the weight of the
    canton, and together they are twice that weight. *)
Theorem equal_split_two_without_population :
  canton_tt_pop "XX" two_without_population = 0 /\
  List.length (stations_of "XX" two_without_population) = 2%nat /\
  Forall (fun item => local_weight two_without_population (snd item) = Ok 1%Q)
         two_without_population /\
  exists cantons tt cw reg,
    canton_totals two_without_population = Ok (cantons, tt) /\
    normalize_cantons cantons tt = Ok [("XX", cw)] /\
    compute_station_weights two_without_population = Ok reg /\
    Forall (fun item => (station_weight (snd item) == cw)%Q) reg /\
    (total_weight reg == 2 * cw)%Q /\
    ~ (total_weight reg == cw)%Q.
Proof.
  split; [reflexivity | ]. split; [reflexivity | ].
  split; [repeat constructor | ].
  do 4 eexists.
  split; [vm_compute; reflexivity | ].
  split; [vm_compute; reflexivity | ].
  split; [vm_compute; reflexivity | ].
  split; [repeat constructor | ].
  split; [vm_compute; reflexivity | ].
  vm_compute. discriminate.
Qed.

(* ------------------------------------------------------------------ *)
(** ** load_meteo_file *)
(* ------------------------------------------------------------------ *)










(** A canton whose total is zero is not refused either when the national
    total is not zero: its stations get the weight 0. *)
Lemma zero_region_total_accepted :
  exists reg, compute_station_weights zero_region_total = Ok reg /\
              Forall2 (fun item w => (station_weight (snd item) == w)%Q)
                      reg [0%Q; 1%Q].
Proof. eexists. split; [vm_compute; reflexivity | repeat constructor]. Qed.

(** With the flag off the body of the loop leaves [meteo_global] as it
    is. *)
Lemma load_station_flag_off (P : Pandas) (w : World) (cfg : config)
    (meteo meteo_global : list (string * DataFrame))
    (item : string * StationInfo) (log : list Request) :
  truthy (global_meteo cfg) = false ->
  load_station P w cfg (meteo, meteo_global) item log =
  match download_meteo_file P w (station_id (snd item)) (start_date cfg)
          (end_date cfg) (freq cfg) log with
  | (Ok df, log1) => (Ok (dict_set (station_id (snd item)) df meteo, meteo_global), log1)
  | (Raise e, log1) => (Raise e, log1)
  end.
Proof.
  intros Hoff. unfold load_station, nbind. rewrite Hoff.
  destruct (download_meteo_file P w (station_id (snd item)) (start_date cfg)
              (end_date cfg) (freq cfg) log) as [[df | e] log1]; reflexivity.
Qed.

Lemma load_stations_flag_off (P : Pandas) (w : World) (cfg : config)
    (stations : Registry) :
  truthy (global_meteo cfg) = false ->
  forall meteo log meteo' meteo_global log',
    nfold (load_station P w cfg) stations (meteo, []) log
      = (Ok (meteo', meteo_global), log') ->
    meteo_global = [].
Proof.
  intros Hoff. induction stations as [ | item rest IH]; intros meteo log m' mg' log'.
  - cbn [nfold]. unfold nret. congruence.
  - cbn [nfold]. unfold nbind. rewrite (load_station_flag_off P w cfg _ _ _ _ Hoff).
    destruct (download_meteo_file P w (station_id (snd item)) (start_date cfg)
                (end_date cfg) (freq cfg) log) as [[df | e] log1].
    + apply IH.
    + discriminate.
Qed.

(** C1. With the flag off [load_meteo_file] never returns a table: whatever
    the registry and whatever the network answers, it raises.  When the
    weights are computed and every station is downloaded, the exception is
    the [ValueError] of [pd.concat] called on no object (line 247). *)
Theorem load_meteo_file_flag_off_raises (P : Pandas) (w : World) (reg : Registry)
    (cfg : config) (log : list Request) :
  truthy (global_meteo cfg) = false ->
  (exists e log', load_meteo_file P w reg cfg log = (Raise e, log')) /\
  (forall stations acc log',
     compute_station_weights reg = Ok stations ->
     nfold (load_station P w cfg) stations ([], []) log = (Ok acc, log') ->
     load_meteo_file P w reg cfg log = (Raise ValueError, log')).
Proof.
  intros Hoff. unfold load_meteo_file, nbind, nlift.
  destruct (compute_station_weights reg) as [stations | e].
  - destruct (nfold (load_station P w cfg) stations ([], []) log)
      as [[[meteo mg] | e] log1] eqn:Hloop.
    + pose proof (load_stations_flag_off P w cfg stations Hoff _ _ _ _ _ Hloop) as ->.
      split; [now exists ValueError, log1 | ].
      intros st acc log' [= <-]. rewrite Hloop. intros [= <- <-]. reflexivity.
    + split; [now exists e, log1 | ].
      intros st acc log' [= <-]. rewrite Hloop. discriminate.
  - split; [now exists e, log | discriminate].
Qed.

(** On the registry of the module, with the configuration of [config()]
    and a catalogue that knows no station, [load_meteo_file] asks the
    catalogue for each of the 22 stations and then raises [ValueError]. *)
Lemma load_meteo_file_flag_off_raises_witness :
  truthy (global_meteo config_init) = false /\
  exists log',
    load_meteo_file no_pandas silent_world station_to_canton config_init []
      = (Raise ValueError, log') /\ List.length log' = 22%nat.
Proof.
  split; [reflexivity | ].
  destruct (load_meteo_file_flag_off_raises no_pandas silent_world
              station_to_canton config_init [] eq_refl) as [_ H].
  eexists. split.
  - eapply H; vm_compute; reflexivity.
  - reflexivity.
Defined.

(* ------------------------------------------------------------------ *)
(** ** download_meteo_file: the selection of the files *)
(* ------------------------------------------------------------------ *)

(** [file_in_range] on a name that declares a year range when it contains
    ["historical_"]. *)
Lemma file_in_range_declared (sd ed : string) (ys ye : Z) (k : string) :
  year_prefix (DateStr sd) = Ok ys ->
  year_prefix (DateStr ed) = Ok ye ->
  (py_contains "historical_" k = true -> declares_year_range k <> None) ->
  file_in_range (DateStr sd) (DateStr ed) k
  = Ok (py_contains "historical_" k && overlaps ys ye k).
Proof.
  intros Hs He Hdecl. unfold file_in_range, overlaps.
  destruct (py_contains "historical_" k); [ | reflexivity].
  specialize (Hdecl eq_refl). unfold declares_year_range in *.
  destruct (py_split "-" (py_replace ".csv" "" (last (py_split "_" k) "")))
    as [ | a [ | b [ | c rest]]]; try congruence.
  destruct (py_int a) as [s | ]; [ | congruence].
  destruct (py_int b) as [e | ]; [ | congruence].
  cbn [rbind]. rewrite He. cbn [rbind].
  destruct (s <=? ye); [cbn [rbind]; rewrite Hs | ]; reflexivity.
Qed.

Lemma select_files_filter (assets : list (string * string)) (fr : option string)
    (sd ed : string) (ys ye : Z) :
  year_prefix (DateStr sd) = Ok ys ->
  year_prefix (DateStr ed) = Ok ye ->
  (forall kv, In kv assets -> relevant fr (fst kv) = true ->
              py_contains "historical_" (fst kv) = true ->
              declares_year_range (fst kv) <> None) ->
  select_files assets fr (DateStr sd) (DateStr ed) = Ok (filter (kept fr ys ye) assets).
Proof.
  intros Hs He. unfold select_files, relevant_files.
  induction assets as [ | kv rest IH]; intros Hdecl; [reflexivity | ].
  simpl. unfold kept at 1.
  assert (IH' := IH (fun kv' H => Hdecl kv' (or_intror H))).
  destruct (relevant fr (fst kv)) eqn:Hrel; simpl.
  - rewrite (file_in_range_declared sd ed ys ye (fst kv) Hs He
               (Hdecl kv (or_introl eq_refl) Hrel)).
    simpl. rewrite IH'. simpl. reflexivity.
  - exact IH'.
Qed.

(** The selection as the code makes it.  When the dates are text starting
    with a year and every candidate name with ["historical_"] declares a
    year range, the selection keeps an entry if and only if its key contains
    [_<freq>_], ends with [.csv], contains ["historical_"], and declares a
    range START-END with START <= end year and END >= start year; the
    order of the catalogue is kept.  For frequency [h] and the window
    2022-01-01..2022-12-31 the file [..._h_historical_2010-2019.csv] is
    left out and [..._h_historical_2020-2025.csv] is kept. *)
Theorem select_files_keeps_historical_in_range (assets : list (string * string))
    (fr : option string) (sd ed : string) (ys ye : Z) :
  year_prefix (DateStr sd) = Ok ys ->
  year_prefix (DateStr ed) = Ok ye ->
  (forall kv, In kv assets -> relevant fr (fst kv) = true ->
              py_contains "historical_" (fst kv) = true ->
              declares_year_range (fst kv) <> None) ->
  exists selected,
    select_files assets fr (DateStr sd) (DateStr ed) = Ok selected /\
    selected = filter (kept fr ys ye) assets /\
    (forall k v, In (k, v) selected <->
       In (k, v) assets /\
       py_contains ("_" ++ py_str fr ++ "_")%string k = true /\
       py_endswith k ".csv" = true /\
       py_contains "historical_" k = true /\
       exists s e, declares_year_range k = Some (s, e) /\ s <= ye /\ e >= ys) /\
    select_files [("ogd-smn_abo_h_historical_2010-2019.csv", "old");
                  ("ogd-smn_abo_h_historical_2020-2025.csv", "new")]
                 (Some "h") (DateStr "2022-01-01") (DateStr "2022-12-31")
    = Ok [("ogd-smn_abo_h_historical_2020-2025.csv", "new")].
Proof.
  intros Hs He Hdecl. eexists.
  split; [exact (select_files_filter assets fr sd ed ys ye Hs He Hdecl) | ].
  split; [reflexivity | ]. split; [ | reflexivity].
  intros k v. rewrite filter_In. unfold kept, relevant, overlaps. simpl.
  split.
  - intros [Hin H]. apply andb_true_iff in H. destruct H as [H Hov].
    apply andb_true_iff in H. destruct H as [H Hhist].
    apply andb_true_iff in H. destruct H as [Htok Hcsv].
    repeat split; try assumption.
    destruct (declares_year_range k) as [[s e] | ]; [ | discriminate].
    exists s, e. apply andb_true_iff in Hov. destruct Hov as [H1 H2].
    split; [reflexivity | lia].
  - intros [Hin [Htok [Hcsv [Hhist [s [e [Hd [H1 H2]]]]]]]].
    split; [assumption | ]. rewrite Htok, Hcsv, Hhist, Hd. simpl.
    apply andb_true_iff. split; lia.
Qed.

(** The selection on a catalogue with a recent file, a daily file and two
    hourly historical files. *)
Lemma select_files_keeps_historical_in_range_witness :
  exists selected,
    select_files [("ogd-smn_abo_h_recent.csv", "recent");
                  ("ogd-smn_abo_h_historical_2010-2019.csv", "old");
                  ("ogd-smn_abo_d_historical_2020-2029.csv", "daily");
                  ("ogd-smn_abo_h_historical_2020-2029.csv", "new")]
                 (Some "h") (DateStr "2022-01-01") (DateStr "2022-12-31")
      = Ok selected /\
    selected = [("ogd-smn_abo_h_historical_2020-2029.csv", "new")].
Proof.
  destruct (select_files_keeps_historical_in_range
              [("ogd-smn_abo_h_recent.csv", "recent");
               ("ogd-smn_abo_h_historical_2010-2019.csv", "old");
               ("ogd-smn_abo_d_historical_2020-2029.csv", "daily");
               ("ogd-smn_abo_h_historical_2020-2029.csv", "new")]
              (Some "h") "2022-01-01" "2022-12-31" 2022 2022 eq_refl eq_refl)
    as [selected [Hsel [Heq _]]].
  - intros kv [<- | [<- | [<- | [<- | []]]]]; vm_compute; congruence.
  - exists selected. split; [exact Hsel | ]. rewrite Heq. reflexivity.
Defined.

(** C6. For the frequency [h] and the window 2022-01-01..2022-12-31 the
    claim keeps every file whose key has the frequency token and declares
    a year range that meets the window, and the docstring of
    [download_meteo_file] says that the recent files that overlap are
    selected with the historical ones.  The code leaves out a recent file
    that carries the token, ends with [.csv] and declares the range
    2020-2025: [file_in_range] answers [False] for every key without
    ["historical_"]. *)
Theorem year_range_without_historical_excluded :
  py_contains "_h_" recent_with_years = true /\
  py_endswith recent_with_years ".csv" = true /\
  declares_year_range recent_with_years = Some (2020, 2025) /\
  2020 <= 2022 /\ 2025 >= 2022 /\
  select_files [(recent_with_years, "url")] (Some "h")
               (DateStr "2022-01-01") (DateStr "2022-12-31") = Ok [].
Proof. repeat split; try reflexivity; lia. Qed.

(** A key with ["historical_"] whose last component is no year range is
    not left out: the selection raises.  A [Timestamp] as date raises as
    soon as a key with ["historical_"] is met. *)
Lemma malformed_historical_raises :
  select_files [("ogd-smn_abo_h_historical_recent.csv", "url")] (Some "h")
               (DateStr "2022-01-01") (DateStr "2022-12-31") = Raise ValueError /\
  select_files [("ogd-smn_abo_h_historical_2020-2029.csv", "url")] (Some "h")
               (start_date config_init) (end_date config_init) = Raise TypeError.
Proof. split; reflexivity. Qed.

(* ------------------------------------------------------------------ *)
(** ** concat_meteo_items *)
(* ------------------------------------------------------------------ *)

(** The loop never raises: it requests every file and collects the tables
    of those that succeed, in the order of the files. *)
Lemma collect_files_succeeded (w : World) (vars : list (string * string))
    (files : list (string * string)) (log : list Request) :
  collect_files w vars files log
  = (Ok (succeeded w vars files), log ++ map (fun kv => Fetch (snd kv)) files).
Proof.
  revert log. induction files as [ | [name url] rest IH]; intros log.
  - simpl. unfold nret. now rewrite app_nil_r.
  - cbn [collect_files]. unfold nbind, ntry, fetch_file, nbind, request, nlift, nret.
    unfold succeeded. cbn [flat_map map snd]. fold (succeeded w vars rest).
    unfold file_result.
    destruct (fetch w url) as [df | e]; simpl.
    + rewrite IH. rewrite <- app_assoc. simpl.
      destruct (project_columns vars df); reflexivity.
    + rewrite IH. rewrite <- app_assoc. reflexivity.
Qed.

(** Whatever the files: the failure of a file inside the [try]
    (request, status, reading, choice of columns) is caught and the file
    is skipped; the result is built from the row-wise concatenation of the
    tables of exactly the files that succeeded, in their order; when every
    file fails the result is the empty table and nothing is raised.  Files
    that fail have no influence on the result. *)
Theorem concat_meteo_items_skips_failures (w : World)
    (files : list (string * string)) (vars : list (string * string))
    (log : list Request) :
  fst (collect_files w vars files log) = Ok (succeeded w vars files) /\
  fst (concat_meteo_items w files vars log)
  = match succeeded w vars files with
    | [] => Ok empty_frame
    | tables => index_by_timestamp (concat_rows tables)
    end /\
  (Forall (fun kv => is_ok (file_result w vars (snd kv)) = false) files <->
   succeeded w vars files = []) /\
  fst (concat_meteo_items w files vars log)
  = fst (concat_meteo_items w
           (filter (fun kv => is_ok (file_result w vars (snd kv))) files) vars log).
Proof.
  assert (Hres : forall fs lg,
             fst (concat_meteo_items w fs vars lg)
             = match succeeded w vars fs with
               | [] => Ok empty_frame
               | tables => index_by_timestamp (concat_rows tables)
               end).
  { intros fs lg. unfold concat_meteo_items, nbind.
    rewrite collect_files_succeeded.
    destruct (succeeded w vars fs); reflexivity. }
  split; [now rewrite collect_files_succeeded | ].
  split; [apply Hres | ].
  split.
  - unfold succeeded. induction files as [ | kv rest IH]; simpl.
    + split; [reflexivity | constructor].
    + destruct (file_result w vars (snd kv)) as [df | e] eqn:Hr; simpl.
      * split; [ | intros H; discriminate H].
        intros H. inversion H as [ | ? ? Hkv Hrest]. simpl in Hkv.
        rewrite Hr in Hkv. discriminate Hkv.
      * rewrite <- IH. split; [intros H; now inversion H | ].
        intros H. constructor; [simpl; now rewrite Hr | exact H].
  - rewrite !Hres.
    assert (Hsame : succeeded w vars
                      (filter (fun kv => is_ok (file_result w vars (snd kv))) files)
                    = succeeded w vars files).
    { unfold succeeded. induction files as [ | kv rest IH]; simpl; [reflexivity | ].
      destruct (file_result w vars (snd kv)) as [df | e] eqn:Hr; simpl.
      - rewrite Hr. now rewrite IH.
      - exact IH. }
    now rewrite Hsame.
Qed.

(** C8. Two files of one station that are both fetched and read without
    error, one stamped in the ISO format and one in the day-first format:
    each of them alone gives its table, and no failure is caught for
    either, yet together they make [concat_meteo_items] raise
    [ValueError] instead of returning the concatenation of the two: the
    timestamps are parsed after the loop, on the whole column, and the
    second attempt is not guarded.  A file that cannot be fetched is
    skipped, as the claim says. *)
Theorem files_of_two_formats_raise :
  concat_meteo_items two_formats_world [("a.csv", "iso")] variables []
  = (Ok (mkFrame (DatetimeIndex [1583074800]) ["air_temperature"] [[Some 2%Q]]),
     [Fetch "iso"]) /\
  concat_meteo_items two_formats_world [("b.csv", "dayfirst")] variables []
  = (Ok (mkFrame (DatetimeIndex [1583071200]) ["air_temperature"] [[Some 1%Q]]),
     [Fetch "dayfirst"]) /\
  List.length (succeeded two_formats_world variables
                 [("a.csv", "iso"); ("b.csv", "dayfirst")]) = 2%nat /\
  concat_meteo_items two_formats_world [("a.csv", "iso"); ("b.csv", "dayfirst")]
                     variables []
  = (Raise ValueError, [Fetch "iso"; Fetch "dayfirst"]) /\
  concat_meteo_items two_formats_world [("c.csv", "missing"); ("a.csv", "iso")]
                     variables []
  = (Ok (mkFrame (DatetimeIndex [1583074800]) ["air_temperature"] [[Some 2%Q]]),
     [Fetch "missing"; Fetch "iso"]).
Proof. repeat split; reflexivity. Qed.

(** When the ISO format fails on some row, the day-first format is tried on
    the whole column; when it fails too, on some row, its exception leaves
    [concat_meteo_items]. *)
Lemma index_by_timestamp_two_formats (full : RawFrame) (e : exn) :
  has_timestamp full = true ->
  to_datetime iso_format (map fst (raw_rows full)) = Raise e ->
  index_by_timestamp full
  = rbind (to_datetime dayfirst_format (map fst (raw_rows full)))
      (fun stamps =>
         Ok (mkFrame (DatetimeIndex (map fst (dropna_rows stamps (raw_rows full))))
                     (raw_columns full)
                     (map snd (dropna_rows stamps (raw_rows full))))).
Proof. intros Hts Hiso. unfold index_by_timestamp. now rewrite Hts, Hiso. Qed.

(** One row that matches neither format makes both attempts fail. *)
Lemma to_datetime_unparseable (fmt : list directive) (before after : list (option string))
    (s : string) :
  is_nat_string s = false -> parse_timestamp fmt s = None ->
  exists e, to_datetime fmt (before ++ Some s :: after) = Raise e.
Proof.
  intros Hnat Hparse. induction before as [ | c before IH]; simpl.
  - rewrite Hnat, Hparse. simpl. eauto.
  - destruct IH as [e He]. rewrite He.
    destruct c as [s0 | ]; simpl; [ | eauto].
    destruct (is_nat_string s0); simpl; [eauto | ].
    destruct (parse_timestamp fmt s0); simpl; eauto.
Qed.

Lemma to_datetime_raises (fmt : list directive) (col : list (option string))
    (s : string) :
  In (Some s) col -> is_nat_string s = false -> parse_timestamp fmt s = None ->
  exists e, to_datetime fmt col = Raise e.
Proof.
  intros Hin Hnat Hparse. apply in_split in Hin. destruct Hin as [before [after ->]].
  now apply to_datetime_unparseable.
Qed.

(** Whatever the table: a row whose stamp is not in the ISO format together
    with a row whose stamp is not in the day-first format (the same row or
    another one) makes [concat_meteo_items] raise instead of dropping
    anything. *)
Lemma mixed_or_unparseable_rows_are_fatal (full : RawFrame) (s1 s2 : string) :
  has_timestamp full = true ->
  In (Some s1) (map fst (raw_rows full)) ->
  is_nat_string s1 = false -> parse_timestamp iso_format s1 = None ->
  In (Some s2) (map fst (raw_rows full)) ->
  is_nat_string s2 = false -> parse_timestamp dayfirst_format s2 = None ->
  exists e, index_by_timestamp full = Raise e.
Proof.
  intros Hts H1 N1 P1 H2 N2 P2.
  destruct (to_datetime_raises iso_format _ s1 H1 N1 P1) as [e1 E1].
  destruct (to_datetime_raises dayfirst_format _ s2 H2 N2 P2) as [e2 E2].
  rewrite (index_by_timestamp_two_formats full e1 Hts E1), E2. simpl. eauto.
Qed.

(** C7. A file with one row stamped [01.03.2020 14:00] and one stamped
    [2020-03-01T15:00:00]: each stamp is valid in its format and the first
    is the earlier one, yet [concat_meteo_items] raises [ValueError], since
    each format is tried on the whole column and the second attempt is not
    guarded.  A row that is no timestamp at all is fatal in the same way
    instead of being dropped. *)
Theorem mixed_timestamp_formats_raise :
  parse_timestamp dayfirst_format "01.03.2020 14:00" = Some 1583071200 /\
  parse_timestamp iso_format "2020-03-01T15:00:00" = Some 1583074800 /\
  1583071200 < 1583074800 /\
  concat_meteo_items files_world [("file.csv", "mixed")] variables []
    = (Raise ValueError, [Fetch "mixed"]) /\
  concat_meteo_items files_world [("file.csv", "bad")] variables []
    = (Raise ValueError, [Fetch "bad"]).
Proof. repeat split; try reflexivity; lia. Qed.

(* ------------------------------------------------------------------ *)
(** ** The row labels of the merged table *)
(* ------------------------------------------------------------------ *)

Lemma insert_sorted_perm (x : Z) (l : list Z) :
  Permutation (insert_sorted x l) (x :: l).
Proof.
  induction l as [ | y l IH]; simpl; [reflexivity | ].
  destruct (x <=? y); [reflexivity | ].
  rewrite IH. apply perm_swap.
Qed.

Lemma sort_stamps_perm (l : list Z) : Permutation (sort_stamps l) l.
Proof.
  induction l as [ | x l IH]; simpl; [reflexivity | ].
  rewrite insert_sorted_perm. now rewrite IH.
Qed.

Lemma insert_sorted_sorted (x : Z) (l : list Z) :
  StronglySorted Z.le l -> StronglySorted Z.le (insert_sorted x l).
Proof.
  induction l as [ | y l IH]; simpl; intros Hs.
  - repeat constructor.
  - apply StronglySorted_inv in Hs. destruct Hs as [Hs Hy].
    destruct (Z.leb_spec x y) as [Hxy | Hxy].
    + constructor; [now constructor | ].
      constructor; [exact Hxy | ].
      eapply Forall_impl; [ | exact Hy]. intros z Hz. simpl in Hz. lia.
    + constructor; [now apply IH | ].
      eapply Permutation_Forall; [symmetry; apply insert_sorted_perm | ].
      constructor; [lia | exact Hy].
Qed.

Lemma sort_stamps_sorted (l : list Z) : StronglySorted Z.le (sort_stamps l).
Proof.
  induction l as [ | x l IH]; simpl; [constructor | now apply insert_sorted_sorted].
Qed.

Lemma sorted_nodup_increasing (l : list Z) :
  StronglySorted Z.le l -> NoDup l -> increasing l.
Proof.
  unfold increasing. induction l as [ | x l IH]; intros Hs Hn; [constructor | ].
  apply StronglySorted_inv in Hs. destruct Hs as [Hs Hx].
  inversion Hn as [ | ? ? Hnotin Hn']; subst.
  constructor; [now apply IH | ].
  rewrite Forall_forall in *. intros y Hy.
  specialize (Hx y Hy). simpl in Hx.
  assert (x <> y) by (intros ->; contradiction). lia.
Qed.

Lemma increasing_nodup (l : list Z) : increasing l -> NoDup l.
Proof.
  unfold increasing. induction l as [ | x l IH]; intros Hs; [constructor | ].
  apply StronglySorted_inv in Hs. destruct Hs as [Hs Hx].
  constructor; [ | now apply IH].
  intros Hin. rewrite Forall_forall in Hx. specialize (Hx x Hin). simpl in Hx. lia.
Qed.

Lemma remove_one_nodup (x : Z) (l : list Z) :
  NoDup l ->
  NoDup (remove_one x l) /\
  forall t, In t (remove_one x l) <-> In t l /\ t <> x.
Proof.
  induction l as [ | y l IH]; simpl; intros Hn.
  - split; [constructor | intros t; tauto].
  - inversion Hn as [ | ? ? Hnotin Hn']; subst.
    destruct (Z.eqb_spec x y) as [-> | Hxy].
    + split; [exact Hn' | ]. intros t. split.
      * intros Ht. split; [now right | ]. intros ->. contradiction.
      * intros [[-> | Ht] Hne]; [congruence | exact Ht].
    + destruct (IH Hn') as [IHn IHin]. split.
      * constructor; [ | exact IHn]. rewrite IHin. tauto.
      * intros t. simpl. rewrite IHin. split.
        -- intros [-> | [Ht Hne]]; [split; [now left | congruence] | tauto].
        -- intros [[-> | Ht] Hne]; [now left | tauto].
Qed.

Lemma difference_nodup (a b : list Z) :
  NoDup b ->
  NoDup (fold_left (fun acc x => remove_one x acc) a b) /\
  forall t, In t (fold_left (fun acc x => remove_one x acc) a b)
            <-> In t b /\ ~ In t a.
Proof.
  revert b. induction a as [ | x a IH]; intros b Hn; simpl.
  - split; [exact Hn | intros t; tauto].
  - destruct (remove_one_nodup x b Hn) as [Hn1 Hin1].
    destruct (IH _ Hn1) as [Hn2 Hin2].
    split; [exact Hn2 | ].
    intros t. rewrite Hin2, Hin1. split.
    + intros [[Hb Hne] Ha]. split; [exact Hb | ]. intros [-> | H]; tauto.
    + intros [Hb Hna]. repeat split; [exact Hb | | tauto].
      intros ->. apply Hna. now left.
Qed.

(** The union of two increasing indexes is increasing and holds the labels
    of both. *)
Lemma union2_increasing (a b : list Z) :
  increasing a -> increasing b ->
  increasing (union2 a b) /\
  forall t, In t (union2 a b) <-> In t a \/ In t b.
Proof.
  intros Ha Hb. unfold union2.
  destruct b as [ | y b'] eqn:Eb.
  - split; [exact Ha | intros t; simpl; tauto].
  - rewrite <- Eb in *. clear Eb y b'.
    unfold list_eqb. destruct (list_eq_dec Z.eq_dec a b) as [-> | Hne].
    + split; [exact Hb | intros t; tauto].
    + destruct a as [ | x a'] eqn:Ea.
      * split; [exact Hb | intros t; simpl; tauto].
      * rewrite <- Ea in *. clear Ea x a'.
        destruct (difference_nodup a b (increasing_nodup b Hb)) as [Hn Hin].
        assert (Hmem : forall t,
                   In t (a ++ fold_left (fun acc x => remove_one x acc) a b)
                   <-> In t a \/ In t b).
        { intros t. rewrite in_app_iff, Hin.
          destruct (in_dec Z.eq_dec t a); tauto. }
        split.
        -- apply sorted_nodup_increasing; [apply sort_stamps_sorted | ].
           eapply Permutation_NoDup; [symmetry; apply sort_stamps_perm | ].
           apply NoDup_app; [exact (increasing_nodup a Ha) | exact Hn | ].
           intros t Hta Htd. apply Hin in Htd. tauto.
        -- intros t. rewrite <- Hmem. split; intros H.
           ++ eapply Permutation_in; [apply sort_stamps_perm | exact H].
           ++ eapply Permutation_in; [symmetry; apply sort_stamps_perm | exact H].
Qed.

Lemma union_indexes_increasing (idxs : list (list Z)) :
  Forall increasing idxs ->
  increasing (union_indexes idxs) /\
  forall t, In t (union_indexes idxs) <-> exists ts, In ts idxs /\ In t ts.
Proof.
  destruct idxs as [ | i0 rest]; simpl.
  - intros _. split; [constructor | ]. intros t. split; [tauto | intros [ts [[] _]]].
  - intros H. inversion H as [ | ? ? H0 Hrest]; subst. clear H.
    revert i0 H0. induction rest as [ | i1 rest IH]; intros i0 H0; simpl.
    + split; [exact H0 | ]. intros t. split.
      * intros Ht. exists i0. tauto.
      * intros [ts [[<- | []] Ht]]. exact Ht.
    + inversion Hrest as [ | ? ? H1 Hrest']; subst.
      destruct (union2_increasing i0 i1 H0 H1) as [Hu Hin].
      destruct (IH Hrest' _ Hu) as [Hs Hmem].
      split; [exact Hs | ].
      intros t. rewrite Hmem. split.
      * intros [ts [[<- | Hts] Ht]].
        -- apply Hin in Ht. destruct Ht as [Ht | Ht]; [exists i0 | exists i1]; tauto.
        -- exists ts. tauto.
      * intros [ts [[<- | [<- | Hts]] Ht]].
        -- exists (union2 i0 i1). split; [now left | ]. apply Hin. now left.
        -- exists (union2 i0 i1). split; [now left | ]. apply Hin. now right.
        -- exists ts. tauto.
Qed.

Lemma has_dup_nodup (l : list Z) : NoDup l -> has_dup l = false.
Proof.
  induction l as [ | x l IH]; simpl; intros Hn; [reflexivity | ].
  inversion Hn as [ | ? ? Hnotin Hn']; subst.
  rewrite (IH Hn'), orb_false_r.
  destruct (existsb (Z.eqb x) l) eqn:E; [ | reflexivity].
  apply existsb_exists in E. destruct E as [y [Hy Hxy]].
  apply Z.eqb_eq in Hxy. subst. contradiction.
Qed.


Lemma all_datetime_timestamps (frames : list DataFrame) :
  Forall (fun df => exists ts, index df = DatetimeIndex ts) frames ->
  all_datetime frames = Some (map (fun df => (timestamps df, df)) frames).
Proof.
  induction frames as [ | df rest IH]; simpl; intros H; [reflexivity | ].
  inversion H as [ | ? ? [ts Hts] Hrest]; subst.
  rewrite (IH Hrest). unfold timestamps. now rewrite Hts.
Qed.

Lemma filter_all {A : Type} (f : A -> bool) (l : list A) :
  Forall (fun x => f x = true) l -> filter f l = l.
Proof.
  induction l as [ | x l IH]; simpl; intros H; [reflexivity | ].
  inversion H as [ | ? ? Hx Hl]; subst. now rewrite Hx, (IH Hl).
Qed.








(* ------------------------------------------------------------------ *)
(** ** The global series *)
(* ------------------------------------------------------------------ *)

Lemma row_at_head (t : Z) (ts : list Z) (r : list cell) (rows : list (list cell))
    (n : nat) :
  row_at (t :: ts) (r :: rows) n t = r.
Proof. simpl. now rewrite Z.eqb_refl. Qed.

(** Looking up every label of a table without repeated labels gives back
    its rows. *)
Lemma row_at_self (ts : list Z) (rows : list (list cell)) (n : nat) :
  NoDup ts -> List.length rows = List.length ts ->
  map (row_at ts rows n) ts = rows.
Proof.
  revert rows. induction ts as [ | t ts IH]; intros [ | r rows] Hn Hlen;
    simpl in Hlen; try discriminate; [reflexivity | ].
  inversion Hn as [ | ? ? Hnotin Hn']; subst.
  cbn [map]. rewrite row_at_head. f_equal.
  rewrite <- (IH rows Hn') at 2 by lia.
  apply map_ext_in. intros t' Ht'. simpl.
  destruct (Z.eqb_spec t t') as [-> | _]; [contradiction | reflexivity].
Qed.

Lemma row_at_map (F : Z -> list cell) (l : list Z) (n : nat) (t : Z) :
  In t l -> row_at l (map F l) n t = F t.
Proof.
  induction l as [ | x l IH]; simpl; [tauto | ].
  destruct (Z.eqb_spec x t) as [-> | Hne]; [reflexivity | ].
  intros [-> | Hin]; [congruence | now apply IH].
Qed.

Lemma row_at_length (ts : list Z) (rows : list (list cell)) (n : nat) (t : Z) :
  Forall (fun row => List.length row = n) rows ->
  List.length (row_at ts rows n t) = n.
Proof.
  revert rows. induction ts as [ | x ts IH]; intros rows Hw; simpl.
  - apply repeat_length.
  - destruct rows as [ | r rows]; [apply repeat_length | ].
    inversion Hw; subst. destruct (x =? t); [reflexivity | now apply IH].
Qed.

Lemma hcat_map (F G : Z -> list cell) (l : list Z) :
  hcat (map F l) (map G l) = map (fun t => F t ++ G t) l.
Proof. induction l as [ | x l IH]; simpl; [reflexivity | now rewrite IH]. Qed.

Lemma repeat_map_nil (l : list Z) :
  repeat (@nil cell) (List.length l) = map (fun _ => []) l.
Proof. induction l as [ | x l IH]; simpl; [reflexivity | now rewrite IH]. Qed.

Lemma reindex_all_rows (combined : list Z) (frames : list DataFrame) :
  Forall (fun df => NoDup (timestamps df) /\
                    List.length (data df) = List.length (timestamps df)) frames ->
  reindex_all combined (map (fun df => (timestamps df, df)) frames)
  = Ok (map (aligned_row frames) combined).
Proof.
  induction frames as [ | df rest IH]; intros H; cbn [map reindex_all].
  - unfold aligned_row. simpl. now rewrite repeat_map_nil.
  - inversion H as [ | ? ? [Hn Hlen] Hrest]; subst.
    rewrite (IH Hrest). unfold reindex.
    rewrite (has_dup_nodup _ Hn).
    assert (Hrows : (if list_eqb (timestamps df) combined then Ok (data df)
                     else Ok (map (row_at (timestamps df) (data df) (ncols df)) combined))
                    = Ok (map (row_at (timestamps df) (data df) (ncols df)) combined)).
    { unfold list_eqb.
      destruct (list_eq_dec Z.eq_dec (timestamps df) combined) as [<- | _];
        [ | reflexivity].
      now rewrite (row_at_self _ _ _ Hn Hlen). }
    rewrite Hrows. cbn [rbind]. rewrite hcat_map. reflexivity.
Qed.

Lemma lookup_cell_map (G : string -> cell) (names : list string) (v : string) :
  In v names -> lookup_cell names (map G names) v = G v.
Proof.
  induction names as [ | x names IH]; simpl; [tauto | ].
  destruct (String.eqb_spec x v) as [-> | Hne]; [reflexivity | ].
  intros [-> | Hin]; [congruence | now apply IH].
Qed.

Lemma lookup_cell_scale (cols : list string) (row : list cell) (w : Q) (v : string) :
  lookup_cell cols (map (option_map (fun q => (q * w)%Q)) row) v
  = option_map (fun q => (q * w)%Q) (lookup_cell cols row v).
Proof.
  revert row. induction cols as [ | c cols IH]; intros [ | x row]; simpl;
    try reflexivity.
  destruct (String.eqb c v); [reflexivity | apply IH].
Qed.

Lemma row_at_scale (ts : list Z) (rows : list (list cell)) (n : nat) (w : Q) (t : Z) :
  row_at ts (map (map (option_map (fun q => (q * w)%Q))) rows) n t
  = map (option_map (fun q => (q * w)%Q)) (row_at ts rows n t).
Proof.
  revert rows. induction ts as [ | x ts IH]; intros rows; simpl.
  - now rewrite map_repeat.
  - destruct rows as [ | r rows]; simpl; [now rewrite map_repeat | ].
    destruct (x =? t); [reflexivity | apply IH].
Qed.

Lemma group_sum_absent (cols : list string) (row : list cell) (v : string) :
  ~ In v cols -> group_sum cols row v = 0%Q.
Proof.
  revert row. induction cols as [ | c cols IH]; intros row Hnot; simpl;
    [now destruct row | ].
  destruct row as [ | x row]; [reflexivity | ].
  destruct (String.eqb_spec c v) as [-> | _]; [exfalso; apply Hnot; now left | ].
  apply IH. intros H. apply Hnot. now right.
Qed.

(** Under distinct column names the sum of a group is the cell of its one
    column, a [NaN] counting for zero. *)
Lemma group_sum_lookup (cols : list string) (row : list cell) (v : string) :
  NoDup cols ->
  (group_sum cols row v ==
   match lookup_cell cols row v with Some q => q | None => 0 end)%Q.
Proof.
  revert row. induction cols as [ | c cols IH]; intros row Hn; simpl;
    [destruct row; reflexivity | ].
  destruct row as [ | x row]; [reflexivity | ].
  inversion Hn as [ | ? ? Hnotin Hn']; subst.
  destruct (String.eqb_spec c v) as [-> | _].
  - rewrite (group_sum_absent cols row v Hnotin). destruct x; ring.
  - now apply IH.
Qed.

Lemma group_sum_app (cols1 cols2 : list string) (row1 row2 : list cell) (v : string) :
  List.length row1 = List.length cols1 ->
  (group_sum (cols1 ++ cols2) (row1 ++ row2) v
   == group_sum cols1 row1 v + group_sum cols2 row2 v)%Q.
Proof.
  revert row1. induction cols1 as [ | c cols1 IH]; intros [ | x row1] Hlen;
    simpl in Hlen; try discriminate; simpl.
  - ring.
  - injection Hlen as Hlen. destruct (String.eqb c v).
    + rewrite (IH row1 Hlen). ring.
    + exact (IH row1 Hlen).
Qed.

Lemma filter_map_commute {A B : Type} (f : B -> bool) (g : A -> B) (l : list A) :
  filter f (map g l) = map g (filter (fun x => f (g x)) l).
Proof.
  induction l as [ | x l IH]; simpl; [reflexivity | ].
  destruct (f (g x)); simpl; now rewrite IH.
Qed.

Lemma empty_series_silent (df : DataFrame) (t : Z) (v : string) :
  is_0x0 df = true -> station_value df t v = None.
Proof.
  unfold is_0x0, ncols, station_value. intros H.
  apply andb_true_iff in H. destruct H as [_ H]. apply Nat.eqb_eq in H.
  destruct (columns df); [reflexivity | discriminate].
Qed.

(** What the scaled series of one station adds to the sum of a group. *)
Lemma group_sum_scaled (w : Q) (df : DataFrame) (t : Z) (v : string) :
  NoDup (columns df) ->
  (group_sum (columns df)
     (row_at (timestamps df) (data (scale_frame df w)) (ncols df) t) v
   == contribution (w, df) t v)%Q.
Proof.
  intros Hn. cbn [scale_frame data]. rewrite row_at_scale.
  rewrite (group_sum_lookup _ _ _ Hn), lookup_cell_scale.
  unfold contribution, station_value. cbn [fst snd].
  destruct (lookup_cell (columns df) (row_at (timestamps df) (data df) (ncols df) t) v);
    reflexivity.
Qed.

Lemma group_sum_aligned (stations : list (Q * DataFrame)) (t : Z) (v : string) :
  Forall (fun s => NoDup (columns (snd s)) /\ well_formed (snd s)) stations ->
  (group_sum (flat_map columns (map (fun s => scale_frame (snd s) (fst s)) stations))
             (aligned_row (map (fun s => scale_frame (snd s) (fst s)) stations) t) v
   == weighted_sum stations t v)%Q.
Proof.
  induction stations as [ | [w df] rest IH]; intros H; [reflexivity | ].
  inversion H as [ | ? ? [Hn [_ Hw]] Hrest]; subst. cbn [fst snd] in *.
  unfold aligned_row in *. cbn [map flat_map fst snd weighted_sum].
  rewrite group_sum_app.
  - rewrite (IH Hrest).
    change (timestamps (scale_frame df w)) with (timestamps df).
    change (ncols (scale_frame df w)) with (ncols df).
    change (columns (scale_frame df w)) with (columns df).
    now rewrite (group_sum_scaled w df t v Hn).
  - change (List.length (columns (scale_frame df w))) with (ncols df).
    change (ncols (scale_frame df w)) with (ncols df).
    apply row_at_length. cbn [scale_frame data].
    rewrite Forall_map. eapply Forall_impl; [ | exact Hw].
    intros row Hrow. cbn beta. now rewrite length_map.
Qed.

Lemma weighted_sum_kept (stations : list (Q * DataFrame)) (t : Z) (v : string) :
  (weighted_sum (filter (fun s => negb (is_0x0 (snd s))) stations) t v
   == weighted_sum stations t v)%Q.
Proof.
  induction stations as [ | s rest IH]; [reflexivity | ].
  cbn [filter weighted_sum].
  destruct (is_0x0 (snd s)) eqn:E; cbn [negb].
  - unfold contribution. rewrite (empty_series_silent _ t v E), IH. ring.
  - cbn [weighted_sum]. now rewrite IH.
Qed.

Lemma weighted_sum_silent (stations : list (Q * DataFrame)) (t : Z) (v : string) :
  (forall s, In s stations -> station_value (snd s) t v = None) ->
  (weighted_sum stations t v == 0)%Q.
Proof.
  induction stations as [ | s rest IH]; intros H; [reflexivity | ].
  cbn [weighted_sum]. unfold contribution.
  rewrite (H s (or_introl eq_refl)), IH; [ring | ].
  intros s' Hs'. apply H. now right.
Qed.

(** The cell of the global series at a label and a column it has. *)
Lemma groupby_sum_value (combined : list Z) (frames : list DataFrame)
    (t : Z) (v : string) :
  In t combined ->
  In v (sorted_names (flat_map columns frames)) ->
  station_value
    (groupby_sum (mkFrame (DatetimeIndex combined) (flat_map columns frames)
                          (map (aligned_row frames) combined))) t v
  = Some (group_sum (flat_map columns frames) (aligned_row frames t) v).
Proof.
  intros Ht Hv. unfold station_value, groupby_sum, timestamps, ncols.
  cbn [index columns data]. rewrite map_map.
  rewrite (row_at_map
             (fun t0 => map (fun v0 => Some (group_sum (flat_map columns frames)
                                               (aligned_row frames t0) v0))
                            (sorted_names (flat_map columns frames)))
             combined _ t Ht).
  exact (lookup_cell_map
           (fun v0 => Some (group_sum (flat_map columns frames)
                              (aligned_row frames t) v0)) _ v Hv).
Qed.

(** [pd.concat] on the scaled series of stations that all are [series]. *)
Lemma concat_columns_scaled (P : Pandas) (stations : list (Q * DataFrame)) :
  stations <> [] ->
  (forall s, In s stations -> series (snd s)) ->
  let kept := map (fun s => scale_frame (snd s) (fst s))
                  (filter (fun s => negb (is_0x0 (snd s))) stations) in
  exists g,
    concat_columns P (map (fun s => scale_frame (snd s) (fst s)) stations) = Ok g /\
    (kept = [] -> columns g = []) /\
    (kept <> [] ->
     g = mkFrame (DatetimeIndex (union_indexes (map timestamps kept)))
                 (flat_map columns kept)
                 (map (aligned_row kept) (union_indexes (map timestamps kept)))).
Proof.
  intros Hne Hser kept.
  assert (Hkept : filter (fun df => negb (is_0x0 df))
                         (map (fun s => scale_frame (snd s) (fst s)) stations)
                  = kept).
  { unfold kept. now rewrite filter_map_commute. }
  assert (Hin : forall df, In df kept ->
                  exists w df0, df = scale_frame df0 w /\
                    (exists ts, index df0 = DatetimeIndex ts /\ NoDup ts) /\
                    NoDup (columns df0) /\ well_formed df0).
  { intros df Hdf. unfold kept in Hdf. apply in_map_iff in Hdf.
    destruct Hdf as [[w df0] [<- Hs]]. apply filter_In in Hs.
    destruct Hs as [Hs H0]. cbn [fst snd] in *.
    exists w, df0. split; [reflexivity | ].
    destruct (Hser _ Hs) as [E | H]; [ | exact H].
    cbn [snd] in E. rewrite E in H0. discriminate. }
  unfold concat_columns.
  destruct stations as [ | s0 rest]; [congruence | ].
  rewrite Hkept. cbn [map]. clearbody kept.
  destruct kept as [ | k ks].
  - eexists. split; [reflexivity | ]. split; [reflexivity | congruence].
  - set (kept := k :: ks) in *.
    rewrite (all_datetime_timestamps kept).
    2:{ apply Forall_forall. intros df Hdf.
        destruct (Hin df Hdf) as [w [df0 [-> [[ts [Hts _]] _]]]].
        exists ts. exact Hts. }
    cbv beta iota zeta. rewrite map_map. cbn [fst].
    change (map (fun x : DataFrame => timestamps x) kept) with (map timestamps kept).
    rewrite (reindex_all_rows (union_indexes (map timestamps kept)) kept).
    2:{ apply Forall_forall. intros df Hdf.
        destruct (Hin df Hdf) as [w [df0 [-> [[ts [Hts Hn]] [_ [Hlen _]]]]]].
        unfold timestamps, nrows in *. cbn [scale_frame index data].
        rewrite Hts in *. split; [exact Hn | ]. now rewrite !length_map. }
    cbn [rbind]. eexists. split; [reflexivity | ].
    split; [discriminate | reflexivity].
Qed.

(** C4, as the code has it.  For stations whose series are well formed,
    the global series exists, and at each of its timestamps the value of
    each of its variables is the sum, over exactly the stations that
    report a value there, of the value times the weight of the station.
    Where no station reports a value the global value is the number 0, not
    a missing value. *)
Theorem global_series_partial_sum (P : Pandas) (stations : list (Q * DataFrame)) :
  stations <> [] ->
  (forall s, In s stations -> series (snd s)) ->
  exists g,
    global_series P (map (fun s => scale_frame (snd s) (fst s)) stations) = Ok g /\
    forall t v, In t (timestamps g) -> In v (columns g) ->
      exists q, station_value g t v = Some q /\
                (q == weighted_sum stations t v)%Q /\
                ((forall s, In s stations -> station_value (snd s) t v = None) ->
                 (q == 0)%Q).
Proof.
  intros Hne Hser.
  destruct (concat_columns_scaled P stations Hne Hser) as [c [Hc [Hnone Hsome]]].
  unfold global_series. rewrite Hc. cbn [rbind].
  eexists. split; [reflexivity | ].
  intros t v Ht Hv.
  set (ks := filter (fun s => negb (is_0x0 (snd s))) stations) in *.
  destruct (map (fun s => scale_frame (snd s) (fst s)) ks) as [ | k rest] eqn:Ek.
  - cbn [groupby_sum columns] in Hv. rewrite (Hnone eq_refl) in Hv. destruct Hv.
  - rewrite <- Ek in *.
    assert (Hg : map (fun s => scale_frame (snd s) (fst s)) ks <> [])
      by (rewrite Ek; discriminate).
    specialize (Hsome Hg). subst c.
    rewrite (groupby_sum_value
               (union_indexes
                  (map timestamps (map (fun s => scale_frame (snd s) (fst s)) ks)))
               (map (fun s => scale_frame (snd s) (fst s)) ks) t v Ht Hv).
    assert (Hsum : (group_sum
                      (flat_map columns (map (fun s => scale_frame (snd s) (fst s)) ks))
                      (aligned_row (map (fun s => scale_frame (snd s) (fst s)) ks) t) v
                    == weighted_sum stations t v)%Q).
    { rewrite group_sum_aligned.
      - apply weighted_sum_kept.
      - apply Forall_forall. intros s Hs. unfold ks in Hs.
        apply filter_In in Hs. destruct Hs as [Hs H0].
        destruct (Hser _ Hs) as [E | [_ H]]; [ | exact H].
        rewrite E in H0. discriminate. }
    eexists. split; [reflexivity | ]. split; [exact Hsum | ].
    intros Hsilent. rewrite Hsum. now apply weighted_sum_silent.
Qed.

(** On the example of the specification the global series has the value
    0.6 x 10 at 14:00, where only A reports, and 0.6 x 20 + 0.4 x 30 at
    15:00, where both do. *)
Lemma global_series_partial_sum_witness :
  exists g,
    global_series no_pandas
      (map (fun s => scale_frame (snd s) (fst s)) example_stations) = Ok g /\
    exists q1 q2,
      station_value g 1583071200 "temp" = Some q1 /\ (q1 == 6)%Q /\
      station_value g 1583074800 "temp" = Some q2 /\ (q2 == 24)%Q.
Proof.
  destruct (global_series_partial_sum no_pandas example_stations)
    as [g [Hg Hval]].
  - discriminate.
  - intros s [<- | [<- | []]]; right; cbn [snd];
      (split; [eexists; split; [reflexivity | ] | split; [ | split; [reflexivity | ]]]);
      repeat constructor; simpl; intuition discriminate.
  - exists g. split; [exact Hg | ].
    vm_compute in Hg. injection Hg as <-.
    destruct (Hval 1583071200 "temp") as [q1 [H1 [E1 _]]];
      [simpl; tauto | simpl; tauto | ].
    destruct (Hval 1583074800 "temp") as [q2 [H2 [E2 _]]];
      [simpl; tauto | simpl; tauto | ].
    exists q1, q2. repeat split; [exact H1 | | exact H2 | ].
    + rewrite E1. vm_compute. reflexivity.
    + rewrite E2. vm_compute. reflexivity.
Defined.

(** Station A reports at 14:00 only and has no humidity there, station B
    reports at 15:00 only and has no humidity column.  No station reports a
    humidity at 15:00, and the global series holds the number 0 there.  In
    the merged table the humidity column of A, all missing, is dropped,
    while the global humidity column stays with its zeros. *)
Lemma silent_timestamp_reads_zero :
  station_value station_a 1583074800 "humidity" = None /\
  station_value station_b 1583074800 "humidity" = None /\
  (fun P => rbind (global_series P [scale_frame station_a (6 # 10);
                                    scale_frame station_b (4 # 10)])
              (fun g => Ok (timestamps g, columns g,
                            station_value g 1583074800 "humidity")))
  = (fun _ => Ok ([1583071200; 1583074800], ["air_temperature"; "humidity"],
                  Some 0%Q)) /\
  (fun P => rbind (global_series P [scale_frame station_a (6 # 10);
                                    scale_frame station_b (4 # 10)])
              (fun g =>
            rbind (concat_stations_horizontal P
                     [("A", station_a); ("B", station_b); ("global", g)] [])
              (fun merged =>
            Ok (columns (dropna_columns merged),
                station_value (dropna_columns merged) 1583074800 "humidity_global"))))
  = (fun _ => Ok (["air_temperature_A"; "air_temperature_B";
                   "air_temperature_global"; "humidity_global"], Some 0%Q)).
Proof. repeat split; reflexivity. Qed.

(* ================================================================== *)
(** * Further properties *)
(* ================================================================== *)

(* ------------------------------------------------------------------ *)
(** ** config: paths and frequency *)
(* ------------------------------------------------------------------ *)





Lemma prefix_exists (p : ascii -> bool) (sub k : string) :
  prefix sub k = true -> string_exists p sub = true -> string_exists p k = true.
Proof.
  revert k. induction sub as [ | c sub IH]; intros k Hpre Hex; [discriminate | ].
  destruct k as [ | c' k]; [discriminate | ]. simpl in Hpre.
  destruct (Ascii.ascii_dec c c') as [<- | ]; [ | discriminate].
  simpl in *. apply orb_true_iff in Hex. apply orb_true_iff.
  destruct Hex as [Hc | Hsub]; [now left | right; now apply IH].
Qed.

(** A text contained in another holds no character the other lacks. *)
Lemma py_contains_exists (p : ascii -> bool) (sub k : string) :
  py_contains sub k = true -> string_exists p sub = true -> string_exists p k = true.
Proof.
  induction k as [ | c k IH]; intros Hc Hex.
  - simpl in Hc. rewrite orb_false_r in Hc. exact (prefix_exists p sub "" Hc Hex).
  - simpl in Hc. apply orb_true_iff in Hc. destruct Hc as [Hpre | Hc].
    + exact (prefix_exists p sub (String c k) Hpre Hex).
    + simpl. apply orb_true_iff. right. now apply IH.
Qed.

Lemma string_exists_append (p : ascii -> bool) (a b : string) :
  string_exists p (a ++ b)%string = string_exists p a || string_exists p b.
Proof. induction a as [ | c a IH]; simpl; [reflexivity | now rewrite IH, orb_assoc]. Qed.

Lemma upper_frequency_irrelevant (fr : option string) (k : string) :
  has_upper (py_str fr) = true -> has_upper k = false -> relevant fr k = false.
Proof.
  intros Hf Hk. unfold relevant.
  destruct (py_contains ("_" ++ py_str fr ++ "_")%string k) eqn:Hc; [ | reflexivity].
  exfalso. unfold has_upper in *.
  assert (Hup : string_exists is_upper ("_" ++ py_str fr ++ "_")%string = true).
  { rewrite !string_exists_append, Hf. reflexivity. }
  rewrite (py_contains_exists is_upper _ k Hc Hup) in Hk. discriminate.
Qed.

Lemma relevant_files_nil (fr : option string) (assets : list (string * string)) :
  Forall (fun kv => relevant fr (fst kv) = false) assets -> relevant_files fr assets = [].
Proof.
  unfold relevant_files. induction assets as [ | kv rest IH]; intros H; [reflexivity | ].
  inversion H as [ | ? ? Hkv Hrest]; subst. simpl. rewrite Hkv. now apply IH.
Qed.





(* ------------------------------------------------------------------ *)
(** ** download_meteo_file: what is requested and what is selected *)
(* ------------------------------------------------------------------ *)

(** The requests of [concat_meteo_items]: each file once, in order. *)
Lemma concat_meteo_items_log (w : World) (files : list (string * string))
    (vars : list (string * string)) (log : list Request) :
  snd (concat_meteo_items w files vars log)
  = log ++ map (fun kv => Fetch (snd kv)) files.
Proof.
  unfold concat_meteo_items, nbind. rewrite collect_files_succeeded.
  destruct (succeeded w vars files); reflexivity.
Qed.

Lemma concat_meteo_items_nil (w : World) (vars : list (string * string))
    (log : list Request) :
  concat_meteo_items w [] vars log = (Ok empty_frame, log).
Proof. reflexivity. Qed.

(** X2. Once the catalogue has answered and the selection has succeeded,
    [download_meteo_file] sends exactly these requests: the one query of
    the catalogue, for the lower-cased station code, then one download per
    selected file, each once and in the order of the catalogue, whether
    the downloads and the later steps succeed or not. *)
Theorem download_meteo_file_requests (P : Pandas) (w : World) (sid : string)
    (sd ed : pydate) (fr : option string) (log : list Request)
    (assets : list (string * string)) (more : list (list (string * string)))
    (selected : list (string * string)) :
  search w (py_lower sid) = Ok (assets :: more) ->
  select_files assets fr sd ed = Ok selected ->
  snd (download_meteo_file P w sid sd ed fr log)
  = log ++ Search (py_lower sid) :: map (fun kv => Fetch (snd kv)) selected.
Proof.
  intros Hs Hsel. unfold download_meteo_file, nbind at 1, request. rewrite Hs.
  unfold nbind at 1, nlift at 1. rewrite Hsel. unfold nbind.
  pose proof (concat_meteo_items_log w selected variables (log ++ [Search (py_lower sid)]))
    as Hlog.
  destruct (concat_meteo_items w selected variables (log ++ [Search (py_lower sid)]))
    as [[df | e] log1]; cbn [snd] in Hlog; subst log1.
  - rewrite <- app_assoc. cbn [app].
    destruct (negb (df_empty df) && date_truthy sd && date_truthy ed); reflexivity.
  - rewrite <- app_assoc. reflexivity.
Qed.

(** An upper-case letter in the frequency: nothing is selected from a
    catalogue whose keys are in lower case. *)
Lemma select_files_upper (assets : list (string * string)) (fr : option string)
    (sd ed : pydate) :
  has_upper (py_str fr) = true ->
  Forall (fun kv => has_upper (fst kv) = false) assets ->
  select_files assets fr sd ed = Ok [].
Proof.
  intros Hf Hk. unfold select_files. rewrite relevant_files_nil; [reflexivity | ].
  eapply Forall_impl; [ | exact Hk]. intros kv H.
  now apply upper_frequency_irrelevant.
Qed.

(** X3. The frequency is matched as it stands.  With a frequency that has
    an upper-case letter, or with no frequency at all (the text [None]),
    no key of a lower-case catalogue is selected, whatever the dates:
    [download_meteo_file] returns the empty table after the catalogue
    query, without downloading any file. *)
Theorem upper_case_frequency_selects_nothing (P : Pandas) (w : World)
    (sid : string) (sd ed : pydate) (fr : option string) (log : list Request)
    (assets : list (string * string)) (more : list (list (string * string))) :
  has_upper (py_str fr) = true ->
  search w (py_lower sid) = Ok (assets :: more) ->
  Forall (fun kv => has_upper (fst kv) = false) assets ->
  select_files assets fr sd ed = Ok [] /\
  download_meteo_file P w sid sd ed fr log
  = (Ok empty_frame, log ++ [Search (py_lower sid)]).
Proof.
  intros Hf Hs Hk. pose proof (select_files_upper assets fr sd ed Hf Hk) as Hsel.
  split; [exact Hsel | ].
  unfold download_meteo_file, nbind at 1, request. rewrite Hs.
  unfold nbind at 1, nlift at 1. rewrite Hsel. reflexivity.
Qed.

(** With a [Timestamp] as end date [file_in_range] cannot answer yes: a key
    without ["historical_"] is refused and any other key raises. *)
Lemma file_in_range_stamp (sd : pydate) (t : Z) (k : string) (b : bool) :
  file_in_range sd (DateStamp t) k = Ok b -> b = false.
Proof.
  unfold file_in_range. destruct (py_contains "historical_" k); [ | congruence].
  destruct (py_split "-" (py_replace ".csv" "" (last (py_split "_" k) "")))
    as [ | a [ | c [ | ? ?]]]; try discriminate.
  destruct (py_int a); discriminate.
Qed.

Lemma rfilter_all_false {A : Type} (p : A -> result bool) (xs sel : list A) :
  (forall x b, p x = Ok b -> b = false) -> rfilter p xs = Ok sel -> sel = [].
Proof.
  intros Hp. revert sel. induction xs as [ | x xs IH]; intros sel; simpl.
  - congruence.
  - destruct (p x) as [b | e] eqn:Hx; [ | discriminate]. simpl.
    destruct (rfilter p xs) as [rest | e]; [ | discriminate]. simpl.
    rewrite (Hp x b Hx). intros [= <-]. now apply IH.
Qed.

Lemma py_int_raise (s : string) (e : exn) : py_int s = Raise e -> e = ValueError.
Proof.
  unfold py_int.
  destruct (match py_strip s with
            | String "+" r => int_digits r 0 false
            | String "-" r => option_map Z.opp (int_digits r 0 false)
            | _ => int_digits (py_strip s) 0 false
            end); congruence.
Qed.

Lemma file_in_range_stamp_raise (sd : pydate) (t : Z) (k : string) (e : exn) :
  file_in_range sd (DateStamp t) k = Raise e -> e = TypeError \/ e = ValueError.
Proof.
  unfold file_in_range. destruct (py_contains "historical_" k); [ | discriminate].
  destruct (py_split "-" (py_replace ".csv" "" (last (py_split "_" k) "")))
    as [ | a [ | c [ | ? ?]]]; try (intros [= <-]; now right).
  destruct (py_int a) as [z | e0] eqn:Ha; cbn [rbind year_prefix].
  - intros [= <-]. now left.
  - intros [= <-]. right. exact (py_int_raise a e0 Ha).
Qed.

Lemma rfilter_raise {A : Type} (p : A -> result bool) (xs : list A) (e : exn) :
  rfilter p xs = Raise e -> exists x, In x xs /\ p x = Raise e.
Proof.
  induction xs as [ | x xs IH]; cbn [rfilter]; [discriminate | ].
  intros H. apply rbind_raise_inv in H. destruct H as [H | [b [_ H]]].
  - exists x. split; [now left | exact H].
  - apply rbind_raise_inv in H. destruct H as [H | [r [_ H]]]; [ | discriminate].
    destruct (IH H) as [y [Hy Hp]]. exists y. split; [now right | exact Hp].
Qed.

Lemma select_files_stamp (assets : list (string * string)) (fr : option string)
    (sd : pydate) (t : Z) (sel : list (string * string)) :
  select_files assets fr sd (DateStamp t) = Ok sel -> sel = [].
Proof.
  unfold select_files. apply rfilter_all_false.
  intros kv b. apply file_in_range_stamp.
Qed.

Lemma download_meteo_file_stamp (P : Pandas) (w : World) (sid : string)
    (sd : pydate) (t : Z) (fr : option string) (log log' : list Request)
    (df : DataFrame) :
  download_meteo_file P w sid sd (DateStamp t) fr log = (Ok df, log') ->
  df = empty_frame.
Proof.
  unfold download_meteo_file, nbind at 1, request.
  destruct (search w (py_lower sid)) as [[ | assets more] | e]; try discriminate.
  - unfold nret. congruence.
  - unfold nbind at 1, nlift at 1.
    destruct (select_files assets fr sd (DateStamp t)) as [sel | e] eqn:Hsel;
      [ | discriminate].
    rewrite (select_files_stamp _ _ _ _ _ Hsel).
    unfold nbind. rewrite concat_meteo_items_nil. cbn. unfold nret. congruence.
Qed.

(** Dictionaries whose tables all are the empty table. *)
Lemma dict_set_all_empty (k : string) (d : list (string * DataFrame)) :
  Forall (fun kv => snd kv = empty_frame) d ->
  Forall (fun kv => snd kv = empty_frame) (dict_set k empty_frame d).
Proof.
  induction d as [ | [k0 v0] d IH]; simpl; intros H.
  - repeat constructor.
  - inversion H; subst. destruct (String.eqb k0 k); constructor; auto.
Qed.

Lemma load_stations_stamp (P : Pandas) (w : World) (cfg : config) (t : Z)
    (stations : Registry) :
  end_date cfg = DateStamp t ->
  forall meteo mg log meteo' mg' log',
    Forall (fun kv => snd kv = empty_frame) meteo ->
    Forall (fun kv => snd kv = empty_frame) mg ->
    nfold (load_station P w cfg) stations (meteo, mg) log = (Ok (meteo', mg'), log') ->
    Forall (fun kv => snd kv = empty_frame) meteo' /\
    Forall (fun kv => snd kv = empty_frame) mg'.
Proof.
  intros Hend. induction stations as [ | item rest IH];
    intros meteo mg log meteo' mg' log' Hm Hg.
  - cbn [nfold]. unfold nret. intros [= <- <- _]. now split.
  - cbn [nfold]. unfold nbind at 1. unfold load_station at 1. unfold nbind at 1.
    rewrite Hend.
    destruct (download_meteo_file P w (station_id (snd item)) (start_date cfg)
                (DateStamp t) (freq cfg) log) as [[df | e] log1] eqn:Hd;
      [ | discriminate].
    rewrite (download_meteo_file_stamp _ _ _ _ _ _ _ _ _ Hd).
    destruct (truthy (global_meteo cfg)).
    + destruct (weight (snd item)) as [wt | ]; [ | discriminate].
      unfold nret. apply IH; now apply dict_set_all_empty.
    + unfold nret. apply IH; [now apply dict_set_all_empty | exact Hg].
Qed.

Lemma concat_columns_all_empty (P : Pandas) (frames : list DataFrame) (g : DataFrame) :
  Forall (fun df => df = empty_frame) frames ->
  concat_columns P frames = Ok g -> g = empty_frame.
Proof.
  intros H. unfold concat_columns. destruct frames as [ | first rest]; [discriminate | ].
  assert (E : filter (fun df => negb (is_0x0 df)) (first :: rest) = []).
  { clear - H. induction H as [ | df l Hdf _ IH]; [reflexivity | ].
    subst df. simpl. exact IH. }
  rewrite E. inversion H; subst. intros [= <-]. reflexivity.
Qed.

Lemma concat_stations_all_empty (P : Pandas) (d : list (string * DataFrame))
    (ex : list string) :
  Forall (fun kv => df_empty (snd kv) = true) d ->
  concat_stations_horizontal P d ex = Ok empty_frame.
Proof.
  intros H. unfold concat_stations_horizontal.
  assert (E : flat_map (fun kv => if mem_string (fst kv) ex || df_empty (snd kv)
                                  then [] else [add_suffix (fst kv) (snd kv)]) d = []).
  { induction H as [ | kv l Hkv _ IH]; [reflexivity | ].
    simpl. rewrite Hkv, orb_true_r. exact IH. }
  now rewrite E.
Qed.

Lemma dict_set_df_empty (k : string) (v : DataFrame) (d : list (string * DataFrame)) :
  df_empty v = true ->
  Forall (fun kv => df_empty (snd kv) = true) d ->
  Forall (fun kv => df_empty (snd kv) = true) (dict_set k v d).
Proof.
  intros Hv. induction d as [ | [k0 v0] d IH]; simpl; intros H.
  - repeat constructor. exact Hv.
  - inversion H; subst. destruct (String.eqb k0 k); constructor; auto.
Qed.

(** X4. [config] keeps its dates as [Timestamp]s, and [file_in_range]
    slices the end date as text.  With a [Timestamp] as end date no file is
    ever selected: the selection is empty or raises [TypeError] (or the
    [ValueError] of a malformed file name), [download_meteo_file] returns
    the empty table or raises, and [load_meteo_file], whatever the
    registry, the flag and the network, raises or returns a table without
    any column. *)
Theorem timestamp_dates_load_nothing (P : Pandas) (w : World) (reg : Registry)
    (cfg : config) (t : Z) (log : list Request) :
  end_date cfg = DateStamp t ->
  (forall assets fr sd sel,
     select_files assets fr sd (DateStamp t) = Ok sel -> sel = []) /\
  (forall assets fr sd e,
     select_files assets fr sd (DateStamp t) = Raise e ->
     e = TypeError \/ e = ValueError) /\
  (forall sid log0 log1 df,
     download_meteo_file P w sid (start_date cfg) (end_date cfg) (freq cfg) log0
       = (Ok df, log1) -> df = empty_frame) /\
  (forall df log',
     load_meteo_file P w reg cfg log = (Ok df, log') ->
     columns df = [] /\ data df = []).
Proof.
  intros Hend.
  split; [intros assets fr sd sel; apply select_files_stamp | ].
  split; [ | split].
  - intros assets fr sd e H. unfold select_files in H.
    apply rfilter_raise in H. destruct H as [kv [_ H]].
    exact (file_in_range_stamp_raise sd t (fst kv) e H).
  - intros sid log0 log1 df. rewrite Hend. apply download_meteo_file_stamp.
  - intros df log'. unfold load_meteo_file, nbind at 1, nlift at 1.
    destruct (compute_station_weights reg) as [stations | e]; [ | discriminate].
    unfold nbind at 1.
    destruct (nfold (load_station P w cfg) stations ([], []) log)
      as [[[meteo mg] | e] log1] eqn:Hloop; [ | discriminate].
    destruct (load_stations_stamp P w cfg t stations Hend _ _ _ _ _ _
                (Forall_nil _) (Forall_nil _) Hloop) as [Hm Hg].
    unfold nbind at 1, nlift at 1, global_series.
    destruct (concat_columns P (values mg)) as [c | e] eqn:Hc; [ | discriminate].
    assert (c = empty_frame) as ->.
    { apply (concat_columns_all_empty P (values mg)); [ | exact Hc].
      unfold values. rewrite Forall_map. exact Hg. }
    cbn [rbind]. unfold nbind at 1, nlift at 1.
    rewrite concat_stations_all_empty.
    + unfold nbind, nlift, nret.
      destruct (write_station_csv w stations); [ | discriminate].
      intros [= <- _]. split; reflexivity.
    + apply dict_set_df_empty; [reflexivity | ].
      eapply Forall_impl; [ | exact Hm]. intros kv ->. reflexivity.
Qed.

Lemma timestamp_dates_load_nothing_witness :
  fst (download_meteo_file no_pandas silent_world "ABO" (start_date hourly_config)
         (end_date hourly_config) (freq hourly_config) []) = Ok empty_frame /\
  select_files station_catalogue (freq hourly_config) (start_date hourly_config)
               (end_date hourly_config) = Raise TypeError /\
  fst (load_meteo_file no_pandas catalogue_world two_without_population
         hourly_config []) = Raise TypeError.
Proof.
  split; [ | split; reflexivity].
  destruct (timestamp_dates_load_nothing no_pandas silent_world
              two_without_population hourly_config 1735603200 [] eq_refl)
    as [_ [_ [H _]]].
  destruct (download_meteo_file no_pandas silent_world "ABO" (start_date hourly_config)
              (end_date hourly_config) (freq hourly_config) [])
    as [[df | e] log1] eqn:E.
  - cbn [fst]. now rewrite (H "ABO" [] log1 df E).
  - vm_compute in E. discriminate E.
Defined.

Lemma download_meteo_file_requests_witness :
  snd (download_meteo_file no_pandas catalogue_world "ABO"
         (DateStr "2015-01-01") (DateStr "2022-12-31") (Some "h") [])
  = [Search "abo"; Fetch "late"; Fetch "early"].
Proof.
  exact (download_meteo_file_requests no_pandas catalogue_world "ABO"
           (DateStr "2015-01-01") (DateStr "2022-12-31") (Some "h") []
           station_catalogue []
           [("ogd-smn_abo_h_historical_2020-2029.csv", "late");
            ("ogd-smn_abo_h_historical_2010-2019.csv", "early")]
           eq_refl eq_refl).
Defined.

Lemma upper_case_frequency_selects_nothing_witness :
  download_meteo_file no_pandas catalogue_world "ABO"
    (DateStr "2015-01-01") (DateStr "2022-12-31") None []
  = (Ok empty_frame, [Search "abo"]) /\
  download_meteo_file no_pandas catalogue_world "ABO"
    (DateStr "2015-01-01") (DateStr "2022-12-31") (Some "H") []
  = (Ok empty_frame, [Search "abo"]).
Proof.
  split.
  - apply (upper_case_frequency_selects_nothing no_pandas catalogue_world "ABO"
             (DateStr "2015-01-01") (DateStr "2022-12-31") None []
             station_catalogue []); [reflexivity | reflexivity | ].
    repeat constructor.
  - apply (upper_case_frequency_selects_nothing no_pandas catalogue_world "ABO"
             (DateStr "2015-01-01") (DateStr "2022-12-31") (Some "H") []
             station_catalogue []); [reflexivity | reflexivity | ].
    repeat constructor.
Defined.

(* ------------------------------------------------------------------ *)
(** ** load_meteo_file: a station whose catalogue query fails *)
(* ------------------------------------------------------------------ *)

Lemma nfold_app {A S : Type} (body : S -> A -> Net S) (xs ys : list A) (acc : S)
    (log : list Request) :
  nfold body (xs ++ ys) acc log
  = match nfold body xs acc log with
    | (Ok acc', log') => nfold body ys acc' log'
    | (Raise e, log') => (Raise e, log')
    end.
Proof.
  revert acc log. induction xs as [ | x xs IH]; intros acc log; [reflexivity | ].
  cbn [app nfold]. unfold nbind.
  destruct (body acc x log) as [[acc' | e] log']; [apply IH | reflexivity].
Qed.

Lemma load_station_search_fails (P : Pandas) (w : World) (cfg : config)
    (acc : list (string * DataFrame) * list (string * DataFrame))
    (item : string * StationInfo) (log : list Request) (e : exn) :
  search w (py_lower (station_id (snd item))) = Raise e ->
  load_station P w cfg acc item log
  = (Raise e, log ++ [Search (py_lower (station_id (snd item)))]).
Proof.
  intros Hs. destruct acc as [meteo mg].
  unfold load_station, nbind at 1, download_meteo_file, nbind at 1, request.
  now rewrite Hs.
Qed.

(** X5. The catalogue query of a station is not guarded.  When it fails
    for one station, after the stations listed before it have been
    processed, [load_meteo_file] raises that exception at once: the query
    is the last request sent, and no later station is asked for. *)
Theorem failed_catalogue_query_aborts_load (P : Pandas) (w : World)
    (reg pre post : Registry) (item : string * StationInfo) (cfg : config)
    (acc : list (string * DataFrame) * list (string * DataFrame))
    (log log1 : list Request) (e : exn) :
  compute_station_weights reg = Ok (pre ++ item :: post) ->
  nfold (load_station P w cfg) pre ([], []) log = (Ok acc, log1) ->
  search w (py_lower (station_id (snd item))) = Raise e ->
  load_meteo_file P w reg cfg log
  = (Raise e, log1 ++ [Search (py_lower (station_id (snd item)))]).
Proof.
  intros Hw Hpre Hs. unfold load_meteo_file, nbind at 1, nlift at 1. rewrite Hw.
  unfold nbind at 1. rewrite nfold_app, Hpre. cbn [nfold]. unfold nbind at 1.
  now rewrite (load_station_search_fails P w cfg acc item log1 e Hs).
Qed.

Lemma failed_catalogue_query_aborts_load_witness :
  load_meteo_file no_pandas flaky_world three_stations hourly_config []
  = (Raise HTTPError, [Search "nor"; Search "sou"]).
Proof.
  pose (weighted := match compute_station_weights three_stations with
                    | Ok stations => stations
                    | Raise _ => []
                    end).
  pose (acc := fst (nfold (load_station no_pandas flaky_world hourly_config)
                      (firstn 1 weighted) ([], []) [])).
  exact (failed_catalogue_query_aborts_load no_pandas flaky_world three_stations
           (firstn 1 weighted) (skipn 2 weighted)
           (nth 1 weighted no_station)
           hourly_config
           (match acc with Ok a => a | Raise _ => ([], []) end)
           [] [Search "nor"] HTTPError eq_refl eq_refl eq_refl).
Defined.

(* ------------------------------------------------------------------ *)
(** ** config.set_freq *)
(* ------------------------------------------------------------------ *)


(* ------------------------------------------------------------------ *)
(** ** compute_station_weights: what a successful run returns *)
(* ------------------------------------------------------------------ *)

(** The third loop, station by station. *)
Lemma assign_weights_pointwise (all : Registry) (cantons : list (string * Q))
    (todo out : Registry) :
  assign_weights all cantons todo = Ok out ->
  Forall2 (fun a b =>
             fst b = fst a /\
             exists w cw, local_weight all (snd a) = Ok w /\
                          dict_get (canton (snd a)) cantons = Some cw /\
                          snd b = with_weight (snd a) (w * cw)%Q) todo out.
Proof.
  revert out. induction todo as [ | [name info] rest IH]; intros out H.
  - injection H as <-. constructor.
  - cbn [assign_weights] in H.
    destruct (local_weight all info) as [w | ] eqn:Hw; [ | discriminate].
    cbn [rbind] in H. unfold dict_item in H.
    destruct (dict_get (canton info) cantons) as [cw | ] eqn:Hc; [ | discriminate].
    cbn [rbind] in H.
    destruct (assign_weights all cantons rest) as [rest' | ] eqn:Hr; [ | discriminate].
    cbn [rbind] in H. injection H as <-.
    constructor; [ | apply IH; reflexivity].
    cbn [fst snd]. split; [reflexivity | ]. exists w, cw. auto.
Qed.

Lemma compute_station_weights_inv (reg reg' : Registry) :
  compute_station_weights reg = Ok reg' ->
  exists cantons tt cantons',
    canton_totals reg = Ok (cantons, tt) /\
    normalize_cantons cantons tt = Ok cantons' /\
    assign_weights reg cantons' reg = Ok reg'.
Proof.
  unfold compute_station_weights. intros H.
  destruct (canton_totals reg) as [[cantons tt] | ]; [ | discriminate].
  cbn [rbind] in H.
  destruct (normalize_cantons cantons tt) as [cantons' | ] eqn:Hn; [ | discriminate].
  cbn [rbind] in H. exists cantons, tt, cantons'. auto.
Qed.

Lemma weighted_from_pointwise (all : Registry) (cantons : list (string * Q))
    (todo out : Registry) :
  assign_weights all cantons todo = Ok out -> Forall2 weighted_from todo out.
Proof.
  intros H. apply assign_weights_pointwise in H.
  induction H as [ | a b l l' [Hn [w [cw [_ [_ Hb]]]]] _ IH]; constructor; [ | exact IH].
  split; [exact Hn | now exists (w * cw)%Q].
Qed.

(** X6. A successful run of [compute_station_weights] returns the
    stations of the registry under the same names and in the same order;
    each of them has received a weight, and none of its other fields has
    changed. *)
Theorem compute_station_weights_keeps_registry (reg reg' : Registry) :
  compute_station_weights reg = Ok reg' ->
  map fst reg' = map fst reg /\
  Forall2 (fun a b =>
             station_id (snd b) = station_id (snd a) /\
             canton (snd b) = canton (snd a) /\
             population (snd b) = population (snd a) /\
             district (snd b) = district (snd a) /\
             canton_pop (snd b) = canton_pop (snd a) /\
             weight (snd b) <> None) reg reg'.
Proof.
  intros H. destruct (compute_station_weights_inv reg reg' H)
    as [cantons [tt [cantons' [_ [_ Ha]]]]].
  apply weighted_from_pointwise in Ha. clear H.
  induction Ha as [ | a b l l' [Hn [q Hb]] _ [IH1 IH2]]; [split; constructor | ].
  split; [cbn [map]; now rewrite Hn, IH1 | ].
  constructor; [ | exact IH2]. rewrite Hb. cbn. repeat split; discriminate.
Qed.

Lemma compute_station_weights_keeps_registry_witness :
  exists reg',
    compute_station_weights station_to_canton = Ok reg' /\
    map fst reg' = map fst station_to_canton.
Proof.
  eexists. split; [vm_compute; reflexivity | ].
  apply (compute_station_weights_keeps_registry station_to_canton).
  vm_compute. reflexivity.
Defined.

(* ------------------------------------------------------------------ *)
(** ** compute_station_weights: a second call *)
(* ------------------------------------------------------------------ *)

Lemma canton_totals_weighted (reg reg' : Registry) (acc : list (string * Z) * Z) :
  Forall2 weighted_from reg reg' ->
  rfold canton_totals_step reg' acc = rfold canton_totals_step reg acc.
Proof.
  intros H. revert acc. induction H as [ | a b l l' [_ [q Hb]] _ IH]; intros acc;
    [reflexivity | ].
  cbn [rfold]. destruct acc as [cantons tt].
  assert (Hstep : canton_totals_step (cantons, tt) b = canton_totals_step (cantons, tt) a).
  { unfold canton_totals_step. rewrite Hb. reflexivity. }
  rewrite Hstep. destruct (canton_totals_step (cantons, tt) a); [apply IH | reflexivity].
Qed.

Lemma canton_tt_pop_weighted (c : string) (reg reg' : Registry) :
  Forall2 weighted_from reg reg' -> canton_tt_pop c reg' = canton_tt_pop c reg.
Proof.
  intros H. induction H as [ | [n a] [n' b] l l' [_ [q Hb]] _ IH]; [reflexivity | ].
  cbn [snd] in Hb. subst b. cbn [canton_tt_pop with_weight population canton].
  now rewrite IH.
Qed.

Lemma assign_weights_weighted (all all' : Registry) (cantons : list (string * Q))
    (todo todo' : Registry) :
  Forall2 weighted_from all all' -> Forall2 weighted_from todo todo' ->
  assign_weights all' cantons todo' = assign_weights all cantons todo.
Proof.
  intros Hall H. induction H as [ | [n a] [n' b] l l' [Hn [q Hb]] _ IH]; [reflexivity | ].
  cbn [fst snd] in Hn, Hb. subst n' b. cbn [assign_weights].
  assert (Hlw : local_weight all' (with_weight a q) = local_weight all a).
  { unfold local_weight. cbn [with_weight canton population].
    now rewrite (canton_tt_pop_weighted (canton a) all all' Hall). }
  rewrite Hlw, IH. reflexivity.
Qed.

(** X7. [compute_station_weights] can be called again on the registry it
    has returned: the second call succeeds and returns that registry
    unchanged, weights included. *)
Theorem compute_station_weights_idempotent (reg reg' : Registry) :
  compute_station_weights reg = Ok reg' ->
  compute_station_weights reg' = Ok reg'.
Proof.
  intros H. destruct (compute_station_weights_inv reg reg' H)
    as [cantons [tt [cantons' [Ht [Hn Ha]]]]].
  pose proof (weighted_from_pointwise reg cantons' reg reg' Ha) as Hw.
  unfold compute_station_weights, canton_totals.
  rewrite (canton_totals_weighted reg reg' ([], 0) Hw).
  unfold canton_totals in Ht. rewrite Ht. cbn [rbind]. rewrite Hn. cbn [rbind].
  rewrite (assign_weights_weighted reg reg' cantons' reg reg' Hw Hw). exact Ha.
Qed.

Lemma compute_station_weights_idempotent_witness :
  exists reg',
    compute_station_weights station_to_canton = Ok reg' /\
    compute_station_weights reg' = Ok reg'.
Proof.
  eexists. split; [vm_compute; reflexivity | ].
  apply (compute_station_weights_idempotent station_to_canton).
  vm_compute. reflexivity.
Defined.

(* ------------------------------------------------------------------ *)
(** ** compute_station_weights: a canton that reports in part *)
(* ------------------------------------------------------------------ *)




(* ------------------------------------------------------------------ *)
(** ** compute_station_weights: a station of the result and its source *)
(* ------------------------------------------------------------------ *)

Lemma Forall2_in_right {A B : Type} (R : A -> B -> Prop) (l : list A) (l' : list B)
    (b : B) :
  Forall2 R l l' -> In b l' -> exists a, In a l /\ R a b.
Proof.
  intros H. induction H as [ | a0 b0 l l' HR _ IH]; intros Hin; [destruct Hin | ].
  destruct Hin as [<- | Hin].
  - exists a0. split; [now left | exact HR].
  - destruct (IH Hin) as [a [Ha HRa]]. exists a. split; [now right | exact HRa].
Qed.

(* ------------------------------------------------------------------ *)
(** ** compute_station_weights: the range of the weights *)
(* ------------------------------------------------------------------ *)

Lemma dict_get_map {V W : Type} (g : V -> W) (d : list (string * V)) (k : string) :
  dict_get k (map (fun kv => (fst kv, g (snd kv))) d)
  = match dict_get k d with Some v => Some (g v) | None => None end.
Proof.
  induction d as [ | [k0 v0] d IH]; [reflexivity | ].
  cbn [map dict_get fst snd]. destruct (String.eqb k0 k); [reflexivity | exact IH].
Qed.

Lemma dict_get_some_in {V : Type} (d : list (string * V)) (k : string) (v : V) :
  dict_get k d = Some v -> In (k, v) d.
Proof.
  induction d as [ | [k0 v0] d IH]; [discriminate | ].
  cbn [dict_get]. destruct (String.eqb_spec k0 k) as [-> | _].
  - intros [= ->]. now left.
  - intros H. right. exact (IH H).
Qed.

Lemma zsum_bounds {A : Type} (f : A -> Z) (l : list A) (x : A) :
  (forall y, In y l -> 0 <= f y) -> In x l -> f x <= zsum f l /\ 0 <= zsum f l.
Proof.
  induction l as [ | y l IH]; intros Hpos Hin; [destruct Hin | ].
  cbn [zsum]. pose proof (Hpos y (or_introl eq_refl)) as Hy.
  assert (Hl : 0 <= zsum f l).
  { clear - Hpos. induction l as [ | z l IHl]; cbn [zsum]; [lia | ].
    pose proof (Hpos z (or_intror (or_introl eq_refl))).
    assert (0 <= zsum f l) by (apply IHl; intros y0 [<- | H0]; apply Hpos; simpl; auto).
    lia. }
  destruct Hin as [<- | Hin]; [lia | ].
  destruct (IH (fun y0 H0 => Hpos y0 (or_intror H0)) Hin). lia.
Qed.

Lemma fraction_range (a b : Z) :
  0 <= a <= b -> 0 < b -> (0 <= inject_Z a / inject_Z b /\ inject_Z a / inject_Z b <= 1)%Q.
Proof.
  intros Ha Hb.
  assert (Hb' : (0 < inject_Z b)%Q) by (unfold Qlt; simpl; lia).
  split.
  - apply Qle_shift_div_l; [exact Hb' | ].
    rewrite Qmult_0_l. change 0%Q with (inject_Z 0). rewrite <- Zle_Qle. lia.
  - apply Qle_shift_div_r; [exact Hb' | ].
    rewrite Qmult_1_l, <- Zle_Qle. lia.
Qed.

Lemma product_range (x y : Q) :
  (0 <= x /\ x <= 1)%Q -> (0 <= y /\ y <= 1)%Q -> (0 <= x * y /\ x * y <= 1)%Q.
Proof.
  intros [Hx0 Hx1] [Hy0 Hy1]. split.
  - apply Qmult_le_0_compat; assumption.
  - apply Qle_trans with (1 * y)%Q.
    + apply Qmult_le_compat_r; assumption.
    + now rewrite Qmult_1_l.
Qed.

(** X10. On a registry where every parent-region total is positive and no
    reported population is negative, every weight returned by
    [compute_station_weights] lies between 0 and 1. *)
Theorem weights_between_zero_and_one (reg reg' : Registry) (item : string * StationInfo) :
  (forall s, In s reg -> exists p, canton_pop (snd s) = Some p /\ 0 < p) ->
  (forall s p, In s reg -> population (snd s) = Some p -> 0 <= p) ->
  compute_station_weights reg = Ok reg' ->
  In item reg' ->
  exists w, weight (snd item) = Some w /\ (0 <= w /\ w <= 1)%Q.
Proof.
  intros Hpos Hnn H Hin.
  destruct (compute_station_weights_inv reg reg' H)
    as [cantons [tt [cantons' [Ht [Hn Ha]]]]].
  apply assign_weights_pointwise in Ha.
  destruct (Forall2_in_right _ _ _ item Ha Hin) as [a [Ha_in [_ [lw [cw [Hl [Hc Hb]]]]]]].
  exists (lw * cw)%Q. split; [rewrite Hb; reflexivity | ].
  apply product_range.
  - (* the share inside the canton *)
    unfold local_weight in Hl.
    destruct (Z.eqb_spec (canton_tt_pop (canton (snd a)) reg) 0) as [_ | Htt].
    + injection Hl as <-. split; [discriminate | apply Qle_refl].
    + destruct (population (snd a)) as [p | ] eqn:Hp; [ | discriminate].
      cbn [field rbind] in Hl. unfold py_div in Hl.
      rewrite (inject_Z_nonzero _ Htt) in Hl. injection Hl as <-.
      rewrite canton_tt_pop_sum in *.
      assert (Hrep : forall y, In y (stations_of (canton (snd a)) reg) -> 0 <= reported y).
      { intros y Hy. apply stations_of_canton in Hy. destruct Hy as [Hy _].
        unfold reported. destruct (population (snd y)) as [q | ] eqn:Hq; [ | lia].
        exact (Hnn y q Hy Hq). }
      assert (Hmem : In a (stations_of (canton (snd a)) reg))
        by (apply stations_of_canton; auto).
      destruct (zsum_bounds reported _ a Hrep Hmem) as [Hle H0].
      unfold reported at 1 in Hle. rewrite Hp in Hle.
      apply fraction_range; [ | lia]. split; [exact (Hnn a p Ha_in Hp) | exact Hle].
  - (* the share of the canton *)
    destruct (canton_totals_spec reg Hpos [] 0)
      as [cs [t [Hrun [Hsum [_ [_ Hps]]]]]].
    unfold canton_totals in Ht. rewrite Hrun in Ht. injection Ht as -> ->.
    specialize (Hps (Forall_nil _)). cbn [zsum] in Hsum.
    assert (Hcs : cantons <> []).
    { intros ->. cbn [normalize_cantons] in Hn. injection Hn as <-. discriminate. }
    assert (Hall : forall y, In y cantons -> 0 <= snd y).
    { intros y Hy. rewrite Forall_forall in Hps. specialize (Hps y Hy). lia. }
    assert (Htt0 : 0 < tt).
    { destruct cantons as [ | kv rest]; [congruence | ].
      rewrite Forall_forall in Hps. pose proof (Hps kv (or_introl eq_refl)).
      destruct (zsum_bounds snd (kv :: rest) kv Hall (or_introl eq_refl)). lia. }
    rewrite (normalize_cantons_ok cantons tt) in Hn by lia. injection Hn as <-.
    rewrite (dict_get_map (fun z => (inject_Z z / inject_Z tt)%Q)) in Hc.
    destruct (dict_get (canton (snd a)) cantons) as [v | ] eqn:Hv; [ | discriminate].
    injection Hc as <-. apply dict_get_some_in in Hv.
    destruct (zsum_bounds snd cantons _ Hall Hv) as [Hle _]. cbn [snd] in Hle.
    apply fraction_range; [ | exact Htt0].
    specialize (Hall _ Hv). cbn [snd] in Hall. lia.
Qed.

Lemma weights_between_zero_and_one_witness :
  exists w, weight (snd (nth 0 weighted_stations no_station)) = Some w /\
            (0 <= w /\ w <= 1)%Q.
Proof.
  apply (weights_between_zero_and_one station_to_canton weighted_stations).
  - intros s Hs. each_station Hs ltac:(eexists; split; [reflexivity | reflexivity]).
  - intros s p Hs Hp.
    each_station Hs ltac:(first [discriminate Hp | injection Hp as <-; discriminate]).
  - vm_compute. reflexivity.
  - left. reflexivity.
Defined.

(* ------------------------------------------------------------------ *)
(** ** compute_station_weights: the order of the weights in a canton *)
(* ------------------------------------------------------------------ *)

(** The weight of a canton is not negative when the totals are positive. *)
Lemma canton_weight_nonneg (reg : Registry) (cantons : list (string * Z)) (tt : Z)
    (cantons' : list (string * Q)) (c : string) (cw : Q) :
  (forall s, In s reg -> exists p, canton_pop (snd s) = Some p /\ 0 < p) ->
  canton_totals reg = Ok (cantons, tt) ->
  normalize_cantons cantons tt = Ok cantons' ->
  dict_get c cantons' = Some cw -> (0 <= cw)%Q.
Proof.
  intros Hpos Ht Hn Hc.
  destruct (canton_totals_spec reg Hpos [] 0) as [cs [t [Hrun [Hsum [_ [_ Hps]]]]]].
  unfold canton_totals in Ht. rewrite Hrun in Ht. injection Ht as -> ->.
  specialize (Hps (Forall_nil _)). cbn [zsum] in Hsum.
  assert (Hall : forall y, In y cantons -> 0 <= snd y).
  { intros y Hy. rewrite Forall_forall in Hps. specialize (Hps y Hy). lia. }
  destruct cantons as [ | kv rest] eqn:Ecs.
  - cbn [normalize_cantons] in Hn. injection Hn as <-. discriminate Hc.
  - rewrite <- Ecs in *.
    assert (Hkv : In kv cantons) by (rewrite Ecs; now left).
    assert (Htt0 : 0 < tt).
    { rewrite Forall_forall in Hps. pose proof (Hps kv Hkv).
      destruct (zsum_bounds snd cantons kv Hall Hkv). lia. }
    rewrite (normalize_cantons_ok cantons tt) in Hn by lia. injection Hn as <-.
    rewrite (dict_get_map (fun z => (inject_Z z / inject_Z tt)%Q)) in Hc.
    destruct (dict_get c cantons) as [v | ] eqn:Hv; [ | discriminate].
    injection Hc as <-. apply dict_get_some_in in Hv.
    destruct (zsum_bounds snd cantons _ Hall Hv) as [Hle _]. cbn [snd] in Hle.
    apply (fraction_range v tt); [ | exact Htt0].
    specialize (Hall _ Hv). cbn [snd] in Hall. lia.
Qed.

(** X9. On a registry where every parent-region total is positive and no
    reported population is negative, the weights that
    [compute_station_weights] returns follow the populations inside a
    canton: of two stations of one canton, the one with the smaller
    population never has the larger weight, and equal populations give
    equal weights. *)
Theorem weights_ordered_by_population (reg reg' : Registry)
    (s1 s2 : string * StationInfo) (p1 p2 : Z) (w1 w2 : Q) :
  (forall s, In s reg -> exists p, canton_pop (snd s) = Some p /\ 0 < p) ->
  (forall s p, In s reg -> population (snd s) = Some p -> 0 <= p) ->
  compute_station_weights reg = Ok reg' ->
  In s1 reg' -> In s2 reg' ->
  canton (snd s1) = canton (snd s2) ->
  population (snd s1) = Some p1 -> population (snd s2) = Some p2 ->
  weight (snd s1) = Some w1 -> weight (snd s2) = Some w2 ->
  (p1 <= p2 -> (w1 <= w2)%Q) /\ (p1 = p2 -> w1 = w2).
Proof.
  intros Hpos Hnn H H1 H2 Hc Hp1 Hp2 Hw1 Hw2.
  destruct (compute_station_weights_inv reg reg' H)
    as [cantons [tt [cantons' [Ht [Hn Ha]]]]].
  apply assign_weights_pointwise in Ha.
  destruct (Forall2_in_right _ _ _ s1 Ha H1) as [a1 [Hin1 [_ [l1 [c1 [Hl1 [Hc1 Hb1]]]]]]].
  destruct (Forall2_in_right _ _ _ s2 Ha H2) as [a2 [_ [_ [l2 [c2 [Hl2 [Hc2 Hb2]]]]]]].
  rewrite Hb1, Hb2 in *. cbn [with_weight canton population weight] in *.
  injection Hw1 as <-. injection Hw2 as <-.
  rewrite <- Hc in Hc2. rewrite Hc1 in Hc2. injection Hc2 as <-.
  pose proof (canton_weight_nonneg reg cantons tt cantons' _ c1 Hpos Ht Hn Hc1) as Hcw.
  unfold local_weight in Hl1, Hl2. rewrite <- Hc in Hl2.
  destruct (Z.eqb_spec (canton_tt_pop (canton (snd a1)) reg) 0) as [E | Htt].
  - injection Hl1 as <-. injection Hl2 as <-.
    split; [intros _; apply Qle_refl | reflexivity].
  - rewrite Hp1 in Hl1. rewrite Hp2 in Hl2. cbn [field rbind] in Hl1, Hl2.
    unfold py_div in Hl1, Hl2. rewrite (inject_Z_nonzero _ Htt) in Hl1, Hl2.
    injection Hl1 as <-. injection Hl2 as <-.
    split; [ | intros ->; reflexivity].
    intros Hle.
    assert (Hpos_tt : 0 < canton_tt_pop (canton (snd a1)) reg).
    { rewrite canton_tt_pop_sum in *.
      assert (Hrep : forall y, In y (stations_of (canton (snd a1)) reg) -> 0 <= reported y).
      { intros y Hy. apply stations_of_canton in Hy. destruct Hy as [Hy _].
        unfold reported. destruct (population (snd y)) as [q | ] eqn:Hq; [ | lia].
        exact (Hnn y q Hy Hq). }
      assert (Hmem : In a1 (stations_of (canton (snd a1)) reg))
        by (apply stations_of_canton; auto).
      destruct (zsum_bounds reported _ a1 Hrep Hmem) as [_ H0]. lia. }
    apply Qmult_le_compat_r; [ | exact Hcw].
    unfold Qdiv. apply Qmult_le_compat_r.
    + rewrite <- Zle_Qle. exact Hle.
    + apply Qinv_le_0_compat. change 0%Q with (inject_Z 0). rewrite <- Zle_Qle. lia.
Qed.

Lemma weights_ordered_by_population_witness :
  (station_weight (snd (nth 0 weighted_stations no_station))
   <= station_weight (snd (nth 1 weighted_stations no_station)))%Q.
Proof.
  apply (weights_ordered_by_population station_to_canton weighted_stations
           (nth 0 weighted_stations no_station) (nth 1 weighted_stations no_station)
           3340 10825).
  - intros s Hs. each_station Hs ltac:(eexists; split; [reflexivity | reflexivity]).
  - intros s p Hs Hp.
    each_station Hs ltac:(first [discriminate Hp | injection Hp as <-; discriminate]).
  - vm_compute. reflexivity.
  - left. reflexivity.
  - right. left. reflexivity.
  - reflexivity.
  - reflexivity.
  - reflexivity.
  - reflexivity.
  - reflexivity.
  - discriminate.
Defined.

(* ------------------------------------------------------------------ *)
(** ** concat_meteo_items: the shape of the result *)
(* ------------------------------------------------------------------ *)

(** The mapping of the module is a plain one. *)
Lemma variables_plain : plain_mapping variables.
Proof.
  unfold plain_mapping, variables. cbn [map fst snd].
  repeat split; try (repeat constructor; simpl; intuition discriminate);
    simpl; intuition discriminate.
Qed.

Lemma first_seen_from (names acc : list string) :
  NoDup acc ->
  NoDup (fold_left (fun a c => if mem_string c a then a else a ++ [c]) names acc) /\
  forall c, In c (fold_left (fun a c => if mem_string c a then a else a ++ [c]) names acc)
            <-> In c acc \/ In c names.
Proof.
  revert acc. induction names as [ | x names IH]; intros acc Hn; cbn [fold_left].
  - split; [exact Hn | ]. intros c. simpl. tauto.
  - destruct (mem_string x acc) eqn:Hx.
    + destruct (IH acc Hn) as [H1 H2]. split; [exact H1 | ].
      assert (Hin : In x acc).
      { unfold mem_string in Hx. apply existsb_exists in Hx.
        destruct Hx as [y [Hy Hxy]]. apply String.eqb_eq in Hxy. now rewrite Hxy. }
      intros c. rewrite H2. simpl. split; [tauto | ].
      intros [H | [E | H]]; [now left | left; now rewrite <- E | now right].
    + assert (Hn' : NoDup (acc ++ [x])).
      { apply NoDup_app; [exact Hn | repeat constructor; intros [] | ].
        intros y Hy [E | []]. subst y.
        assert (Ht : mem_string x acc = true).
        { unfold mem_string. apply existsb_exists. exists x.
          split; [exact Hy | apply String.eqb_refl]. }
        congruence. }
      destruct (IH (acc ++ [x]) Hn') as [H1 H2]. split; [exact H1 | ].
      intros c. rewrite H2, in_app_iff. simpl. tauto.
Qed.

Lemma first_seen_nodup (names : list string) :
  NoDup (first_seen names) /\ forall c, In c (first_seen names) <-> In c names.
Proof.
  destruct (first_seen_from names [] (NoDup_nil _)) as [H1 H2].
  split; [exact H1 | ]. intros c. unfold first_seen. rewrite H2. simpl. tauto.
Qed.

Lemma project_columns_projected (vars : list (string * string)) (df out : RawFrame) :
  vars <> [] -> project_columns vars df = Ok out ->
  projected out /\ forall c, In c (raw_columns out) -> In c (map snd vars).
Proof.
  intros Hv H. unfold project_columns in H.
  destruct vars as [ | kv0 vars0]; [congruence | ].
  set (vars := kv0 :: vars0) in *.
  destruct (has_timestamp df); [ | discriminate]. injection H as <-.
  split; [split; [reflexivity | ] | ].
  - cbn [raw_rows raw_columns]. apply Forall_forall. intros r Hr.
    apply in_map_iff in Hr. destruct Hr as [r0 [<- _]]. cbn [snd].
    now rewrite !length_map.
  - cbn [raw_columns]. intros c Hc. apply in_map_iff in Hc.
    destruct Hc as [kv [<- Hkv]].
    apply (filter_In (fun kv => mem_string (fst kv) (raw_columns df)) kv (kv0 :: vars0))
      in Hkv.
    apply in_map. tauto.
Qed.

Lemma succeeded_projected (w : World) (vars : list (string * string))
    (files : list (string * string)) :
  vars <> [] ->
  Forall (fun df => projected df /\
                    forall c, In c (raw_columns df) -> In c (map snd vars))
         (succeeded w vars files).
Proof.
  intros Hv. apply Forall_forall. intros df Hdf. unfold succeeded in Hdf.
  apply in_flat_map in Hdf. destruct Hdf as [kv [_ Hdf]].
  unfold file_result in Hdf.
  destruct (fetch w (snd kv)) as [raw | e]; cbn [rbind] in Hdf; [ | destruct Hdf].
  destruct (project_columns vars raw) as [out | e] eqn:Hp; [ | destruct Hdf].
  destruct Hdf as [<- | []]. exact (project_columns_projected vars raw out Hv Hp).
Qed.

Lemma dropna_rows_in (stamps : list (option Z)) (rows : list (option string * list cell))
    (p : Z * list cell) :
  In p (dropna_rows stamps rows) -> exists r, In r rows /\ snd r = snd p.
Proof.
  revert rows. induction stamps as [ | o stamps IH]; intros rows; [simpl; tauto | ].
  destruct rows as [ | r rows]; [destruct o; simpl; tauto | ].
  destruct o as [t | ]; cbn [dropna_rows].
  - intros [<- | H]; [exists r; split; [now left | reflexivity] | ].
    destruct (IH rows H) as [r0 [Hr0 E]]. exists r0. split; [now right | exact E].
  - intros H. destruct (IH rows H) as [r0 [Hr0 E]]. exists r0.
    split; [now right | exact E].
Qed.

(** X14. For a non-empty mapping of variables that leaves the timestamp
    column alone and gives distinct names, as the mapping of the module
    does, and whatever the files hold: a table that [concat_meteo_items]
    returns is the empty table or a table indexed by timestamps; it has
    as many rows as labels and as many cells in each row as columns; its
    column names are distinct and are names of the mapping. *)
Theorem concat_meteo_items_shape (w : World) (files : list (string * string))
    (vars : list (string * string)) (log log' : list Request) (df : DataFrame) :
  vars <> [] -> plain_mapping vars ->
  concat_meteo_items w files vars log = (Ok df, log') ->
  (df = empty_frame \/ exists ts, index df = DatetimeIndex ts) /\
  well_formed df /\
  NoDup (columns df) /\
  (forall c, In c (columns df) -> In c (map snd vars)).
Proof.
  intros Hv _ H. unfold concat_meteo_items, nbind in H.
  rewrite collect_files_succeeded in H.
  pose proof (succeeded_projected w vars files Hv) as Hs.
  destruct (succeeded w vars files) as [ | t0 rest].
  - injection H as <- _. split; [now left | ].
    split; [split; [reflexivity | constructor] | ]. split; [constructor | intros c []].
  - unfold nlift in H. injection H as H _.
    pose proof (Forall_inv Hs) as [[Hts0 _] _].
    remember (t0 :: rest) as tables eqn:Et.
    assert (Hin0 : In t0 tables) by (rewrite Et; now left). clear Et.
    assert (Hts : has_timestamp (concat_rows tables) = true).
    { unfold concat_rows. cbn [has_timestamp]. apply existsb_exists.
      exists t0. split; [exact Hin0 | exact Hts0]. }
    unfold index_by_timestamp in H. rewrite Hts in H.
    destruct (match to_datetime iso_format (map fst (raw_rows (concat_rows tables))) with
              | Ok stamps => Ok stamps
              | Raise _ => to_datetime dayfirst_format
                             (map fst (raw_rows (concat_rows tables)))
              end) as [stamps | e]; cbn [rbind] in H; [ | discriminate].
    injection H as <-.
    split; [right; eexists; reflexivity | ].
    destruct (first_seen_nodup (flat_map raw_columns tables)) as [Hnd Hmem].
    split; [split | split].
    + unfold nrows. cbn [data index]. now rewrite !length_map.
    + cbn [data]. unfold ncols. cbn [columns]. apply Forall_forall. intros row Hrow.
      apply in_map_iff in Hrow. destruct Hrow as [p [<- Hp]].
      apply dropna_rows_in in Hp. destruct Hp as [r [Hr <-]].
      unfold concat_rows in Hr. cbn [raw_rows] in Hr.
      apply in_flat_map in Hr. destruct Hr as [f [_ Hr]].
      apply in_map_iff in Hr. destruct Hr as [r0 [<- _]]. cbn [snd].
      unfold concat_rows. cbn [raw_columns]. now rewrite length_map.
    + exact Hnd.
    + cbn [columns]. unfold concat_rows. cbn [raw_columns]. intros c Hc.
      apply Hmem in Hc. apply in_flat_map in Hc. destruct Hc as [f [Hf Hc]].
      rewrite Forall_forall in Hs. destruct (Hs f Hf) as [_ Hsub]. exact (Hsub c Hc).
Qed.

Lemma concat_meteo_items_shape_witness :
  exists df,
    fst (concat_meteo_items wide_world [("a.csv", "a")] variables []) = Ok df /\
    well_formed df /\
    columns df = ["atmospheric_pressure"; "air_temperature"].
Proof.
  eexists. split; [vm_compute; reflexivity | ]. split; [ | reflexivity].
  apply (concat_meteo_items_shape wide_world [("a.csv", "a")] variables [] [Fetch "a"]).
  - discriminate.
  - exact variables_plain.
  - vm_compute. reflexivity.
Defined.

(* ------------------------------------------------------------------ *)
(** ** concat_meteo_items: the two timestamp formats *)
(* ------------------------------------------------------------------ *)

Lemma strp_cons_inv (d : directive) (fmt : list directive) (s : string)
    (acc f : fields) :
  strp (d :: fmt) s acc = Some f ->
  exists v rest, In (v, rest) (candidates d s) /\
                 strp fmt rest (set_field d v acc) = Some f.
Proof.
  cbn [strp]. induction (candidates d s) as [ | [v rest] more IH]; [discriminate | ].
  destruct (strp fmt rest (set_field d v acc)) as [f0 | ] eqn:E.
  - intros [= <-]. exists v, rest. split; [now left | exact E].
  - intros H. destruct (IH H) as [v' [rest' [Hin Hs]]].
    exists v', rest'. split; [now right | exact Hs].
Qed.

Lemma digit_not_dot (c : ascii) : is_digit c = true -> Ascii.eqb "." c = false.
Proof.
  destruct (Ascii.eqb_spec "."%char c) as [<- | _]; [discriminate | reflexivity].
Qed.

Lemma digit_not_blank (c : ascii) : is_digit c = true -> c <> " "%char.
Proof. intros H ->. discriminate H. Qed.

(** What follows the day of a string that starts with three digits
    starts with a digit. *)
Lemma day_of_digits (a b c : ascii) (r : string) (v : Z) (rest : string) :
  is_digit a = true -> is_digit b = true -> is_digit c = true ->
  In (v, rest) (candidates DDay (String a (String b (String c r)))) ->
  exists x r', rest = String x r' /\ is_digit x = true.
Proof.
  intros Ha Hb Hc Hin. cbn [candidates] in Hin.
  apply in_app_or in Hin. destruct Hin as [Hin | Hin].
  - unfold two_digits in Hin. rewrite Ha, Hb in Hin. cbn [andb] in Hin.
    destruct ((1 <=? 10 * digit_value a + digit_value b)
              && (10 * digit_value a + digit_value b <=? 31)); [ | destruct Hin].
    destruct Hin as [[= _ <-] | []]. eauto.
  - apply in_app_or in Hin. destruct Hin as [Hin | Hin].
    + unfold one_digit in Hin. rewrite Ha in Hin. cbn [andb] in Hin.
      destruct (1 <=? digit_value a); [ | destruct Hin].
      destruct Hin as [[= _ <-] | []]. eauto.
    + exfalso. apply (digit_not_blank a Ha).
      destruct a as [[ | ] [ | ] [ | ] [ | ] [ | ] [ | ] [ | ] [ | ]];
        try (destruct Hin; fail); reflexivity.
Qed.

(** No string is a timestamp in both formats. *)
Lemma formats_disjoint (s : string) (acc acc' f : fields) :
  strp iso_format s acc = Some f -> strp dayfirst_format s acc' = None.
Proof.
  intros Hiso. unfold iso_format in Hiso. apply strp_cons_inv in Hiso.
  destruct Hiso as [y [rest [Hin _]]]. cbn [candidates] in Hin.
  destruct s as [ | a [ | b [ | c [ | d r]]]]; try (destruct Hin; fail).
  unfold four_digits in Hin.
  destruct (is_digit a) eqn:Ha; [ | destruct Hin].
  destruct (is_digit b) eqn:Hb; [ | destruct Hin].
  destruct (is_digit c) eqn:Hc; [ | destruct Hin].
  clear Hin.
  destruct (strp dayfirst_format (String a (String b (String c (String d r)))) acc')
    as [g | ] eqn:E; [ | reflexivity].
  exfalso. unfold dayfirst_format in E. apply strp_cons_inv in E.
  destruct E as [v [rest' [Hday Hdot]]].
  destruct (day_of_digits a b c (String d r) v rest' Ha Hb Hc Hday) as [x [r' [-> Hx]]].
  apply strp_cons_inv in Hdot. destruct Hdot as [v' [rest'' [Hlit _]]].
  cbn [candidates] in Hlit. rewrite (digit_not_dot x Hx) in Hlit. destruct Hlit.
Qed.

Lemma parsed_is_no_nat (fmt : list directive) (s : string) (t : Z) :
  fmt = iso_format \/ fmt = dayfirst_format ->
  parse_timestamp fmt s = Some t -> is_nat_string s = false.
Proof.
  intros Hfmt Hp. destruct (is_nat_string s) eqn:E; [ | reflexivity].
  exfalso. unfold is_nat_string in E. apply existsb_exists in E.
  destruct E as [x [Hx Hsx]]. apply String.eqb_eq in Hsx. subst x.
  destruct Hfmt as [-> | ->];
    repeat (destruct Hx as [<- | Hx]; [vm_compute in Hp; discriminate Hp | ]);
    destruct Hx.
Qed.

Lemma to_datetime_raise_value (fmt : list directive) (col : list (option string))
    (e : exn) :
  to_datetime fmt col = Raise e -> e = ValueError.
Proof.
  induction col as [ | c col IH]; cbn [to_datetime]; [discriminate | ].
  intros H. apply rbind_raise_inv in H. destruct H as [H | [t [_ H]]].
  - destruct c as [s | ]; [ | discriminate].
    destruct (is_nat_string s); [discriminate | ].
    destruct (parse_timestamp fmt s); congruence.
  - apply rbind_raise_inv in H. destruct H as [H | [r [_ H]]];
      [exact (IH H) | discriminate].
Qed.

Lemma to_datetime_raises_value (fmt : list directive) (col : list (option string))
    (s : string) :
  In (Some s) col -> is_nat_string s = false -> parse_timestamp fmt s = None ->
  to_datetime fmt col = Raise ValueError.
Proof.
  intros Hin Hnat Hp. destruct (to_datetime_raises fmt col s Hin Hnat Hp) as [e He].
  now rewrite He, (to_datetime_raise_value fmt col e He).
Qed.

Lemma concat_rows_timestamp (tables : list RawFrame) (s : string) :
  In (Some s) (map fst (raw_rows (concat_rows tables))) ->
  has_timestamp (concat_rows tables) = true.
Proof.
  unfold concat_rows. cbn [raw_rows has_timestamp]. intros H.
  apply in_map_iff in H. destruct H as [r [Hs Hr]].
  apply in_flat_map in Hr. destruct Hr as [f [Hf Hr]].
  apply in_map_iff in Hr. destruct Hr as [r0 [<- _]]. cbn [fst] in Hs.
  apply existsb_exists. exists f. split; [exact Hf | ].
  destruct (has_timestamp f); [reflexivity | discriminate].
Qed.

(** X15. For a mapping of variables that leaves the timestamp column
    alone and gives distinct names, as the mapping of the module does, and
    whatever the files: when the rows collected by [concat_meteo_items]
    hold one timestamp in the ISO format and one in the day-first format,
    the call raises [ValueError].  No string is
    valid in both formats, each format is tried on the whole column, and
    the second attempt is not guarded: no row is dropped and no table is
    returned. *)
Theorem two_formats_in_one_table_raise (w : World) (files : list (string * string))
    (vars : list (string * string)) (log : list Request) (s1 s2 : string) (t1 t2 : Z) :
  plain_mapping vars ->
  In (Some s1) (map fst (raw_rows (concat_rows (succeeded w vars files)))) ->
  parse_timestamp iso_format s1 = Some t1 ->
  In (Some s2) (map fst (raw_rows (concat_rows (succeeded w vars files)))) ->
  parse_timestamp dayfirst_format s2 = Some t2 ->
  parse_timestamp dayfirst_format s1 = None /\
  parse_timestamp iso_format s2 = None /\
  concat_meteo_items w files vars log
  = (Raise ValueError, log ++ map (fun kv => Fetch (snd kv)) files).
Proof.
  intros _ H1 P1 H2 P2.
  assert (D1 : parse_timestamp dayfirst_format s1 = None).
  { unfold parse_timestamp in *.
    destruct (strp iso_format s1 no_fields) as [f | ] eqn:E; [ | discriminate].
    now rewrite (formats_disjoint s1 no_fields no_fields f E). }
  assert (D2 : parse_timestamp iso_format s2 = None).
  { unfold parse_timestamp in *.
    destruct (strp iso_format s2 no_fields) as [f | ] eqn:E; [ | reflexivity].
    rewrite (formats_disjoint s2 no_fields no_fields f E) in P2. discriminate. }
  split; [exact D1 | ]. split; [exact D2 | ].
  pose proof (parsed_is_no_nat iso_format s1 t1 (or_introl eq_refl) P1) as N1.
  pose proof (parsed_is_no_nat dayfirst_format s2 t2 (or_intror eq_refl) P2) as N2.
  unfold concat_meteo_items, nbind. rewrite collect_files_succeeded.
  pose proof (concat_rows_timestamp _ s1 H1) as Hts.
  destruct (succeeded w vars files) as [ | t0 rest] eqn:E; [destruct H1 | ].
  rewrite <- E in *. unfold nlift. f_equal.
  unfold index_by_timestamp. rewrite Hts.
  rewrite (to_datetime_raises_value iso_format _ s2 H2 N2 D2).
  rewrite (to_datetime_raises_value dayfirst_format _ s1 H1 N1 D1).
  reflexivity.
Qed.

Lemma two_formats_in_one_table_raise_witness :
  concat_meteo_items files_world [("file.csv", "mixed")] variables []
  = (Raise ValueError, [Fetch "mixed"]).
Proof.
  apply (two_formats_in_one_table_raise files_world [("file.csv", "mixed")] variables []
           "2020-03-01T15:00:00" "01.03.2020 14:00" 1583074800 1583071200).
  - exact variables_plain.
  - right. left. reflexivity.
  - reflexivity.
  - left. reflexivity.
  - reflexivity.
Defined.

(* ------------------------------------------------------------------ *)
(** ** concat_stations_horizontal: columns and values *)
(* ------------------------------------------------------------------ *)

Lemma string_length_append (a b : string) :
  String.length (a ++ b) = (String.length a + String.length b)%nat.
Proof. induction a as [ | x a IH]; simpl; [reflexivity | now rewrite IH]. Qed.

Lemma append_cancel_r (a b s : string) : (a ++ s = b ++ s)%string -> a = b.
Proof.
  revert b. induction a as [ | x a IH]; intros [ | y b] H; simpl in H.
  - reflexivity.
  - apply (f_equal String.length) in H. simpl in H.
    rewrite string_length_append in H. lia.
  - apply (f_equal String.length) in H. simpl in H.
    rewrite string_length_append in H. lia.
  - injection H as -> H. now rewrite (IH b H).
Qed.

Lemma lookup_cell_suffix (sid : string) (cols : list string) (row : list cell)
    (c : string) :
  lookup_cell (map (merged_name sid) cols) row (merged_name sid c)
  = lookup_cell cols row c.
Proof.
  revert row. induction cols as [ | x cols IH]; intros [ | v row]; try reflexivity.
  cbn [map lookup_cell].
  destruct (String.eqb_spec x c) as [-> | Hne].
  - now rewrite String.eqb_refl.
  - destruct (String.eqb_spec (merged_name sid x) (merged_name sid c)) as [E | _];
      [ | apply IH].
    apply append_cancel_r in E. contradiction.
Qed.

Lemma lookup_cell_app_l (cols1 cols2 : list string) (row1 row2 : list cell) (v : string) :
  List.length row1 = List.length cols1 -> In v cols1 ->
  lookup_cell (cols1 ++ cols2) (row1 ++ row2) v = lookup_cell cols1 row1 v.
Proof.
  revert row1. induction cols1 as [ | c cols1 IH]; intros [ | x row1] Hlen Hin;
    simpl in Hlen; try discriminate; [destruct Hin | ].
  cbn [app lookup_cell]. destruct (String.eqb_spec c v) as [-> | Hne]; [reflexivity | ].
  destruct Hin as [-> | Hin]; [congruence | ]. apply IH; [lia | exact Hin].
Qed.

Lemma lookup_cell_app_r (cols1 cols2 : list string) (row1 row2 : list cell) (v : string) :
  List.length row1 = List.length cols1 -> ~ In v cols1 ->
  lookup_cell (cols1 ++ cols2) (row1 ++ row2) v = lookup_cell cols2 row2 v.
Proof.
  revert row1. induction cols1 as [ | c cols1 IH]; intros [ | x row1] Hlen Hin;
    simpl in Hlen; try discriminate; [reflexivity | ].
  cbn [app lookup_cell]. destruct (String.eqb_spec c v) as [-> | Hne].
  - exfalso. apply Hin. now left.
  - apply IH; [lia | ]. intros H. apply Hin. now right.
Qed.

Lemma nodup_app_disjoint (a b : list string) (v : string) :
  NoDup (a ++ b) -> In v a -> In v b -> False.
Proof.
  induction a as [ | c a IH]; intros Hn Ha Hb; [destruct Ha | ].
  cbn [app] in Hn. inversion Hn as [ | ? ? Hnotin Hn']; subst.
  destruct Ha as [-> | Ha]; [ | exact (IH Hn' Ha Hb)].
  apply Hnotin. apply in_or_app. now right.
Qed.

(** In the aligned row, a column name that occurs once leads to the cell
    of the table that has it. *)
Lemma aligned_row_lookup (frames : list DataFrame) (f : DataFrame) (t : Z) (v : string) :
  Forall (fun df => Forall (fun row => List.length row = ncols df) (data df)) frames ->
  NoDup (flat_map columns frames) ->
  In f frames -> In v (columns f) ->
  lookup_cell (flat_map columns frames) (aligned_row frames t) v = station_value f t v.
Proof.
  intros Hw. induction Hw as [ | g rest Hg _ IH]; intros Hn Hf Hv; [destruct Hf | ].
  unfold aligned_row in *. cbn [flat_map] in *.
  pose proof (row_at_length (timestamps g) (data g) (ncols g) t Hg) as Hlen.
  destruct (in_dec string_dec v (columns g)) as [Hvg | Hvg].
  - rewrite (lookup_cell_app_l _ _ _ _ v Hlen Hvg).
    destruct Hf as [<- | Hf]; [reflexivity | ].
    exfalso. apply (nodup_app_disjoint _ _ v Hn Hvg).
    apply in_flat_map. exists f. split; assumption.
  - rewrite (lookup_cell_app_r _ _ _ _ v Hlen Hvg).
    destruct Hf as [<- | Hf]; [contradiction | ].
    apply IH; [ | exact Hf | exact Hv]. exact (NoDup_app_remove_l _ _ Hn).
Qed.

(** The tables that [concat_stations_horizontal] hands to [pd.concat]. *)
Lemma dfs_to_concat_taking_part (meteo_dict : list (string * DataFrame))
    (exclude_keys : list string) :
  flat_map (fun kv =>
      if mem_string (fst kv) exclude_keys || df_empty (snd kv) then []
      else [add_suffix (fst kv) (snd kv)]) meteo_dict
  = map (fun kv => add_suffix (fst kv) (snd kv))
        (filter (taking_part exclude_keys) meteo_dict).
Proof.
  induction meteo_dict as [ | kv rest IH]; [reflexivity | ].
  cbn [flat_map filter]. rewrite IH. unfold taking_part at 2.
  destruct (mem_string (fst kv) exclude_keys || df_empty (snd kv)); reflexivity.
Qed.

(** [pd.concat] with [axis=1] on tables that have rows and columns, are
    indexed by timestamps without a repeated one and have as many rows
    as labels. *)
Lemma concat_columns_aligned (P : Pandas) (dfs : list DataFrame) :
  dfs <> [] ->
  Forall (fun df => is_0x0 df = false /\
                    (exists ts, index df = DatetimeIndex ts /\ NoDup ts) /\
                    List.length (data df) = nrows df) dfs ->
  concat_columns P dfs
  = Ok (mkFrame (DatetimeIndex (union_indexes (map timestamps dfs)))
                (flat_map columns dfs)
                (map (aligned_row dfs) (union_indexes (map timestamps dfs)))).
Proof.
  intros Hne H. unfold concat_columns.
  destruct dfs as [ | first others]; [congruence | ].
  set (dfs := first :: others) in *.
  rewrite (filter_all _ dfs).
  2:{ eapply Forall_impl; [ | exact H]. intros df [E _]. now rewrite E. }
  unfold dfs at 1 2. cbv iota. fold dfs.
  rewrite (all_datetime_timestamps dfs).
  2:{ eapply Forall_impl; [ | exact H]. intros df [_ [[ts [E _]] _]]. eauto. }
  cbv beta iota zeta. rewrite map_map. cbn [fst].
  change (map (fun x : DataFrame => timestamps x) dfs) with (map timestamps dfs).
  rewrite (reindex_all_rows (union_indexes (map timestamps dfs)) dfs).
  - reflexivity.
  - eapply Forall_impl; [ | exact H]. intros df [_ [[ts [E Hn]] Hlen]].
    unfold timestamps, nrows in *. rewrite E in *. auto.
Qed.

(** X12. When the stations that take part have well-formed tables indexed
    by increasing timestamps, [concat_stations_horizontal] returns a table
    whose columns are, station after station in the order of the
    dictionary, the columns of the station under the name
    [<column>_<station>]; an excluded or empty station adds none.  When
    these names are distinct, the merged table holds under
    [<column>_<station>], at every one of its timestamps, what the station
    holds under [<column>] at that timestamp (nothing when the station
    has no row there), and every timestamp of the station is one of the
    merged table. *)
Theorem merged_table_keeps_values (P : Pandas)
    (meteo_dict : list (string * DataFrame)) (exclude_keys : list string) :
  (forall sid df, In (sid, df) meteo_dict -> taking_part exclude_keys (sid, df) = true ->
     (exists ts, index df = DatetimeIndex ts /\ increasing ts) /\ well_formed df) ->
  exists out,
    concat_stations_horizontal P meteo_dict exclude_keys = Ok out /\
    columns out
    = flat_map (fun kv => map (merged_name (fst kv)) (columns (snd kv)))
               (filter (taking_part exclude_keys) meteo_dict) /\
    (NoDup (columns out) ->
     forall sid df c t,
       In (sid, df) meteo_dict -> taking_part exclude_keys (sid, df) = true ->
       In c (columns df) ->
       (In t (timestamps df) -> In t (timestamps out)) /\
       (In t (timestamps out) ->
        station_value out t (merged_name sid c) = station_value df t c)).
Proof.
  intros Hok. unfold concat_stations_horizontal.
  rewrite dfs_to_concat_taking_part.
  set (part := filter (taking_part exclude_keys) meteo_dict).
  assert (Hpart : forall kv, In kv part ->
            In kv meteo_dict /\ taking_part exclude_keys kv = true)
    by (intros kv Hkv; apply filter_In in Hkv; exact Hkv).
  assert (Hpart' : forall kv, In kv meteo_dict -> taking_part exclude_keys kv = true ->
                              In kv part)
    by (intros kv H1 H2; apply filter_In; auto).
  set (dfs := map (fun kv => add_suffix (fst kv) (snd kv)) part).
  assert (Hcols : flat_map columns dfs
                  = flat_map (fun kv => map (merged_name (fst kv)) (columns (snd kv))) part).
  { unfold dfs. clear. induction part as [ | kv l IH]; [reflexivity | ].
    cbn [map flat_map]. now rewrite IH. }
  assert (F : Forall (fun df => is_0x0 df = false /\
                        (exists ts, index df = DatetimeIndex ts /\ NoDup ts) /\
                        List.length (data df) = nrows df) dfs).
  { apply Forall_forall. intros df Hdf.
    apply in_map_iff in Hdf. destruct Hdf as [[sid df0] [<- Hkv]].
    destruct (Hpart _ Hkv) as [Hin Htp].
    destruct (Hok sid df0 Hin Htp) as [[ts [Hidx Hinc]] [Hlen _]].
    cbn [fst snd]. split; [ | split].
    - unfold taking_part in Htp. cbn [fst snd] in Htp.
      apply negb_true_iff, orb_false_iff in Htp. destruct Htp as [_ He].
      unfold df_empty in He. apply orb_false_iff in He. destruct He as [He _].
      unfold is_0x0. change (nrows (add_suffix sid df0)) with (nrows df0).
      now rewrite He.
    - exists ts. split; [exact Hidx | exact (increasing_nodup ts Hinc)].
    - exact Hlen. }
  assert (Fw : Forall (fun df => Forall (fun row => List.length row = ncols df) (data df)) dfs).
  { apply Forall_forall. intros df Hdf.
    apply in_map_iff in Hdf. destruct Hdf as [[sid df0] [<- Hkv]].
    destruct (Hpart _ Hkv) as [Hin Htp].
    destruct (Hok sid df0 Hin Htp) as [_ [_ Hrows]].
    cbn [fst snd add_suffix data]. unfold ncols. cbn [columns add_suffix].
    rewrite length_map. exact Hrows. }
  assert (Finc : Forall increasing (map timestamps dfs)).
  { apply Forall_forall. intros ts Hts.
    apply in_map_iff in Hts. destruct Hts as [df [<- Hdf]].
    apply in_map_iff in Hdf. destruct Hdf as [[sid df0] [<- Hkv]].
    destruct (Hpart _ Hkv) as [Hin Htp].
    destruct (Hok sid df0 Hin Htp) as [[ts [Hidx Hinc]] _].
    unfold timestamps. cbn [fst snd add_suffix index]. now rewrite Hidx. }
  assert (Hd : forall sid df, In (sid, df) meteo_dict ->
            taking_part exclude_keys (sid, df) = true -> In (add_suffix sid df) dfs).
  { intros sid df Hin Htp. apply in_map_iff. exists (sid, df).
    split; [reflexivity | exact (Hpart' _ Hin Htp)]. }
  clearbody dfs.
  destruct dfs as [ | first others] eqn:Edfs.
  - exists empty_frame. split; [reflexivity | ]. split; [exact Hcols | ].
    intros _ sid df c t Hin Htp Hc. destruct (Hd sid df Hin Htp).
  - rewrite <- Edfs in *.
    assert (Hdfs : dfs <> []) by (rewrite Edfs; discriminate).
    replace (match dfs with [] => Ok empty_frame | _ :: _ => concat_columns P dfs end)
      with (concat_columns P dfs) by (rewrite Edfs; reflexivity).
    rewrite (concat_columns_aligned P dfs Hdfs F).
    eexists. split; [reflexivity | ]. cbn [columns]. split; [exact Hcols | ].
    intros Hn sid df c t Hin Htp Hc.
    destruct (union_indexes_increasing _ Finc) as [_ Hmem].
    specialize (Hd sid df Hin Htp).
    split.
    + intros Ht. unfold timestamps at 1. cbn [index]. apply Hmem.
      exists (timestamps df). split; [ | exact Ht].
      apply in_map_iff. exists (add_suffix sid df). split; [reflexivity | exact Hd].
    + unfold timestamps at 1. cbn [index]. intros Ht.
      unfold station_value at 1. unfold timestamps at 1, ncols at 1.
      cbn [index columns data].
      rewrite (row_at_map (aligned_row dfs) _ _ t Ht).
      rewrite (aligned_row_lookup dfs (add_suffix sid df) t (merged_name sid c) Fw Hn Hd).
      * unfold station_value. cbn [add_suffix columns data].
        change (timestamps (add_suffix sid df)) with (timestamps df).
        unfold ncols. cbn [columns add_suffix]. rewrite length_map.
        apply (lookup_cell_suffix sid).
      * cbn [add_suffix columns]. apply in_map_iff. exists c. split; [reflexivity | exact Hc].
Qed.

Lemma merged_table_keeps_values_witness :
  exists out,
    concat_stations_horizontal no_pandas station_tables [] = Ok out /\
    columns out = ["air_temperature_ABO"; "air_temperature_BER"] /\
    station_value out 1583078400 "air_temperature_BER" = Some 4%Q /\
    station_value out 1583078400 "air_temperature_ABO" = None.
Proof.
  destruct (merged_table_keeps_values no_pandas station_tables [])
    as [out [Hout [Hcols Hvals]]].
  - intros sid df [[= <- <-] | [[= <- <-] | [[= <- <-] | []]]] Htp;
      try discriminate Htp;
      (split; [eexists; split; [reflexivity | repeat constructor]
              | split; [reflexivity | repeat constructor]]).
  - exists out. split; [exact Hout | ]. split; [exact Hcols | ].
    assert (Hn : NoDup (columns out)).
    { rewrite Hcols. repeat constructor; simpl; intuition discriminate. }
    split.
    + destruct (Hvals Hn "BER" _ "air_temperature" 1583078400
                  (or_intror (or_intror (or_introl eq_refl))) eq_refl (or_introl eq_refl))
        as [Hin Hval].
      exact (Hval (Hin (or_intror (or_introl eq_refl)))).
    + destruct (Hvals Hn "BER" _ "air_temperature" 1583078400
                  (or_intror (or_intror (or_introl eq_refl))) eq_refl (or_introl eq_refl))
        as [Hin _].
      destruct (Hvals Hn "ABO" _ "air_temperature" 1583078400
                  (or_introl eq_refl) eq_refl (or_introl eq_refl))
        as [_ Hval].
      exact (Hval (Hin (or_intror (or_introl eq_refl)))).
Defined.

(* ------------------------------------------------------------------ *)
(** ** dropna(axis=1, how='all') *)
(* ------------------------------------------------------------------ *)

Lemma lookup_cell_absent (cols : list string) (row : list cell) (v : string) :
  ~ In v cols -> lookup_cell cols row v = None.
Proof.
  revert row. induction cols as [ | c cols IH]; intros [ | x row] Hv; try reflexivity.
  cbn [lookup_cell]. destruct (String.eqb_spec c v) as [-> | _].
  - exfalso. apply Hv. now left.
  - apply IH. intros H. apply Hv. now right.
Qed.

Lemma lookup_cell_repeat (cols : list string) (n : nat) (v : string) :
  lookup_cell cols (repeat None n) v = None.
Proof.
  revert n. induction cols as [ | c cols IH]; intros [ | n]; try reflexivity.
  cbn [repeat lookup_cell]. destruct (String.eqb c v); [reflexivity | apply IH].
Qed.

Lemma lookup_cell_select_repeat (cols : list string) (mask : list bool) (n : nat)
    (v : string) :
  lookup_cell cols (select mask (repeat None n)) v = None.
Proof.
  revert cols n. induction mask as [ | b mask IH]; intros cols [ | n];
    cbn [repeat select]; try (destruct cols; reflexivity).
  destruct b; [ | apply IH].
  destruct cols as [ | c cols]; [reflexivity | ]. cbn [lookup_cell].
  destruct (String.eqb c v); [reflexivity | apply IH].
Qed.

Lemma select_in {A : Type} (mask : list bool) (l : list A) (x : A) :
  In x (select mask l) -> In x l.
Proof.
  revert l. induction mask as [ | b mask IH]; intros [ | y l]; simpl; try tauto.
  destruct b; simpl; intros H; [destruct H as [H | H]; [now left | ] | ];
    right; exact (IH l H).
Qed.

Lemma select_map_filter {A : Type} (p : A -> bool) (l : list A) :
  select (map p l) l = filter p l.
Proof.
  induction l as [ | x l IH]; [reflexivity | ].
  cbn [map select filter]. rewrite IH. reflexivity.
Qed.

(** Row and mask zipped, for distinct column names. *)
Lemma combine_lookup {B : Type} (F : cell * bool -> B) (g : string -> bool)
    (cols : list string) (row : list cell) :
  NoDup cols -> List.length row = List.length cols ->
  map F (combine row (map g cols))
  = map (fun v => F (lookup_cell cols row v, g v)) cols.
Proof.
  revert row. induction cols as [ | c cols IH]; intros [ | x row] Hn Hlen;
    simpl in Hlen; try discriminate; [reflexivity | ].
  inversion Hn as [ | ? ? Hnotin Hn']; subst.
  cbn [map combine lookup_cell]. rewrite String.eqb_refl. f_equal.
  rewrite (IH row Hn') by lia. apply map_ext_in. intros v Hv.
  destruct (String.eqb_spec c v) as [-> | _]; [contradiction | reflexivity].
Qed.

(** The mask of [dropna], column by column. *)
Lemma column_mask_has_value (df : DataFrame) :
  NoDup (columns df) -> well_formed df ->
  column_mask (ncols df) (data df) = map (has_value df) (columns df).
Proof.
  intros Hn [_ Hw]. unfold has_value, ncols in *.
  induction (data df) as [ | r rows IH].
  - cbn [column_mask existsb]. clear. induction (columns df) as [ | c cs IHc];
      [reflexivity | ]. simpl. f_equal. exact IHc.
  - inversion Hw as [ | ? ? Hr Hrows]; subst.
    cbn [column_mask]. rewrite (IH Hrows).
    rewrite (combine_lookup _ _ (columns df) r Hn Hr).
    apply map_ext. intros v. cbn [fst snd existsb].
    destruct (lookup_cell (columns df) r v); reflexivity.
Qed.

(** Dropping columns that hold no value in a row does not change what the
    row holds. *)
Lemma lookup_cell_select (p : string -> bool) (cols : list string) (row : list cell)
    (v : string) :
  NoDup cols -> List.length row = List.length cols ->
  (forall c, In c cols -> p c = false -> lookup_cell cols row c = None) ->
  lookup_cell (select (map p cols) cols) (select (map p cols) row) v
  = lookup_cell cols row v.
Proof.
  revert row. induction cols as [ | c cols IH]; intros [ | x row] Hn Hlen Hp;
    simpl in Hlen; try discriminate; [reflexivity | ].
  inversion Hn as [ | ? ? Hnotin Hn']; subst.
  assert (Hrest : forall c0, In c0 cols -> p c0 = false -> lookup_cell cols row c0 = None).
  { intros c0 Hc0 Hpc. specialize (Hp c0 (or_intror Hc0) Hpc).
    cbn [lookup_cell] in Hp.
    destruct (String.eqb_spec c c0) as [-> | _]; [contradiction | exact Hp]. }
  cbn [map select]. destruct (p c) eqn:Hpc.
  - cbn [lookup_cell]. destruct (String.eqb c v); [reflexivity | ].
    apply IH; [exact Hn' | lia | exact Hrest].
  - rewrite (IH row Hn') by (lia || exact Hrest).
    cbn [lookup_cell]. destruct (String.eqb_spec c v) as [-> | _]; [ | reflexivity].
    specialize (Hp v (or_introl eq_refl) Hpc). cbn [lookup_cell] in Hp.
    rewrite String.eqb_refl in Hp. rewrite Hp.
    now apply lookup_cell_absent.
Qed.

Lemma has_value_false (df : DataFrame) (row : list cell) (v : string) :
  In row (data df) -> has_value df v = false -> lookup_cell (columns df) row v = None.
Proof.
  unfold has_value. intros Hin H.
  destruct (lookup_cell (columns df) row v) as [q | ] eqn:E; [ | reflexivity].
  exfalso. assert (Ht : existsb (fun row0 => match lookup_cell (columns df) row0 v with
                                       | Some _ => true | None => false end) (data df)
                        = true).
  { apply existsb_exists. exists row. split; [exact Hin | now rewrite E]. }
  congruence.
Qed.

Lemma row_at_in (ts : list Z) (rows : list (list cell)) (n : nat) (t : Z) :
  In (row_at ts rows n t) rows \/ row_at ts rows n t = repeat None n.
Proof.
  revert rows. induction ts as [ | x ts IH]; intros [ | r rows]; cbn [row_at]; auto.
  destruct (x =? t); [left; now left | ].
  destruct (IH rows) as [H | H]; [left; now right | now right].
Qed.

Lemma row_at_select (mask : list bool) (ts : list Z) (rows : list (list cell))
    (n m : nat) (t : Z) :
  row_at ts (map (select mask) rows) m t = select mask (row_at ts rows n t) \/
  (row_at ts (map (select mask) rows) m t = repeat None m /\
   row_at ts rows n t = repeat None n).
Proof.
  revert rows. induction ts as [ | x ts IH]; intros [ | r rows]; cbn [map row_at]; auto.
  destruct (x =? t); [now left | apply IH].
Qed.

Lemma dropna_columns_names (df : DataFrame) :
  NoDup (columns df) -> well_formed df ->
  columns (dropna_columns df) = filter (has_value df) (columns df).
Proof.
  intros Hn Hwf. unfold dropna_columns. cbn [columns].
  rewrite (column_mask_has_value df Hn Hwf). apply select_map_filter.
Qed.

Lemma dropna_columns_row (df : DataFrame) (row : list cell) (v : string) :
  NoDup (columns df) -> well_formed df -> In row (data df) ->
  lookup_cell (columns (dropna_columns df))
              (select (column_mask (ncols df) (data df)) row) v
  = lookup_cell (columns df) row v.
Proof.
  intros Hn Hwf Hin. unfold dropna_columns. cbn [columns].
  rewrite (column_mask_has_value df Hn Hwf). destruct Hwf as [_ Hw].
  rewrite Forall_forall in Hw.
  apply lookup_cell_select; [exact Hn | exact (Hw row Hin) | ].
  intros c _ Hc. exact (has_value_false df row c Hin Hc).
Qed.

Lemma dropna_columns_has_value (df : DataFrame) (v : string) :
  NoDup (columns df) -> well_formed df ->
  In v (columns (dropna_columns df)) -> has_value (dropna_columns df) v = true.
Proof.
  intros Hn Hwf Hv. rewrite (dropna_columns_names df Hn Hwf) in Hv.
  apply filter_In in Hv. destruct Hv as [_ Hv].
  unfold has_value in Hv. apply existsb_exists in Hv. destruct Hv as [row [Hin Hval]].
  unfold has_value. apply existsb_exists.
  exists (select (column_mask (ncols df) (data df)) row). split.
  - unfold dropna_columns. cbn [data]. now apply in_map.
  - now rewrite (dropna_columns_row df row v Hn Hwf Hin).
Qed.

(** X13. On a well-formed table with distinct column names,
    [dropna(axis=1, how='all')] keeps the row labels, keeps exactly the
    columns in which some row has a value, in their order, and changes no
    value: what the table holds at a label under a name is the same
    before and after.  No column without any value remains. *)
Theorem dropna_columns_keeps_values (df : DataFrame) :
  NoDup (columns df) -> well_formed df ->
  index (dropna_columns df) = index df /\
  columns (dropna_columns df) = filter (has_value df) (columns df) /\
  (forall t v, station_value (dropna_columns df) t v = station_value df t v) /\
  (forall v, In v (columns (dropna_columns df)) -> has_value (dropna_columns df) v = true).
Proof.
  intros Hn Hwf.
  split; [reflexivity | ]. split; [exact (dropna_columns_names df Hn Hwf) | ].
  split; [ | intros v; exact (dropna_columns_has_value df v Hn Hwf)].
  intros t v. unfold station_value.
  change (timestamps (dropna_columns df)) with (timestamps df).
  change (data (dropna_columns df))
    with (map (select (column_mask (ncols df) (data df))) (data df)).
  destruct (row_at_select (column_mask (ncols df) (data df)) (timestamps df)
              (data df) (ncols df) (ncols (dropna_columns df)) t) as [E | [E1 E2]].
  - rewrite E.
    destruct (row_at_in (timestamps df) (data df) (ncols df) t) as [Hin | Hrep].
    + exact (dropna_columns_row df _ v Hn Hwf Hin).
    + rewrite Hrep. transitivity (@None Q).
      * apply lookup_cell_select_repeat.
      * symmetry. apply lookup_cell_repeat.
  - rewrite E1, E2. transitivity (@None Q).
    + apply lookup_cell_repeat.
    + symmetry. apply lookup_cell_repeat.
Qed.

Lemma dropna_columns_keeps_values_witness :
  columns (dropna_columns with_silent_column)
  = ["air_temperature_ABO"; "air_temperature_BER"] /\
  station_value (dropna_columns with_silent_column) 1583074800 "air_temperature_BER"
  = Some 3%Q.
Proof.
  destruct (dropna_columns_keeps_values with_silent_column) as [_ [Hc [Hv _]]].
  - repeat constructor; simpl; intuition discriminate.
  - split; [reflexivity | repeat constructor].
  - split; [exact Hc | ]. rewrite Hv. reflexivity.
Defined.

Lemma select_length {A B : Type} (mask : list bool) (l1 : list A) (l2 : list B) :
  List.length l1 = List.length l2 ->
  List.length (select mask l1) = List.length (select mask l2).
Proof.
  revert l1 l2. induction mask as [ | b mask IH]; intros [ | x l1] [ | y l2] H;
    simpl in H; try discriminate; try reflexivity.
  cbn [select]. destruct b; [simpl; f_equal | ]; apply IH; lia.
Qed.

Lemma select_all {A B : Type} (l : list B) (l' : list A) :
  List.length l' = List.length l -> select (map (fun _ => true) l) l' = l'.
Proof.
  revert l'. induction l as [ | y l IH]; intros [ | x l'] H; simpl in H;
    try discriminate; try reflexivity.
  cbn [map select]. rewrite IH by lia. reflexivity.
Qed.

Lemma filter_nodup (p : string -> bool) (l : list string) :
  NoDup l -> NoDup (filter p l).
Proof.
  induction l as [ | x l IH]; intros Hn; [constructor | ].
  inversion Hn as [ | ? ? Hnotin Hn']; subst. cbn [filter].
  destruct (p x); [ | exact (IH Hn')].
  constructor; [ | exact (IH Hn')]. intros H. apply filter_In in H. tauto.
Qed.

Lemma dropna_columns_well_formed (df : DataFrame) :
  well_formed df -> well_formed (dropna_columns df).
Proof.
  intros [Hlen Hw]. split.
  - unfold dropna_columns, nrows in *. cbn [data index]. now rewrite length_map.
  - unfold dropna_columns, ncols. cbn [data columns].
    apply Forall_forall. intros row Hrow. apply in_map_iff in Hrow.
    destruct Hrow as [r [<- Hr]]. rewrite Forall_forall in Hw.
    apply select_length. exact (Hw r Hr).
Qed.

(** [dropna(axis=1, how='all')] applied a second time changes nothing,
    on a well-formed table with distinct column names. *)
Lemma dropna_columns_idempotent (df : DataFrame) :
  NoDup (columns df) -> well_formed df ->
  dropna_columns (dropna_columns df) = dropna_columns df.
Proof.
  intros Hn Hwf.
  pose proof (dropna_columns_well_formed df Hwf) as Hwf'.
  assert (Hn' : NoDup (columns (dropna_columns df))).
  { rewrite (dropna_columns_names df Hn Hwf). now apply filter_nodup. }
  unfold dropna_columns at 1.
  rewrite (column_mask_has_value (dropna_columns df) Hn' Hwf').
  rewrite (map_ext_in (has_value (dropna_columns df)) (fun _ => true)).
  2:{ intros v Hv. exact (dropna_columns_has_value df v Hn Hwf Hv). }
  rewrite (select_all (columns (dropna_columns df)) (columns (dropna_columns df)) eq_refl).
  rewrite (map_ext_in (select (map (fun _ => true) (columns (dropna_columns df))))
             (fun row => row)).
  - rewrite map_id. destruct (dropna_columns df); reflexivity.
  - intros row Hrow. apply select_all. destruct Hwf' as [_ Hw'].
    rewrite Forall_forall in Hw'. exact (Hw' row Hrow).
Qed.

